(** * Media-dw: URL classification, fetch strategies, batch download, history

    A shallow embedding of [main.py] and the properties of its
    platform-dispatch and batch-orchestration core.

    Python [str] values are modelled by [string]: a character is a code
    point below 256 (ASCII and Latin-1).  On this range [str.lower],
    [str.isspace], [\d], [\S] and the [re.IGNORECASE] flag behave as
    written below.  For the validation of a URL, strings of any code points
    are modelled by [ustring], and the Unicode tables that [re] consults are
    a parameter; on code points below 256 the two agree.

    Python exceptions are modelled by [exn]: the instances of class
    [Exception], and those of [BaseException] that a handler
    [except Exception] lets through.  A computation that may raise returns
    a [result].  The collaborators of the program (file system, clock,
    yt-dlp, instaloader) are [Services]; [Env] is the collaborators in a run
    that nothing interrupts. *)

From Stdlib Require Import String Ascii List Arith Bool Lia ZArith.
Import ListNotations.
Local Open Scope string_scope.
Local Open Scope nat_scope.

Set Implicit Arguments.
Set Warnings "-register-all".

(* ===================================================================== *)
(** ** Characters and strings *)
(* ===================================================================== *)

Module Str.

Definition code (c : ascii) : nat := nat_of_ascii c.

Definition in_range (lo hi c : ascii) : bool :=
  (code lo <=? code c) && (code c <=? code hi).

Definition is_ascii_upper (c : ascii) : bool := in_range "A" "Z" c.
Definition is_ascii_lower (c : ascii) : bool := in_range "a" "z" c.

(** Upper-case letters of Latin-1 other than A-Z: U+00C0..U+00DE without
    the multiplication sign U+00D7. *)
Definition is_latin1_upper (c : ascii) : bool :=
  (192 <=? code c) && (code c <=? 222) && negb (code c =? 215).

(** [c.lower()] for one character. *)
Definition lower_char (c : ascii) : ascii :=
  if is_ascii_upper c || is_latin1_upper c then ascii_of_nat (code c + 32)
  else c.

(** [c.upper()] restricted to the letters a-z (used for [capitalize] on
    platform names and for case-insensitive matching of ASCII patterns). *)
Definition upper_ascii (c : ascii) : ascii :=
  if is_ascii_lower c then ascii_of_nat (code c - 32) else c.

Definition lower_ascii (c : ascii) : ascii :=
  if is_ascii_upper c then ascii_of_nat (code c + 32) else c.

(** [s.lower()] *)
Fixpoint lower (s : string) : string :=
  match s with
  | EmptyString => EmptyString
  | String c s' => String (lower_char c) (lower s')
  end.

(** [s.capitalize()]: first character upper-cased, the rest lower-cased.
    Platform names are ASCII, for which [upper_ascii] is [str.upper]. *)
Definition capitalize (s : string) : string :=
  match s with
  | EmptyString => EmptyString
  | String c s' => String (upper_ascii c) (lower s')
  end.

(** [c.isspace()], which is also the complement of the regex class [\S]. *)
Definition isspace (c : ascii) : bool :=
  let n := code c in
  ((9 <=? n) && (n <=? 13)) || ((28 <=? n) && (n <=? 32))
  || (n =? 133) || (n =? 160).

Definition isdigit (c : ascii) : bool := in_range "0" "9" c.

Fixpoint lstrip (s : string) : string :=
  match s with
  | String c s' => if isspace c then lstrip s' else s
  | EmptyString => EmptyString
  end.

Fixpoint rstrip (s : string) : string :=
  match s with
  | EmptyString => EmptyString
  | String c s' =>
      match rstrip s' with
      | EmptyString => if isspace c then EmptyString else String c EmptyString
      | r => String c r
      end
  end.

(** [s.strip()] *)
Definition strip (s : string) : string := rstrip (lstrip s).

(** [s.startswith(p)] *)
Fixpoint starts_with (p s : string) : bool :=
  match p, s with
  | EmptyString, _ => true
  | String a p', String b s' => Ascii.eqb a b && starts_with p' s'
  | String _ _, EmptyString => false
  end.

(** [needle in s] *)
Fixpoint contains (needle s : string) : bool :=
  starts_with needle s
  || match s with
     | EmptyString => false
     | String _ s' => contains needle s'
     end.

(** [s[n:]] for [n >= 0] *)
Fixpoint drop (n : nat) (s : string) : string :=
  match n, s with
  | O, _ => s
  | S n', String _ s' => drop n' s'
  | S _, EmptyString => EmptyString
  end.

(** [s[:n]] for [n >= 0] *)
Fixpoint take (n : nat) (s : string) : string :=
  match n, s with
  | O, _ => EmptyString
  | S n', String c s' => String c (take n' s')
  | S _, EmptyString => EmptyString
  end.

(** [s.partition(c)] for a one-character separator [c]: the text before
    the first [c] and, when [c] occurs, the text after it. *)
Fixpoint partition (c : ascii) (s : string) : string * option string :=
  match s with
  | EmptyString => (EmptyString, None)
  | String x s' =>
      if Ascii.eqb x c then (EmptyString, Some s')
      else let '(a, b) := partition c s' in (String x a, b)
  end.

(** [s.split(c)] for a one-character separator [c]. *)
Fixpoint split (c : ascii) (s : string) : list string :=
  match s with
  | EmptyString => [EmptyString]
  | String x s' =>
      if Ascii.eqb x c then EmptyString :: split c s'
      else match split c s' with
           | w :: ws => String x w :: ws
           | [] => [String x EmptyString]
           end
  end.

(** [s.replace(a, b)] for one-character [a] and [b]. *)
Fixpoint replace_char (a b : ascii) (s : string) : string :=
  match s with
  | EmptyString => EmptyString
  | String x s' =>
      String (if Ascii.eqb x a then b else x) (replace_char a b s')
  end.

(** [s.replace(a, empty)] for a one-character [a]. *)
Fixpoint remove_char (a : ascii) (s : string) : string :=
  match s with
  | EmptyString => EmptyString
  | String x s' =>
      if Ascii.eqb x a then remove_char a s' else String x (remove_char a s')
  end.

Fixpoint forallb (p : ascii -> bool) (s : string) : bool :=
  match s with
  | EmptyString => true
  | String c s' => p c && forallb p s'
  end.

Definition is_empty (s : string) : bool :=
  match s with EmptyString => true | _ => false end.

End Str.

(* ===================================================================== *)
(** ** A backtracking matcher for the regular expressions of [main.py] *)
(* ===================================================================== *)

Module Re.

(** One item of a bracketed class, or a class escape. *)
Inductive citem : Type :=
| CChar (c : ascii)            (* a single character *)
| CRange (lo hi : ascii)       (* lo-hi *)
| CDigit                       (* \d *)
| CNotSpace.                   (* \S *)

Inductive regex : Type :=
| Eps                                         (* empty pattern *)
| Chr (c : ascii)                             (* literal character *)
| Set_ (items : list citem)                   (* [...], \d, \S *)
| Seq (a b : regex)                           (* ab *)
| Alt (a b : regex)                           (* a|b *)
| Rep (a : regex) (lo : nat) (hi : option nat)(* greedy a{lo,hi}, a?, a+ *)
| Grp (n : nat) (a : regex)                   (* capturing group number n *)
| Bol                                         (* ^ *)
| Eol.                                        (* $ *)

(** Captures: group number and captured text, most recent first. *)
Definition groups : Type := list (nat * string).

Definition cont : Type := nat -> string -> groups -> option groups.
Definition matcher : Type := nat -> string -> groups -> cont -> option groups.

(** A literal [c] of the pattern against the character [x] of a subject
    of code points below 256; [uchr_match] is the general case. *)
Definition chr_eq (icase : bool) (c x : ascii) : bool :=
  Ascii.eqb x c
  || (icase && Ascii.eqb (Str.lower_ascii x) (Str.lower_ascii c)).

Definition item_match (it : citem) (x : ascii) : bool :=
  match it with
  | CChar c => Ascii.eqb x c
  | CRange lo hi => Str.in_range lo hi x
  | CDigit => Str.isdigit x
  | CNotSpace => negb (Str.isspace x)
  end.

(** With [re.IGNORECASE] a class matches a character when it matches the
    character itself or its other-case form. *)
Definition set_match (icase : bool) (items : list citem) (x : ascii) : bool :=
  existsb (fun it => item_match it x) items
  || (icase &&
      (existsb (fun it => item_match it (Str.lower_ascii x)) items
       || existsb (fun it => item_match it (Str.upper_ascii x)) items)).

(** Greedy repetition of [step]: one more iteration is tried first, and
    only when that fails is the rest of the pattern tried here.  An
    iteration that consumes nothing is not repeated. *)
Fixpoint rep_loop (step : matcher) (fuel lo : nat) (hi : option nat)
    (pos : nat) (s : string) (g : groups) (k : cont) {struct fuel}
  : option groups :=
  let stop := if lo =? 0 then k pos s g else None in
  match fuel with
  | O => stop
  | S fuel' =>
      let more :=
        match hi with
        | Some O => None
        | _ =>
            step pos s g
              (fun pos' s' g' =>
                 if pos' =? pos then None
                 else rep_loop step fuel' (pred lo) (option_map pred hi)
                        pos' s' g' k)
        end in
      match more with
      | Some r => Some r
      | None => stop
      end
  end.

(** [exec icase r pos s g k]: match [r] against the subject at offset
    [pos], where [s] is the rest of the subject from [pos] on; on success
    call [k] with the new offset, rest and captures.  Alternatives are
    tried left to right. *)
Fixpoint exec (icase : bool) (r : regex) : matcher :=
  match r with
  | Eps => fun pos s g k => k pos s g
  | Chr c => fun pos s g k =>
      match s with
      | String x s' => if chr_eq icase c x then k (S pos) s' g else None
      | EmptyString => None
      end
  | Set_ items => fun pos s g k =>
      match s with
      | String x s' => if set_match icase items x then k (S pos) s' g else None
      | EmptyString => None
      end
  | Seq a b => fun pos s g k =>
      exec icase a pos s g (fun pos' s' g' => exec icase b pos' s' g' k)
  | Alt a b => fun pos s g k =>
      match exec icase a pos s g k with
      | Some r => Some r
      | None => exec icase b pos s g k
      end
  | Rep a lo hi => fun pos s g k =>
      rep_loop (exec icase a) (S (String.length s)) lo hi pos s g k
  | Grp n a => fun pos s g k =>
      exec icase a pos s g
        (fun pos' s' g' => k pos' s' ((n, Str.take (pos' - pos) s) :: g'))
  | Bol => fun pos s g k => if pos =? 0 then k pos s g else None
  | Eol => fun pos s g k =>
      match s with
      | EmptyString => k pos s g
      | String c EmptyString =>
          if Ascii.eqb c "010" then k pos s g else None
      | _ => None
      end
  end.

Definition accept : cont := fun _ _ g => Some g.

(** [pattern.match(s)]: a match starting at offset 0. *)
Definition match_ (icase : bool) (r : regex) (s : string) : option groups :=
  exec icase r 0 s [] accept.

(** The scan of [re.search]: the first offset, from [pos] on, at which
    the pattern matches. *)
Fixpoint search_from (icase : bool) (r : regex) (pos : nat) (s : string)
  : option groups :=
  match exec icase r pos s [] accept with
  | Some g => Some g
  | None =>
      match s with
      | EmptyString => None
      | String _ s' => search_from icase r (S pos) s'
      end
  end.

(** [re.search(r, s)] *)
Definition search (icase : bool) (r : regex) (s : string) : option groups :=
  search_from icase r 0 s.

(** [m.group(n)] *)
Fixpoint group (n : nat) (g : groups) : option string :=
  match g with
  | [] => None
  | (m, t) :: g' => if m =? n then Some t else group n g'
  end.

(** Pattern-building helpers. *)
Fixpoint lit (s : string) : regex :=
  match s with
  | EmptyString => Eps
  | String c EmptyString => Chr c
  | String c s' => Seq (Chr c) (lit s')
  end.

Fixpoint cat (rs : list regex) : regex :=
  match rs with
  | [] => Eps
  | [r] => r
  | r :: rs' => Seq r (cat rs')
  end.

Definition opt (r : regex) : regex := Rep r 0 (Some 1).
Definition plus (r : regex) : regex := Rep r 1 None.
Definition digit : regex := Set_ [CDigit].

End Re.

(* ===================================================================== *)
(** ** Values, exceptions, effects *)
(* ===================================================================== *)

(** Python values that cross the modelled interfaces: the contents of the
    history file, the option dictionary of yt-dlp, the information
    dictionary it returns. A [dict] keeps insertion order. *)
Inductive json : Type :=
| JNull
| JBool (b : bool)
| JNum (n : Z)
| JStr (s : string)
| JList (l : list json)
| JDict (kv : list (string * json)).

Definition dict : Type := list (string * json).

(** [d.get(k)] *)
Fixpoint dict_get (k : string) (d : dict) : option json :=
  match d with
  | [] => None
  | (k', v) :: d' => if String.eqb k' k then Some v else dict_get k d'
  end.

(** [d[k] = v]: an existing key keeps its place. *)
Fixpoint dict_set (k : string) (v : json) (d : dict) : dict :=
  match d with
  | [] => [(k, v)]
  | (k', v') :: d' =>
      if String.eqb k' k then (k', v) :: d' else (k', v') :: dict_set k v d'
  end.

(** [d.update(u)] *)
Definition dict_update (d u : dict) : dict :=
  fold_left (fun acc kv => dict_set (fst kv) (snd kv) acc) u d.

(** Truth value of a Python object. *)
Definition truthy (v : json) : bool :=
  match v with
  | JNull => false
  | JBool b => b
  | JNum n => negb (n =? 0)%Z
  | JStr s => negb (Str.is_empty s)
  | JList l => match l with [] => false | _ => true end
  | JDict kv => match kv with [] => false | _ => true end
  end.

(** Truth value of an [Optional[str]]. *)
Definition truthy_str (o : option string) : bool :=
  match o with
  | Some s => negb (Str.is_empty s)
  | None => false
  end.

(** [a or b] on an [Optional[str]] with a string default. *)
Definition or_str (o : option string) (d : string) : string :=
  match o with
  | Some s => if Str.is_empty s then d else s
  | None => d
  end.

(** What can be raised.  The first six are instances of [Exception]
    ([OtherException] stands for every class not named here, with its
    name).  The last three are instances of [BaseException] only: the
    interrupt key, a request to exit, and any other such class; a handler
    [except Exception] does not catch them. *)
Inductive exn : Type :=
| FileNotFoundError (msg : string)
| PermissionError (msg : string)
| ValueError (msg : string)
| AttributeError (msg : string)
| InstaloaderException (msg : string)
| OtherException (msg : string)
| KeyboardInterrupt
| SystemExit
| OtherBaseException (name : string).

(** [isinstance(e, Exception)] *)
Definition is_exception (e : exn) : bool :=
  match e with
  | KeyboardInterrupt | SystemExit | OtherBaseException _ => false
  | _ => true
  end.

Inductive result (A : Type) : Type :=
| Ret (a : A)
| Raise (e : exn).
Arguments Ret {A} a.
Arguments Raise {A} e.

(** Pieces of a formatted message (an f-string). *)
Inductive piece : Type :=
| Txt (s : string)
| Num (n : nat)
| Val (v : json)
| Exc (e : exn)
| Elapsed.                     (* a measured duration *)

Inductive level : Type := Plain | Header | Info | Success | Warning | Error.

(** What the program does to the outside, in order. *)
Inductive event : Type :=
| Print (lv : level) (msg : list piece)      (* print_info, print_error, ... *)
| Log (msg : list piece)                     (* logger.error *)
| Sleep (seconds : nat)                      (* time.sleep *)
| Mkdir (path : string)                      (* Path.mkdir(exist_ok=True) *)
| OpenRead (path : string)                   (* open(path, 'r') *)
| OpenWrite (path : string)                  (* open(path, 'w') *)
| YdlExtractInfo (url : string) (options : dict)
                                             (* YoutubeDL(options).extract_info *)
| PostFromShortcode (shortcode : string)     (* instaloader.Post.from_shortcode *)
| DownloadPost (shortcode target : string).  (* Instaloader.download_post *)

(** The state outside the program: the events so far (oldest first) and
    the contents of the files the program writes. *)
Record world : Type := mkWorld {
  trace : list event;
  files : string -> option string
}.

(** A post resolved by instaloader. *)
Record post : Type := mkPost {
  post_shortcode : string;
  post_title : option string
}.

(** The collaborators of the program.  Each may answer differently from
    one call to the next, so each sees the world at the time of the call,
    and each may raise anything, an interrupt included. *)
Record Services : Type := mkServices {
  DOWNLOAD_PATH : string;
  fs_mkdir : world -> string -> result unit;
  fs_open : world -> string -> bool -> result unit;
  fs_read_lines : world -> string -> result (list string);
  (* os.stat, as Path.exists() calls it: it raises when the path cannot be
     examined for a reason other than its absence *)
  fs_stat : world -> string -> result unit;
  (* writing a text to an open file and closing it: when it raises, only
     the first [fs_written] characters have reached the file *)
  fs_write : world -> string -> string -> result unit;
  fs_written : world -> string -> string -> nat;
  time_sleep : world -> nat -> result unit;
  json_load : string -> result json;
  json_dump : json -> string;
  now_isoformat : world -> string;
  ydl_extract_info : world -> string -> dict -> result (option dict);
  post_from_shortcode : world -> string -> result post;
  download_post : world -> post -> string -> result bool;
  (* urllib.parse: validation of a bracketed host, decoding of a string
     that contains percent escapes *)
  bracketed_netloc_ok : string -> bool;
  unquote_escaped : string -> string
}.

(** An answer that is a value or an instance of [Exception]. *)
Definition tame {A} (r : result A) : Prop :=
  match r with
  | Ret _ => True
  | Raise e => is_exception e = true
  end.

(** Collaborators that are not interrupted: whatever they raise is an
    instance of [Exception], and a pause runs to its end. *)
Record undisturbed (S : Services) : Prop := mkUndisturbed {
  mkdir_tame : forall w p, tame (fs_mkdir S w p);
  open_tame : forall w p mode, tame (fs_open S w p mode);
  read_lines_tame : forall w p, tame (fs_read_lines S w p);
  stat_tame : forall w p, tame (fs_stat S w p);
  write_tame : forall w p content, tame (fs_write S w p content);
  extract_info_tame : forall w url options,
    tame (ydl_extract_info S w url options);
  from_shortcode_tame : forall w sc, tame (post_from_shortcode S w sc);
  download_post_tame : forall w p target, tame (download_post S w p target);
  sleep_returns : forall w n, time_sleep S w n = Ret tt
}.

(** The collaborators in a run that nothing interrupts. *)
Record Env : Type := mkEnv {
  services :> Services;
  services_undisturbed : undisturbed services
}.

(** Computations with effects on the world that may raise. *)
Definition M (A : Type) : Type := world -> result A * world.

Definition ret {A} (a : A) : M A := fun w => (Ret a, w).
Definition raise {A} (e : exn) : M A := fun w => (Raise e, w).

Definition bind {A B} (m : M A) (f : A -> M B) : M B :=
  fun w =>
    match m w with
    | (Ret a, w') => f a w'
    | (Raise e, w') => (Raise e, w')
    end.

(** [try: m  except Exception as e: h e]: what is not an instance of
    [Exception] passes through. *)
Definition try_except {A} (m : M A) (h : exn -> M A) : M A :=
  fun w =>
    match m w with
    | (Ret a, w') => (Ret a, w')
    | (Raise e, w') => if is_exception e then h e w' else (Raise e, w')
    end.

(** [try: m  except: h]: the bare handler catches whatever is raised. *)
Definition try_except_all {A} (m : M A) (h : M A) : M A :=
  fun w =>
    match m w with
    | (Ret a, w') => (Ret a, w')
    | (Raise _, w') => h w'
    end.

Declare Scope m_scope.
Delimit Scope m_scope with M.
Notation "x <- m ;; k" := (bind m (fun x => k))
  (at level 61, m at next level, right associativity) : m_scope.
Notation "m ;;; k" := (bind m (fun _ => k))
  (at level 61, right associativity) : m_scope.
Local Open Scope m_scope.

Definition emit (e : event) : M unit :=
  fun w => (Ret tt, mkWorld (trace w ++ [e])%list (files w)).

(** A call to a collaborator: the call is recorded, then it answers. *)
Definition call {A} (e : event) (f : world -> result A) : M A :=
  fun w => let w' := mkWorld (trace w ++ [e])%list (files w) in (f w', w').

Definition lift {A} (r : result A) : M A := fun w => (r, w).

(** The printing helpers: each call is one event, carrying the kind of
    message (its colour) and its text; the rules around a header are part
    of the [Header] event. *)
Definition print_colored (lv : level) (msg : list piece) : M unit :=
  emit (Print lv msg).
Definition print_header := print_colored Header.
Definition print_success := print_colored Success.
Definition print_error := print_colored Error.
Definition print_warning := print_colored Warning.
Definition print_info := print_colored Info.
Definition logger_error (msg : list piece) : M unit := emit (Log msg).

(** [p / name] on paths. *)
Definition path_join (p name : string) : string := p ++ "/" ++ name.

Module Config.
Definition APP_NAME := "Media-dw".
Definition VERSION := "1.0.0".
Definition SUPPORTED_PLATFORMS :=
  ["instagram"; "tiktok"; "twitter"; "youtube"; "facebook"; "reddit";
   "twitch"].
Definition REQUEST_DELAY := 1.
Definition DEFAULT_QUALITY := "best".
Definition AVAILABLE_QUALITIES := ["best"; "worst"; "720p"; "480p"; "360p"].
End Config.

(* ===================================================================== *)
(** ** [urllib.parse]: the part used by [extract_video_id] *)
(* ===================================================================== *)

Module Urllib.

Record ParseResult : Type := mkParseResult {
  scheme : string;
  netloc : string;
  path : string;
  params : string;
  query : string;
  fragment : string
}.

Definition uses_params : list string :=
  [EmptyString; "ftp"; "hdl"; "prospero"; "http"; "imap"; "https"; "shttp"; "rtsp";
   "rtspu"; "sip"; "sips"; "mms"; "sftp"; "tel"].

Definition is_scheme_char (c : ascii) : bool :=
  Str.is_ascii_lower c || Str.is_ascii_upper c || Str.isdigit c
  || Ascii.eqb c "+" || Ascii.eqb c "-" || Ascii.eqb c ".".

(** [url.lstrip(_WHATWG_C0_CONTROL_OR_SPACE)] *)
Fixpoint lstrip_c0 (s : string) : string :=
  match s with
  | String c s' => if Str.code c <=? 32 then lstrip_c0 s' else s
  | EmptyString => EmptyString
  end.

(** The scheme of [url] and what follows its colon, when [url] starts
    with a letter and only scheme characters precede the first colon. *)
Definition split_scheme (url : string) : string * string :=
  match url with
  | String c0 _ =>
      match Str.partition ":" url with
      | (before, Some after) =>
          if (Str.is_ascii_lower c0 || Str.is_ascii_upper c0)
             && Str.forallb is_scheme_char before
          then (Str.lower before, after)
          else (EmptyString, url)
      | (_, None) => (EmptyString, url)
      end
  | EmptyString => (EmptyString, url)
  end.

(** [_splitnetloc(url, 2)] on a [url] whose two leading slashes have been
    removed: the text up to the first of [/], [?], [#], and the rest. *)
Fixpoint splitnetloc (s : string) : string * string :=
  match s with
  | EmptyString => (EmptyString, EmptyString)
  | String c s' =>
      if Ascii.eqb c "/" || Ascii.eqb c "?" || Ascii.eqb c "#"
      then (EmptyString, s)
      else let '(a, b) := splitnetloc s' in (String c a, b)
  end.

Definition urlsplit (bracketed_ok : string -> bool) (url0 : string)
  : result (string * string * string * string * string) :=
  let url := lstrip_c0 url0 in
  let url := Str.remove_char "010" (Str.remove_char "013"
               (Str.remove_char "009" url)) in
  let '(sch, url) := split_scheme url in
  let '(nl, url, ok) :=
    if Str.starts_with "//" url then
      let '(nl, rest) := splitnetloc (Str.drop 2 url) in
      let lb := Str.contains "[" nl in
      let rb := Str.contains "]" nl in
      if (lb && negb rb) || (rb && negb lb) then (nl, rest, false)
      else if lb && rb then (nl, rest, bracketed_ok nl)
      else (nl, rest, true)
    else (EmptyString, url, true) in
  if negb ok then Raise (ValueError "Invalid IPv6 URL")
  else
    let '(url, frag) :=
      match Str.partition "#" url with
      | (a, Some b) => (a, b)
      | (a, None) => (a, EmptyString)
      end in
    let '(url, q) :=
      match Str.partition "?" url with
      | (a, Some b) => (a, b)
      | (a, None) => (a, EmptyString)
      end in
    Ret (sch, nl, url, q, frag).

(** The text before the last [c] of [s] and the text from that [c] on. *)
Fixpoint rfind_split (c : ascii) (s : string) : option (string * string) :=
  match s with
  | EmptyString => None
  | String x s' =>
      match rfind_split c s' with
      | Some (a, b) => Some (String x a, b)
      | None => if Ascii.eqb x c then Some (EmptyString, s) else None
      end
  end.

(** [_splitparams(url)] *)
Definition splitparams (url : string) : string * string :=
  match rfind_split "/" url with
  | Some (dir, last) =>
      match Str.partition ";" last with
      | (a, Some b) => (dir ++ a, b)
      | (_, None) => (url, EmptyString)
      end
  | None =>
      match Str.partition ";" url with
      | (a, Some b) => (a, b)
      | (a, None) => (a, EmptyString)
      end
  end.

(** [urlparse(url)] *)
Definition urlparse (bracketed_ok : string -> bool) (url : string)
  : result ParseResult :=
  match urlsplit bracketed_ok url with
  | Raise e => Raise e
  | Ret (sch, nl, p, q, frag) =>
      let '(p, prm) :=
        if existsb (String.eqb sch) uses_params && Str.contains ";" p
        then splitparams p else (p, EmptyString) in
      Ret (mkParseResult sch nl p prm q frag)
  end.

(** [unquote(s)]: a string without percent sign is returned as it is. *)
Definition unquote (unquote_escaped : string -> string) (s : string)
  : string :=
  if Str.contains "%" s then unquote_escaped s else s.

(** [parse_qsl(qs)] with the default arguments. *)
Definition parse_qsl (unquote_escaped : string -> string) (qs : string)
  : list (string * string) :=
  let query_args := if Str.is_empty qs then [] else Str.split "&" qs in
  flat_map
    (fun name_value =>
       if Str.is_empty name_value then []
       else
         match Str.partition "=" name_value with
         | (_, None) => []
         | (n, Some v) =>
             if Str.is_empty v then []
             else [(unquote unquote_escaped (Str.replace_char "+" " " n),
                    unquote unquote_escaped (Str.replace_char "+" " " v))]
         end)
    query_args.

(** Adding one pair to the dictionary of [parse_qs]. *)
Fixpoint add_value (name value : string) (d : list (string * list string))
  : list (string * list string) :=
  match d with
  | [] => [(name, [value])]
  | (n, vs) :: d' =>
      if String.eqb n name then (n, (vs ++ [value])%list) :: d'
      else (n, vs) :: add_value name value d'
  end.

(** [parse_qs(qs)] *)
Definition parse_qs (unquote_escaped : string -> string) (qs : string)
  : list (string * list string) :=
  fold_left (fun d nv => add_value (fst nv) (snd nv) d)
    (parse_qsl unquote_escaped qs) [].

Fixpoint lookup (k : string) (d : list (string * list string))
  : option (list string) :=
  match d with
  | [] => None
  | (n, vs) :: d' => if String.eqb n k then Some vs else lookup k d'
  end.

End Urllib.

(* ===================================================================== *)
(** ** URL validation and processing *)
(* ===================================================================== *)

Import Re.

(** [[A-Z0-9]] and [[A-Z0-9-]] *)
Definition alnum : regex := Set_ [CRange "A" "Z"; CRange "0" "9"].
Definition alnum_dash : regex :=
  Set_ [CRange "A" "Z"; CRange "0" "9"; CChar "-"].

(** The pattern of [is_valid_url], compiled with [re.IGNORECASE]:
<<
  ^https?://
  (?:(?:[A-Z0-9](?:[A-Z0-9-]{0,61}[A-Z0-9])?\.)+[A-Z]{2,6}\.?|
  localhost|
  \d{1,3}\.\d{1,3}\.\d{1,3}\.\d{1,3})
  (?::\d+)?
  (?:/?|[/?]\S+)$
>> *)
Definition url_domain : regex :=
  cat [plus (cat [alnum;
                  opt (Seq (Rep alnum_dash 0 (Some 61)) alnum);
                  Chr "."]);
       Rep (Set_ [CRange "A" "Z"]) 2 (Some 6);
       opt (Chr ".")].

Definition url_ip : regex :=
  cat [Rep digit 1 (Some 3); Chr "."; Rep digit 1 (Some 3); Chr ".";
       Rep digit 1 (Some 3); Chr "."; Rep digit 1 (Some 3)].

Definition url_host : regex :=
  Alt url_domain (Alt (lit "localhost") url_ip).

Definition url_port : regex := opt (Seq (Chr ":") (plus digit)).

Definition url_tail : regex :=
  Alt (opt (Chr "/"))
      (Seq (Set_ [CChar "/"; CChar "?"]) (plus (Set_ [CNotSpace]))).

Definition url_pattern : regex :=
  Seq Bol
   (Seq (Chr "h") (Seq (Chr "t") (Seq (Chr "t") (Seq (Chr "p")
   (Seq (opt (Chr "s"))
   (Seq (Chr ":") (Seq (Chr "/") (Seq (Chr "/")
   (Seq url_host (Seq url_port (Seq url_tail Eol))))))))))).

Definition is_some {A} (o : option A) : bool :=
  match o with Some _ => true | None => false end.

(** [is_valid_url(url)] *)
Definition is_valid_url (url : string) : bool :=
  is_some (match_ true url_pattern url).

(** [[A-Za-z0-9_-]] *)
Definition shortcode_char : regex :=
  Set_ [CRange "A" "Z"; CRange "a" "z"; CRange "0" "9"; CChar "_"; CChar "-"].

(** [/(p|reel|tv)/([A-Za-z0-9_-]+)] *)
Definition instagram_pattern : regex :=
  Seq (Chr "/")
   (Seq (Grp 1 (Alt (Chr "p") (Alt (lit "reel") (lit "tv"))))
   (Seq (Chr "/") (Grp 2 (plus shortcode_char)))).

(** [/video/(\d+)] *)
Definition tiktok_pattern : regex := Seq (lit "/video/") (Grp 1 (plus digit)).

(** [/status/(\d+)] *)
Definition twitter_pattern : regex := Seq (lit "/status/") (Grp 1 (plus digit)).

(** [match.group(n) if match else None] *)
Definition group_of (n : nat) (m : option groups) : option string :=
  match m with
  | Some g => group n g
  | None => None
  end.

(** The body of the [try] block of [extract_video_id]; falling off the
    end of the block is [Ret None]. *)
Definition extract_video_id_body (E : Services) (url platform : string)
  : result (option string) :=
  match Urllib.urlparse (bracketed_netloc_ok E) url with
  | Raise e => Raise e
  | Ret parsed =>
      if String.eqb platform "youtube" then
        if Str.contains "youtu.be" url then
          Ret (Some (Str.drop 1 (Urllib.path parsed)))
        else if Str.contains "youtube.com" url then
          let query :=
            Urllib.parse_qs (unquote_escaped E) (Urllib.query parsed) in
          match Urllib.lookup "v" query with
          | Some (v :: _) => Ret (Some v)
          | Some [] => Raise (OtherException "list index out of range")
          | None => Ret None
          end
        else Ret None
      else if String.eqb platform "instagram" then
        Ret (group_of 2 (search false instagram_pattern url))
      else if String.eqb platform "tiktok" then
        Ret (group_of 1 (search false tiktok_pattern url))
      else if String.eqb platform "twitter" then
        Ret (group_of 1 (search false twitter_pattern url))
      else Ret None
  end.

(** [extract_video_id(url, platform)] *)
Definition extract_video_id (E : Services) (url platform : string)
  : M (option string) :=
  try_except (lift (extract_video_id_body E url platform))
    (fun e =>
       logger_error [Txt "Error extracting video ID: "; Exc e];;;
       ret None).

(* ===================================================================== *)
(** ** Platform detection *)
(* ===================================================================== *)

(** The table of [detect_platform], in the order of the dictionary. *)
Definition domain_patterns : list (string * regex) :=
  [("youtube", Grp 1 (Alt (lit "youtube.com") (lit "youtu.be")));
   ("instagram", lit "instagram.com");
   ("tiktok", lit "tiktok.com");
   ("twitter", Grp 1 (Alt (lit "twitter.com") (lit "x.com")));
   ("facebook", lit "facebook.com");
   ("reddit", lit "reddit.com");
   ("twitch", lit "twitch.tv")].

Fixpoint first_match (table : list (string * regex)) (text : string)
  : option string :=
  match table with
  | [] => None
  | (platform, pattern) :: rest =>
      if is_some (search false pattern text) then Some platform
      else first_match rest text
  end.

(** [detect_platform(url)] *)
Definition detect_platform (url : string) : option string :=
  let url_lower := Str.lower url in
  first_match domain_patterns url_lower.

(* ===================================================================== *)
(** ** Download functions *)
(* ===================================================================== *)

Section Program.

Variable E : Services.

(** [create_platform_folder(platform)] *)
Definition create_platform_folder (platform : string) : M string :=
  let platform_path := path_join (DOWNLOAD_PATH E) (Str.capitalize platform) in
  call (Mkdir platform_path) (fun w => fs_mkdir E w platform_path);;;
  ret platform_path.

(** [get_ydl_options(platform, quality, output_path)] *)
Definition get_ydl_options (platform : string) (quality : option string)
    (output_path : option string) : dict :=
  let base :=
    match output_path with Some p => p | None => DOWNLOAD_PATH E end in
  let options : dict :=
    [("outtmpl", JStr (path_join base "%(title)s.%(ext)s"));
     ("quiet", JBool false);
     ("no_warnings", JBool false);
     ("noplaylist", JBool true);
     ("ignoreerrors", JBool true);
     ("no_color", JBool true);
     ("progress", JBool true);
     ("format", JStr (or_str quality Config.DEFAULT_QUALITY));
     ("writethumbnail", JBool true);
     ("writeinfojson", JBool true);
     ("writesubtitles", JBool false);
     ("writeautomaticsub", JBool false);
     ("subtitleslangs", JList [JStr "en"])] in
  if String.eqb platform "youtube" then
    dict_update options
      [("format",
        JStr "bestvideo[height<=1080]+bestaudio/best[height<=1080]");
       ("merge_output_format", JStr "mp4")]
  else if String.eqb platform "instagram" then
    dict_update options [("cookiefile", JStr "cookies.txt")]
  else options.

(** [d.get(k, default)] *)
Definition dict_get_default (k : string) (default : json) (d : dict) : json :=
  match dict_get k d with Some v => v | None => default end.

(** [download_with_ytdlp(url, platform, quality)] *)
Definition download_with_ytdlp (url platform : string)
    (quality : option string) : M bool :=
  try_except
    (platform_path <- create_platform_folder platform;;
     let options := get_ydl_options platform quality (Some platform_path) in
     print_info [Txt "Starting download from ";
                 Txt (Str.capitalize platform); Txt "..."];;;
     print_info [Txt "Quality: ";
                 Txt (or_str quality Config.DEFAULT_QUALITY)];;;
     print_info [Txt "Save location: "; Txt platform_path];;;
     info <- call (YdlExtractInfo url options)
               (fun w => ydl_extract_info E w url options);;
     match info with
     | Some ((_ :: _) as d) =>
         print_success [Txt "Download completed successfully!"];;;
         print_info [Txt "Title: ";
                     Val (dict_get_default "title" (JStr "Unknown") d)];;;
         print_info [Txt "Duration: ";
                     Val (dict_get_default "duration" (JNum 0) d);
                     Txt " seconds"];;;
         print_info [Txt "Download time: "; Elapsed; Txt " seconds"];;;
         print_info [Txt "File size: ";
                     Val (let size := dict_get_default "filesize" (JNum 0) d in
                          if truthy size then size else JStr "Unknown");
                     Txt " bytes"];;;
         ret true
     | _ =>
         print_error [Txt "Failed to extract video information"];;;
         ret false
     end)
    (fun e =>
       print_error [Txt "Download failed: "; Exc e];;;
       logger_error [Txt "yt-dlp error for "; Txt url; Txt ": "; Exc e];;;
       ret false).

(** [download_instagram(url)] *)
Definition download_instagram (url : string) : M bool :=
  try_except
    (print_info [Txt "Attempting Instagram download..."];;;
     instagram_path <- create_platform_folder "instagram";;
     shortcode <- extract_video_id E url "instagram";;
     match shortcode with
     | Some sc =>
         if Str.is_empty sc then
           print_error [Txt "Could not extract Instagram shortcode from URL"];;;
           ret false
         else
           print_info [Txt "Downloading Instagram post: "; Txt sc];;;
           p <- call (PostFromShortcode sc)
                  (fun w => post_from_shortcode E w sc);;
           call (DownloadPost sc instagram_path)
             (fun w => download_post E w p instagram_path);;;
           print_success [Txt "Instagram download completed: ";
                          Txt (or_str (post_title p) sc)];;;
           ret true
     | None =>
         print_error [Txt "Could not extract Instagram shortcode from URL"];;;
         ret false
     end)
    (fun e =>
       match e with
       | InstaloaderException _ =>
           print_error [Txt "Instagram download failed: "; Exc e];;;
           print_warning
             [Txt "This might be due to platform restrictions or private content."];;;
           ret false
       | _ =>
           print_error [Txt "Unexpected error: "; Exc e];;;
           logger_error [Txt "Instagram download error: "; Exc e];;;
           ret false
       end).

(* ===================================================================== *)
(** ** Batch download *)
(* ===================================================================== *)

(** The [for] loop of [download_from_file]: [i] is the number of the
    first URL of [urls] in the whole list of [total] URLs; the result is
    the final [success_count]. *)
Fixpoint batch_loop (platform : option string) (total i : nat)
    (urls : list string) (success_count : nat) : M nat :=
  match urls with
  | [] => ret success_count
  | url :: rest =>
      print_header [Txt "Processing URL "; Num i; Txt "/"; Num total];;;
      if negb (is_valid_url url) then
        print_error [Txt "Invalid URL: "; Txt url];;;
        batch_loop platform total (S i) rest success_count
      else
        let detected_platform :=
          if truthy_str platform then platform else detect_platform url in
        match detected_platform with
        | Some p =>
            if Str.is_empty p then
              print_error [Txt "Could not detect platform for: "; Txt url];;;
              batch_loop platform total (S i) rest success_count
            else
              print_info [Txt "URL: "; Txt url];;;
              print_info [Txt "Platform: "; Txt p];;;
              success <-
                (if String.eqb p "instagram" then download_instagram url
                 else download_with_ytdlp url p None);;
              let success_count :=
                if success then S success_count else success_count in
              (if i <? total then
                 print_info [Txt "Waiting "; Num Config.REQUEST_DELAY;
                             Txt " seconds before next download..."];;;
                 call (Sleep Config.REQUEST_DELAY)
                   (fun w => time_sleep E w Config.REQUEST_DELAY)
               else ret tt);;;
              batch_loop platform total (S i) rest success_count
        | None =>
            print_error [Txt "Could not detect platform for: "; Txt url];;;
            batch_loop platform total (S i) rest success_count
        end
  end.

(** [[line.strip() for line in f if line.strip()]] *)
Definition read_urls (lines : list string) : list string :=
  map Str.strip (filter (fun line => negb (Str.is_empty (Str.strip line))) lines).

(** [download_from_file(filepath, platform)] *)
Definition download_from_file (filepath : string) (platform : option string)
  : M unit :=
  try_except
    (lines <- call (OpenRead filepath) (fun w => fs_read_lines E w filepath);;
     let urls := read_urls lines in
     match urls with
     | [] => print_error [Txt "No URLs found in file"]
     | _ =>
         print_info [Txt "Found "; Num (length urls); Txt " URLs in file"];;;
         success_count <- batch_loop platform (length urls) 1 urls 0;;
         print_success [Txt "Batch download completed: "; Num success_count;
                        Txt "/"; Num (length urls); Txt " successful"]
     end)
    (fun e =>
       match e with
       | FileNotFoundError _ =>
           print_error [Txt "File not found: "; Txt filepath]
       | _ => print_error [Txt "Batch download failed: "; Exc e]
       end).

End Program.

(* ===================================================================== *)
(** ** History management *)
(* ===================================================================== *)

Section History.

Variable E : Services.

(** [class DownloadHistory] *)
Record DownloadHistory : Type := mkDownloadHistory {
  history_file : string;
  history : json
}.

(** [Path(p).exists()]: the path is examined, which may raise; when it
    does not, the answer is whether the file is there. *)
Definition path_exists (p : string) : M bool :=
  fun w =>
    match fs_stat E w p with
    | Ret _ => (Ret (is_some (files w p)), w)
    | Raise e => (Raise e, w)
    end.

Definition read_file (p : string) : M string :=
  fun w =>
    match files w p with
    | Some content => (Ret content, w)
    | None => (Raise (FileNotFoundError p), w)
    end.

(** The file [p] now holds [content]. *)
Definition set_file (w : world) (p content : string) : world :=
  mkWorld (trace w)
    (fun q => if String.eqb q p then Some content else files w q).

(** Writing [content] to the file [p], just opened with mode ['w'] and so
    emptied, and closing it: when the writing raises, the file keeps the
    part that was written. *)
Definition write_file (p content : string) : M unit :=
  fun w =>
    match fs_write E w p content with
    | Ret _ => (Ret tt, set_file w p content)
    | Raise e =>
        (Raise e, set_file w p (Str.take (fs_written E w p content) content))
    end.

(** [DownloadHistory.load_history]: the bare [except] catches whatever
    opening or parsing raises. *)
Definition load_history (history_file : string) : M json :=
  exists_ <- path_exists history_file;;
  if (exists_ : bool) then
    try_except_all
      (call (OpenRead history_file) (fun w => fs_open E w history_file false);;;
       content <- read_file history_file;;
       lift (json_load E content))
      (ret (JList []))
  else ret (JList []).

(** [DownloadHistory.__init__] *)
Definition DownloadHistory_init : M DownloadHistory :=
  let history_file := path_join (DOWNLOAD_PATH E) "download_history.json" in
  h <- load_history history_file;;
  ret (mkDownloadHistory history_file h).

(** [DownloadHistory.save_history] *)
Definition save_history (self : DownloadHistory) : M unit :=
  try_except
    (call (OpenWrite (history_file self))
       (fun w => fs_open E w (history_file self) true);;;
     write_file (history_file self) (json_dump E (history self)))
    (fun e => logger_error [Txt "Error saving history: "; Exc e]).

(** [l[-n:]] for [n > 0] *)
Definition last_n {A} (n : nat) (l : list A) : list A :=
  skipn (length l - n) l.

Definition json_of_option (o : option string) : json :=
  match o with Some s => JStr s | None => JNull end.

(** The dictionary built by [add_entry]. *)
Definition make_entry (timestamp url platform : string) (success : bool)
    (filename : option string) : json :=
  JDict [("timestamp", JStr timestamp);
         ("url", JStr url);
         ("platform", JStr platform);
         ("success", JBool success);
         ("filename", json_of_option filename)].

(** The update of [self.history] made by [add_entry]: append, then keep
    only the last 100 entries. *)
Definition append_capped (l : list json) (entry : json) : list json :=
  let l := (l ++ [entry])%list in
  if 100 <? length l then last_n 100 l else l.

(** [DownloadHistory.add_entry(url, platform, success, filename)] *)
Definition add_entry (self : DownloadHistory) (url platform : string)
    (success : bool) (filename : option string) : M DownloadHistory :=
  timestamp <- (fun w => (Ret (now_isoformat E w), w));;
  let entry := make_entry timestamp url platform success filename in
  match history self with
  | JList l =>
      let self := mkDownloadHistory (history_file self)
                    (JList (append_capped l entry)) in
      save_history self;;;
      ret self
  | _ => raise (AttributeError "object has no attribute 'append'")
  end.

(* ===================================================================== *)
(** ** Quality settings and the application object *)
(* ===================================================================== *)

(** [class QualityManager] *)
Record QualityManager : Type := mkQualityManager {
  quality : string;
  quality_map : list (Z * string)
}.

Definition QualityManager_init : QualityManager :=
  mkQualityManager Config.DEFAULT_QUALITY
    [(1, "best"); (2, "1080p"); (3, "720p"); (4, "480p"); (5, "360p");
     (6, "worst")]%Z.

Fixpoint map_get (k : Z) (m : list (Z * string)) : option string :=
  match m with
  | [] => None
  | (k', v) :: m' => if (k' =? k)%Z then Some v else map_get k m'
  end.

(** [QualityManager.set_quality], where [choice] is the number returned
    by [get_menu_choice("Select quality: ", 1, 7)]. *)
Definition set_quality (self : QualityManager) (choice : Z)
  : M QualityManager :=
  print_colored Plain [Txt "Select Quality:"];;;
  if ((choice =? 7) || (choice =? -1))%Z then ret self
  else
    match map_get choice (quality_map self) with
    | Some q =>
        print_success [Txt "Quality set to: "; Txt q];;;
        ret (mkQualityManager q (quality_map self))
    | None =>
        print_error [Txt "Invalid quality choice"];;;
        ret self
    end.

(** [QualityManager.get_quality] *)
Definition get_quality (self : QualityManager) : string := quality self.

(** [class MediaDownloaderApp] *)
Record MediaDownloaderApp : Type := mkApp {
  app_history : DownloadHistory;
  quality_manager : QualityManager;
  running : bool
}.

(** [MediaDownloaderApp.__init__] *)
Definition MediaDownloaderApp_init : M MediaDownloaderApp :=
  h <- DownloadHistory_init;;
  ret (mkApp h QualityManager_init true).

Definition platform_map : list (Z * string) :=
  [(2, "youtube"); (3, "instagram"); (4, "tiktok"); (5, "twitter");
   (6, "other")]%Z.

(** [MediaDownloaderApp.handle_single_download], where [platform_choice]
    is the number returned by [get_menu_choice("Select platform: ", 1, 7)]
    and [url_input] the value returned by [get_url_input()]. *)
Definition handle_single_download (self : MediaDownloaderApp)
    (platform_choice : Z) (url_input : option string)
  : M MediaDownloaderApp :=
  print_colored Plain [Txt "Select Platform:"];;;
  if ((platform_choice =? -1) || (platform_choice =? 7))%Z then ret self
  else if negb (truthy_str url_input) then ret self
  else
    let url := or_str url_input EmptyString in
    platform <-
      (if (platform_choice =? 1)%Z then
         match detect_platform url with
         | Some p =>
             if Str.is_empty p then
               print_error [Txt "Could not detect platform. Using yt-dlp..."];;;
               ret "other"
             else ret p
         | None =>
             print_error [Txt "Could not detect platform. Using yt-dlp..."];;;
             ret "other"
         end
       else
         ret (match map_get platform_choice platform_map with
              | Some p => p
              | None => "other"
              end));;
    print_info [Txt "Platform: "; Txt platform];;;
    print_info [Txt "Quality: "; Txt (get_quality (quality_manager self))];;;
    success <-
      (if String.eqb platform "instagram" then download_instagram E url
       else download_with_ytdlp E url platform
              (Some (get_quality (quality_manager self))));;
    h <- add_entry (app_history self) url platform success None;;
    (if (success : bool) then
       print_success [Txt "Download completed successfully!"]
     else
       print_error [Txt "Download failed. Check the error messages above."]);;;
    ret (mkApp h (quality_manager self) (running self)).

(** [MediaDownloaderApp.handle_batch_download], where [file_input] is the
    value returned by [get_file_input()] and [platform_choice] the number
    returned by [get_menu_choice]. *)
Definition handle_batch_download (self : MediaDownloaderApp)
    (file_input : option string) (platform_choice : Z)
  : M MediaDownloaderApp :=
  if negb (truthy_str file_input) then ret self
  else
    let filepath := or_str file_input EmptyString in
    print_colored Plain [Txt "Select Platform:"];;;
    if ((platform_choice =? -1) || (platform_choice =? 7))%Z then ret self
    else
      let platform :=
        if negb (platform_choice =? 1)%Z then
          Some (match map_get platform_choice platform_map with
                | Some p => p
                | None => "other"
                end)
        else None in
      download_from_file E filepath platform;;;
      ret self.

End History.

(* ===================================================================== *)
(** ** Download path, console input, history display *)
(* ===================================================================== *)

(** [setup_download_path()], where [home] and [cwd] are [Path.home()] and
    [Path.cwd()] and [dir_exists] answers [Path.exists]. *)
Definition possible_paths (home cwd : string) : list string :=
  [path_join home "Downloads";
   path_join home "downloads";
   path_join (path_join home "storage") "downloads";
   path_join cwd "downloads"].

Definition setup_download_path (E : Services) (home cwd : string)
    (dir_exists : string -> bool) : M string :=
  match find dir_exists (possible_paths home cwd) with
  | Some path => ret path
  | None =>
      let default_path := path_join cwd "downloads" in
      call (Mkdir default_path) (fun w => fs_mkdir E w default_path);;;
      ret default_path
  end.

(** What a call of [input()] meets: a line typed by the user, or the
    interrupt key, which raises [KeyboardInterrupt] inside [input].  With
    nothing left to read, [input] raises [EOFError]. *)
Inductive keyboard : Type :=
| Line (s : string)
| Interrupt.

Definition digit_value (c : ascii) : Z := Z.of_nat (Str.code c - 48).

(** The digits of [int(s)]: decimal digits, with single underscores
    allowed between two digits. *)
Fixpoint int_digits (s : string) (acc : Z) (after_digit : bool) : option Z :=
  match s with
  | EmptyString => if after_digit then Some acc else None
  | String c s' =>
      if Str.isdigit c then int_digits s' (10 * acc + digit_value c)%Z true
      else if Ascii.eqb c "_" && after_digit then int_digits s' acc false
      else None
  end.

(** The blanks that [int] skips around a number: tab to carriage return,
    space, and the two Latin-1 blanks; unlike [str.strip] it does not skip
    the separators U+001C..U+001F. *)
Definition int_space (c : ascii) : bool :=
  let n := Str.code c in
  ((9 <=? n) && (n <=? 13)) || (n =? 32) || (n =? 133) || (n =? 160).

Fixpoint int_lstrip (s : string) : string :=
  match s with
  | String c s' => if int_space c then int_lstrip s' else s
  | EmptyString => EmptyString
  end.

Fixpoint int_rstrip (s : string) : string :=
  match s with
  | EmptyString => EmptyString
  | String c s' =>
      match int_rstrip s' with
      | EmptyString =>
          if int_space c then EmptyString else String c EmptyString
      | r => String c r
      end
  end.

(** [int(s)] for a string: [None] stands for [ValueError]. *)
Definition py_int (s : string) : option Z :=
  match int_rstrip (int_lstrip s) with
  | String c s' =>
      if Ascii.eqb c "+" then int_digits s' 0%Z false
      else if Ascii.eqb c "-" then option_map Z.opp (int_digits s' 0%Z false)
      else int_digits (String c s') 0%Z false
  | EmptyString => None
  end.

(** [s in words] *)
Definition one_of (words : list string) (s : string) : bool :=
  existsb (String.eqb s) words.

(** [get_menu_choice(prompt, min_val, max_val)] reading from [stdin];
    the result carries the input that is left. *)
Fixpoint get_menu_choice (prompt : string) (min_val max_val : Z)
    (stdin : list keyboard) : M (Z * list keyboard) :=
  match stdin with
  | [] =>
      print_colored Plain [Txt prompt];;;
      raise (OtherException "EOFError")
  | Interrupt :: rest =>
      print_colored Plain [Txt prompt];;;
      ret ((-1)%Z, rest)
  | Line raw :: rest =>
      print_colored Plain [Txt prompt];;;
      let choice := Str.strip raw in
      if one_of ["exit"; "quit"; "q"] (Str.lower choice) then
        ret ((-1)%Z, rest)
      else
        match py_int choice with
        | Some choice_int =>
            if ((min_val <=? choice_int) && (choice_int <=? max_val))%Z then
              ret (choice_int, rest)
            else
              print_error [Txt "Please enter a number between ";
                           Val (JNum min_val); Txt " and ";
                           Val (JNum max_val)];;;
              get_menu_choice prompt min_val max_val rest
        | None =>
            print_error [Txt "Please enter a valid number"];;;
            get_menu_choice prompt min_val max_val rest
        end
  end.

(** [get_url_input()] reading from [stdin]. *)
Fixpoint get_url_input (stdin : list keyboard)
  : M (option string * list keyboard) :=
  match stdin with
  | [] =>
      print_colored Plain [Txt "Enter video URL (or 'back' to return): "];;;
      raise (OtherException "EOFError")
  | Interrupt :: rest =>
      print_colored Plain [Txt "Enter video URL (or 'back' to return): "];;;
      ret (None, rest)
  | Line raw :: rest =>
      print_colored Plain [Txt "Enter video URL (or 'back' to return): "];;;
      let url := Str.strip raw in
      if one_of ["back"; "exit"; "quit"] (Str.lower url) then ret (None, rest)
      else if Str.is_empty url then
        print_warning [Txt "No URL entered"];;;
        ret (None, rest)
      else if negb (is_valid_url url) then
        print_error
          [Txt "Invalid URL format. Please include http:// or https://"];;;
        get_url_input rest
      else ret (Some url, rest)
  end.

(** [obj[key]] for a string key: only a dictionary that has the key
    answers. *)
Definition subscript (obj : json) (key : string) : result json :=
  match obj with
  | JDict d =>
      match dict_get key d with
      | Some v => Ret v
      | None => Raise (OtherException "KeyError")
      end
  | _ => Raise (OtherException "TypeError")
  end.

(** [v[:n]] *)
Definition slice_to (n : nat) (v : json) : result json :=
  match v with
  | JStr s => Ret (JStr (Str.take n s))
  | JList l => Ret (JList (firstn n l))
  | _ => Raise (OtherException "TypeError")
  end.

(** [l[-limit:]] for [limit >= 0]: with [limit = 0] this is [l[0:]]. *)
Definition slice_last {A} (limit : nat) (l : list A) : list A :=
  match limit with
  | O => l
  | _ => skipn (length l - limit) l
  end.

(** One line of [show_history]. *)
Definition show_entry (entry : json) : M unit :=
  success <- lift (subscript entry "success");;
  timestamp <- lift (subscript entry "timestamp");;
  platform <- lift (subscript entry "platform");;
  url <- lift (subscript entry "url");;
  url50 <- lift (slice_to 50 url);;
  print_colored (if truthy success then Success else Error)
    [Txt (if truthy success then "Success" else "Failed"); Txt " ";
     Val timestamp; Txt " - "; Val platform; Txt ": "; Val url50; Txt "..."].

Fixpoint show_entries (entries : list json) : M unit :=
  match entries with
  | [] => ret tt
  | entry :: rest => show_entry entry;;; show_entries rest
  end.

(** [DownloadHistory.show_history(limit)] for [limit >= 0]. *)
Definition show_history (self : DownloadHistory) (limit : nat) : M unit :=
  if negb (truthy (history self)) then
    print_info [Txt "No download history found"]
  else
    match history self with
    | JList l =>
        let recent := slice_last limit l in
        print_header [Txt "Download History"];;;
        show_entries (rev recent);;;
        print_colored Plain []
    | JStr _ =>
        print_header [Txt "Download History"];;;
        raise (OtherException "TypeError")
    | _ => raise (OtherException "TypeError")
    end.

(* ===================================================================== *)
(** ** URL validation of strings beyond Latin-1 *)
(* ===================================================================== *)

(** A Python string as the list of its code points.  The type [string]
    used so far holds the strings whose code points are all below 256. *)
Definition ustring : Type := list N.

Definition point (c : ascii) : N := N_of_ascii c.

Fixpoint points (s : string) : ustring :=
  match s with
  | EmptyString => []
  | String c s' => point c :: points s'
  end.

(** What [re] asks of the Unicode database: the simple lower-case
    mapping, whether a code point is cased, and the categories behind
    [\d] and [\s]. *)
Record Unicode : Type := mkUnicode {
  unicode_tolower : N -> N;
  unicode_iscased : N -> bool;
  unicode_isdecimal : N -> bool;
  unicode_isspace : N -> bool
}.

(** [re._casefix._EXTRA_CASES]: for a lower-case code point, the other
    lower-case code points that have the same upper case. *)
Definition EXTRA_CASES : list (N * list N) :=
  [(0x0069, [0x0131]);
   (0x0073, [0x017f]);
   (0x00b5, [0x03bc]);
   (0x0131, [0x0069]);
   (0x017f, [0x0073]);
   (0x0345, [0x03b9; 0x1fbe]);
   (0x0390, [0x1fd3]);
   (0x03b0, [0x1fe3]);
   (0x03b2, [0x03d0]);
   (0x03b5, [0x03f5]);
   (0x03b8, [0x03d1]);
   (0x03b9, [0x0345; 0x1fbe]);
   (0x03ba, [0x03f0]);
   (0x03bc, [0x00b5]);
   (0x03c0, [0x03d6]);
   (0x03c1, [0x03f1]);
   (0x03c2, [0x03c3]);
   (0x03c3, [0x03c2]);
   (0x03c6, [0x03d5]);
   (0x03d0, [0x03b2]);
   (0x03d1, [0x03b8]);
   (0x03d5, [0x03c6]);
   (0x03d6, [0x03c0]);
   (0x03f0, [0x03ba]);
   (0x03f1, [0x03c1]);
   (0x03f5, [0x03b5]);
   (0x0432, [0x1c80]);
   (0x0434, [0x1c81]);
   (0x043e, [0x1c82]);
   (0x0441, [0x1c83]);
   (0x0442, [0x1c84; 0x1c85]);
   (0x044a, [0x1c86]);
   (0x0463, [0x1c87]);
   (0x1c80, [0x0432]);
   (0x1c81, [0x0434]);
   (0x1c82, [0x043e]);
   (0x1c83, [0x0441]);
   (0x1c84, [0x0442; 0x1c85]);
   (0x1c85, [0x0442; 0x1c84]);
   (0x1c86, [0x044a]);
   (0x1c87, [0x0463]);
   (0x1c88, [0xa64b]);
   (0x1e61, [0x1e9b]);
   (0x1e9b, [0x1e61]);
   (0x1fbe, [0x0345; 0x03b9]);
   (0x1fd3, [0x0390]);
   (0x1fe3, [0x03b0]);
   (0xa64b, [0x1c88]);
   (0xfb05, [0xfb06]);
   (0xfb06, [0xfb05])]%N.

Definition fixes (lo : N) : list N :=
  match find (fun entry => N.eqb (fst entry) lo) EXTRA_CASES with
  | Some (_, ks) => ks
  | None => []
  end.

(** The code points from [lo] to [hi]. *)
Definition point_range (lo hi : N) : list N :=
  map (fun i => (lo + N.of_nat i)%N) (seq 0 (S (N.to_nat hi) - N.to_nat lo)).

Section UnicodeMatch.

Variable U : Unicode.

(** A literal [c] of the pattern against the code point [x].  Without
    [re.IGNORECASE], or for a literal that is not cased, the two are
    compared; otherwise the lower case of [x] is compared with the lower
    case of [c] and with its extra cases. *)
Definition uchr_match (icase : bool) (c x : N) : bool :=
  if icase && unicode_iscased U c then
    let lo := unicode_tolower U c in
    existsb (N.eqb (unicode_tolower U x)) (lo :: fixes lo)
  else N.eqb x c.

(** An item of a class, as written. *)
Definition uitem_plain (it : citem) (x : N) : bool :=
  match it with
  | CChar c => N.eqb x (point c)
  | CRange lo hi => (N.leb (point lo) x && N.leb x (point hi))%bool
  | CDigit => unicode_isdecimal U x
  | CNotSpace => negb (unicode_isspace U x)
  end.

(** An item of a class compiled with [re.IGNORECASE]: the character map
    receives the lower case of each of its characters, with the extra
    cases of that lower case; a category stays as it is. *)
Definition lowered (y c : N) : bool :=
  let lo := unicode_tolower U c in
  (N.eqb y lo || existsb (N.eqb y) (fixes lo))%bool.

Definition uitem_lowered (it : citem) (y : N) : bool :=
  match it with
  | CChar c => lowered y (point c)
  | CRange lo hi => existsb (lowered y) (point_range (point lo) (point hi))
  | CDigit => unicode_isdecimal U y
  | CNotSpace => negb (unicode_isspace U y)
  end.

Definition uitem_hascased (it : citem) : bool :=
  match it with
  | CChar c => unicode_iscased U (point c)
  | CRange lo hi =>
      existsb (unicode_iscased U) (point_range (point lo) (point hi))
  | CDigit | CNotSpace => false
  end.

(** A class against the code point [x]: with [re.IGNORECASE] and a cased
    character in the class, the lower case of [x] is looked up in the
    compiled class; with no cased character, [x] itself is. *)
Definition uset_match (icase : bool) (items : list citem) (x : N) : bool :=
  if icase then
    if existsb uitem_hascased items then
      existsb (fun it => uitem_lowered it (unicode_tolower U x)) items
    else existsb (fun it => uitem_lowered it x) items
  else existsb (fun it => uitem_plain it x) items.

Definition ucont : Type := nat -> ustring -> bool.
Definition umatcher : Type := nat -> ustring -> ucont -> bool.

(** The matcher of [Re] on code points, for the question whether there is
    a match at all: captures are not recorded. *)
Fixpoint urep_loop (step : umatcher) (fuel lo : nat) (hi : option nat)
    (pos : nat) (s : ustring) (k : ucont) {struct fuel} : bool :=
  let stop := if lo =? 0 then k pos s else false in
  match fuel with
  | O => stop
  | S fuel' =>
      let more :=
        match hi with
        | Some O => false
        | _ =>
            step pos s
              (fun pos' s' =>
                 if pos' =? pos then false
                 else urep_loop step fuel' (pred lo) (option_map pred hi)
                        pos' s' k)
        end in
      if more then true else stop
  end.

Fixpoint uexec (icase : bool) (r : regex) : umatcher :=
  match r with
  | Eps => fun pos s k => k pos s
  | Chr c => fun pos s k =>
      match s with
      | x :: s' => if uchr_match icase (point c) x then k (S pos) s' else false
      | [] => false
      end
  | Set_ items => fun pos s k =>
      match s with
      | x :: s' => if uset_match icase items x then k (S pos) s' else false
      | [] => false
      end
  | Seq a b => fun pos s k =>
      uexec icase a pos s (fun pos' s' => uexec icase b pos' s' k)
  | Alt a b => fun pos s k =>
      if uexec icase a pos s k then true else uexec icase b pos s k
  | Rep a lo hi => fun pos s k =>
      urep_loop (uexec icase a) (S (length s)) lo hi pos s k
  | Grp _ a => fun pos s k => uexec icase a pos s k
  | Bol => fun pos s k => if pos =? 0 then k pos s else false
  | Eol => fun pos s k =>
      match s with
      | [] => k pos s
      | [c] => if N.eqb c 10 then k pos s else false
      | _ => false
      end
  end.

(** [bool(pattern.match(s))] *)
Definition umatch (icase : bool) (r : regex) (s : ustring) : bool :=
  uexec icase r 0 s (fun _ _ => true).

(** [is_valid_url(url)] for a string of any code points. *)
Definition is_valid_url_unicode (url : ustring) : bool :=
  umatch true url_pattern url.

End UnicodeMatch.

(** The tables of CPython 3.11 (Unicode 14.0), as far as a pattern made of
    ASCII characters consults them.  The lower case is that of CPython for
    every code point whose lower case is below U+0180; any other code point
    is left as it is: it is its own lower case, or it and its lower case
    are both above U+017F.  Whether a
    code point is cased is that of CPython below U+0180, the range of the
    characters of a pattern.  Decimal digits and white space are those of
    CPython for every code point. *)
Definition LOWER_BELOW_0180 : list (N * N) :=
  [(0x0041, 0x0061); (0x0042, 0x0062); (0x0043, 0x0063); (0x0044, 0x0064);
   (0x0045, 0x0065); (0x0046, 0x0066); (0x0047, 0x0067); (0x0048, 0x0068);
   (0x0049, 0x0069); (0x004a, 0x006a); (0x004b, 0x006b); (0x004c, 0x006c);
   (0x004d, 0x006d); (0x004e, 0x006e); (0x004f, 0x006f); (0x0050, 0x0070);
   (0x0051, 0x0071); (0x0052, 0x0072); (0x0053, 0x0073); (0x0054, 0x0074);
   (0x0055, 0x0075); (0x0056, 0x0076); (0x0057, 0x0077); (0x0058, 0x0078);
   (0x0059, 0x0079); (0x005a, 0x007a); (0x00c0, 0x00e0); (0x00c1, 0x00e1);
   (0x00c2, 0x00e2); (0x00c3, 0x00e3); (0x00c4, 0x00e4); (0x00c5, 0x00e5);
   (0x00c6, 0x00e6); (0x00c7, 0x00e7); (0x00c8, 0x00e8); (0x00c9, 0x00e9);
   (0x00ca, 0x00ea); (0x00cb, 0x00eb); (0x00cc, 0x00ec); (0x00cd, 0x00ed);
   (0x00ce, 0x00ee); (0x00cf, 0x00ef); (0x00d0, 0x00f0); (0x00d1, 0x00f1);
   (0x00d2, 0x00f2); (0x00d3, 0x00f3); (0x00d4, 0x00f4); (0x00d5, 0x00f5);
   (0x00d6, 0x00f6); (0x00d8, 0x00f8); (0x00d9, 0x00f9); (0x00da, 0x00fa);
   (0x00db, 0x00fb); (0x00dc, 0x00fc); (0x00dd, 0x00fd); (0x00de, 0x00fe);
   (0x0100, 0x0101); (0x0102, 0x0103); (0x0104, 0x0105); (0x0106, 0x0107);
   (0x0108, 0x0109); (0x010a, 0x010b); (0x010c, 0x010d); (0x010e, 0x010f);
   (0x0110, 0x0111); (0x0112, 0x0113); (0x0114, 0x0115); (0x0116, 0x0117);
   (0x0118, 0x0119); (0x011a, 0x011b); (0x011c, 0x011d); (0x011e, 0x011f);
   (0x0120, 0x0121); (0x0122, 0x0123); (0x0124, 0x0125); (0x0126, 0x0127);
   (0x0128, 0x0129); (0x012a, 0x012b); (0x012c, 0x012d); (0x012e, 0x012f);
   (0x0130, 0x0069); (0x0132, 0x0133); (0x0134, 0x0135); (0x0136, 0x0137);
   (0x0139, 0x013a); (0x013b, 0x013c); (0x013d, 0x013e); (0x013f, 0x0140);
   (0x0141, 0x0142); (0x0143, 0x0144); (0x0145, 0x0146); (0x0147, 0x0148);
   (0x014a, 0x014b); (0x014c, 0x014d); (0x014e, 0x014f); (0x0150, 0x0151);
   (0x0152, 0x0153); (0x0154, 0x0155); (0x0156, 0x0157); (0x0158, 0x0159);
   (0x015a, 0x015b); (0x015c, 0x015d); (0x015e, 0x015f); (0x0160, 0x0161);
   (0x0162, 0x0163); (0x0164, 0x0165); (0x0166, 0x0167); (0x0168, 0x0169);
   (0x016a, 0x016b); (0x016c, 0x016d); (0x016e, 0x016f); (0x0170, 0x0171);
   (0x0172, 0x0173); (0x0174, 0x0175); (0x0176, 0x0177); (0x0178, 0x00ff);
   (0x0179, 0x017a); (0x017b, 0x017c); (0x017d, 0x017e); (0x1e9e, 0x00df);
   (0x212a, 0x006b); (0x212b, 0x00e5)]%N.

Definition CASED_BELOW_0180 : list (N * N) :=
  [(0x0041, 0x005a); (0x0061, 0x007a); (0x00b5, 0x00b5); (0x00c0, 0x00d6);
   (0x00d8, 0x00f6); (0x00f8, 0x0137); (0x0139, 0x017f)]%N.

Definition DECIMAL_DIGITS : list (N * N) :=
  [(0x0030, 0x0039); (0x0660, 0x0669); (0x06f0, 0x06f9); (0x07c0, 0x07c9);
   (0x0966, 0x096f); (0x09e6, 0x09ef); (0x0a66, 0x0a6f); (0x0ae6, 0x0aef);
   (0x0b66, 0x0b6f); (0x0be6, 0x0bef); (0x0c66, 0x0c6f); (0x0ce6, 0x0cef);
   (0x0d66, 0x0d6f); (0x0de6, 0x0def); (0x0e50, 0x0e59); (0x0ed0, 0x0ed9);
   (0x0f20, 0x0f29); (0x1040, 0x1049); (0x1090, 0x1099); (0x17e0, 0x17e9);
   (0x1810, 0x1819); (0x1946, 0x194f); (0x19d0, 0x19d9); (0x1a80, 0x1a89);
   (0x1a90, 0x1a99); (0x1b50, 0x1b59); (0x1bb0, 0x1bb9); (0x1c40, 0x1c49);
   (0x1c50, 0x1c59); (0xa620, 0xa629); (0xa8d0, 0xa8d9); (0xa900, 0xa909);
   (0xa9d0, 0xa9d9); (0xa9f0, 0xa9f9); (0xaa50, 0xaa59); (0xabf0, 0xabf9);
   (0xff10, 0xff19); (0x104a0, 0x104a9); (0x10d30, 0x10d39); (0x11066, 0x1106f);
   (0x110f0, 0x110f9); (0x11136, 0x1113f); (0x111d0, 0x111d9); (0x112f0, 0x112f9);
   (0x11450, 0x11459); (0x114d0, 0x114d9); (0x11650, 0x11659); (0x116c0, 0x116c9);
   (0x11730, 0x11739); (0x118e0, 0x118e9); (0x11950, 0x11959); (0x11c50, 0x11c59);
   (0x11d50, 0x11d59); (0x11da0, 0x11da9); (0x16a60, 0x16a69); (0x16ac0, 0x16ac9);
   (0x16b50, 0x16b59); (0x1d7ce, 0x1d7ff); (0x1e140, 0x1e149); (0x1e2f0, 0x1e2f9);
   (0x1e950, 0x1e959); (0x1fbf0, 0x1fbf9)]%N.

Definition WHITE_SPACE : list N :=
  [0x0009; 0x000a; 0x000b; 0x000c; 0x000d; 0x001c; 0x001d; 0x001e; 0x001f; 0x0020; 0x0085; 0x00a0; 0x1680; 0x2000; 0x2001; 0x2002; 0x2003; 0x2004; 0x2005; 0x2006; 0x2007; 0x2008; 0x2009; 0x200a; 0x2028; 0x2029; 0x202f; 0x205f; 0x3000]%N.

Definition in_ranges (ranges : list (N * N)) (x : N) : bool :=
  existsb (fun r => (N.leb (fst r) x && N.leb x (snd r))%bool) ranges.

Definition cpython_tolower (x : N) : N :=
  match find (fun p => N.eqb (fst p) x) LOWER_BELOW_0180 with
  | Some (_, y) => y
  | None => x
  end.

Definition cpython_tables : Unicode :=
  mkUnicode cpython_tolower (in_ranges CASED_BELOW_0180)
    (in_ranges DECIMAL_DIGITS) (fun x => existsb (N.eqb x) WHITE_SPACE).

(* ===================================================================== *)
(** ** Vocabulary of the properties *)
(* ===================================================================== *)

(** The events a computation adds to the trace when it starts in [w]. *)
Definition emitted {A} (m : M A) (w : world) : list event :=
  skipn (length (trace w)) (trace (snd (m w))).

(** The world after one more event. *)
Definition after (w : world) (e : event) : world :=
  mkWorld (trace w ++ [e])%list (files w).

(** The durations of the delays of a trace, in order. *)
Definition sleeps (evs : list event) : list nat :=
  flat_map (fun e => match e with Sleep n => [n] | _ => [] end) evs.

Definition is_sleep (e : event) : bool :=
  match e with Sleep _ => true | _ => false end.

Definition is_write (e : event) : bool :=
  match e with OpenWrite _ => true | _ => false end.

(** A request to record one attempt: URL, platform, success flag. *)
Definition request : Type := (string * string * bool)%type.

(** One [add_entry] call for each request, in order. *)
Fixpoint add_entries (E : Services) (self : DownloadHistory)
    (reqs : list request) : M DownloadHistory :=
  match reqs with
  | [] => ret self
  | (url, platform, success) :: rest =>
      self' <- add_entry E self url platform success None;;
      add_entries E self' rest
  end.

(** The request a history entry was made from. *)
Definition entry_request (entry : json) : option request :=
  match entry with
  | JDict d =>
      match dict_get "url" d, dict_get "platform" d, dict_get "success" d with
      | Some (JStr u), Some (JStr p), Some (JBool s) => Some (u, p, s)
      | _, _, _ => None
      end
  | _ => None
  end.

(** A stand-in collaborator set for examples: every directory can be
    made and every file opened, [urls.txt] holds the given lines, the
    history file parses to the given value, and every fetch succeeds. *)
Definition test_services (lines : list string) (stored : json) : Services :=
  mkServices "/home/user/Downloads"
    (fun _ _ => Ret tt)
    (fun _ _ _ => Ret tt)
    (fun _ p => if String.eqb p "urls.txt" then Ret lines
                else Raise (FileNotFoundError p))
    (fun _ _ => Ret tt)
    (fun _ _ _ => Ret tt)
    (fun _ _ _ => 0)
    (fun _ _ => Ret tt)
    (fun _ => Ret stored)
    (fun _ => "[]")
    (fun w => "2024-01-01T00:00:00")
    (fun _ _ _ => Ret (Some [("title", JStr "clip")]))
    (fun _ sc => Ret (mkPost sc None))
    (fun _ _ _ => Ret true)
    (fun _ => false)
    (fun s => s).

Definition test_services_undisturbed (lines : list string) (stored : json)
  : undisturbed (test_services lines stored) :=
  @mkUndisturbed (test_services lines stored)
    (fun _ _ => I)
    (fun _ _ _ => I)
    (fun _ p =>
       match String.eqb p "urls.txt" as b
         return tame (if b then Ret lines else Raise (FileNotFoundError p))
       with
       | true => I
       | false => eq_refl
       end)
    (fun _ _ => I)
    (fun _ _ _ => I)
    (fun _ _ _ => I)
    (fun _ _ => I)
    (fun _ _ _ => I)
    (fun _ _ => eq_refl).

Definition test_env (lines : list string) (stored : json) : Env :=
  @mkEnv (test_services lines stored) (test_services_undisturbed lines stored).

(** The same, with a fetch capability that raises [e] on every call, no
    file to read and a history that does not parse. *)
Definition failing_services (e : exn) : Services :=
  mkServices "/home/user/Downloads"
    (fun _ _ => Ret tt)
    (fun _ _ _ => Ret tt)
    (fun _ p => Raise (FileNotFoundError p))
    (fun _ _ => Ret tt)
    (fun _ _ _ => Ret tt)
    (fun _ _ _ => 0)
    (fun _ _ => Ret tt)
    (fun _ => Raise (ValueError "Expecting value"))
    (fun _ => "[]")
    (fun w => "2024-01-01T00:00:00")
    (fun _ _ _ => Raise e)
    (fun _ _ => Raise e)
    (fun _ _ _ => Raise e)
    (fun _ => false)
    (fun s => s).

(** [e] when it is an instance of [Exception], else a [RuntimeError]. *)
Definition as_exception (e : exn) : exn :=
  if is_exception e then e else OtherException "RuntimeError".

Definition as_exception_tame {A} (e : exn) : tame (@Raise A (as_exception e)) :=
  match e with
  | KeyboardInterrupt | SystemExit | OtherBaseException _ => eq_refl
  | _ => eq_refl
  end.

Definition failing_services_undisturbed (e : exn)
  : undisturbed (failing_services (as_exception e)) :=
  @mkUndisturbed (failing_services (as_exception e))
    (fun _ _ => I)
    (fun _ _ _ => I)
    (fun _ _ => eq_refl)
    (fun _ _ => I)
    (fun _ _ _ => I)
    (fun _ _ _ => as_exception_tame e)
    (fun _ _ => as_exception_tame e)
    (fun _ _ _ => as_exception_tame e)
    (fun _ _ => eq_refl).

(** The failing collaborators in a run that nothing interrupts: [e] is an
    instance of [Exception]. *)
Definition failing_env (e : exn) : Env :=
  @mkEnv (failing_services (as_exception e)) (failing_services_undisturbed e).

(** The collaborators [S] where the existence check answers with [stat]. *)
Definition with_stat (S : Services) (stat : world -> string -> result unit)
  : Services :=
  mkServices (DOWNLOAD_PATH S) (fs_mkdir S) (fs_open S) (fs_read_lines S)
    stat (fs_write S) (fs_written S) (time_sleep S) (json_load S)
    (json_dump S) (now_isoformat S) (ydl_extract_info S)
    (post_from_shortcode S) (download_post S) (bracketed_netloc_ok S)
    (unquote_escaped S).

(** The collaborators [S] with a download folder that may not be
    searched: examining a path inside it is refused. *)
Definition unsearchable_folder (S : Services) : Services :=
  with_stat S (fun _ p => Raise (PermissionError p)).

Definition empty_world : world := mkWorld [] (fun _ => None).

(** The world after the events [evs]; files are as before. *)
Definition extend (w : world) (evs : list event) : world :=
  mkWorld (trace w ++ evs)%list (files w).

(** [m] may raise an instance of [Exception]; whatever it does, it only
    adds events that satisfy [P] to the trace and leaves the files alone. *)
Definition only {A} (P : event -> Prop) (m : M A) : Prop :=
  forall w, exists (r : result A) (evs : list event),
    m w = (r, extend w evs) /\ Forall P evs /\ tame r.

(** [m] returns a value (it does not raise), only adds events that
    satisfy [P] and leaves the files alone. *)
Definition performs {A} (P : event -> Prop) (m : M A) : Prop :=
  forall w, exists (a : A) (evs : list event),
    m w = (Ret a, extend w evs) /\ Forall P evs.

(** The events of one attempt with the generic strategy: messages, the
    platform folder, and the call of yt-dlp with the options that
    [get_ydl_options] builds for this platform and quality. *)
Definition ytdlp_event (E : Services) (url platform : string)
    (quality : option string) (e : event) : Prop :=
  match e with
  | Print _ _ | Log _ | Mkdir _ => True
  | YdlExtractInfo u options =>
      u = url
      /\ options
         = get_ydl_options E platform quality
             (Some (path_join (DOWNLOAD_PATH E) (Str.capitalize platform)))
  | _ => False
  end.

(** The events of one attempt with the Instagram strategy. *)
Definition instagram_event (e : event) : Prop :=
  match e with
  | Print _ _ | Log _ | Mkdir _ | PostFromShortcode _ | DownloadPost _ _ =>
      True
  | _ => False
  end.

(** The events of the attempt the batch makes for [url] on platform [p]. *)
Definition fetch_event (E : Services) (url p : string) (e : event) : Prop :=
  if String.eqb p "instagram" then instagram_event e
  else ytdlp_event E url p None e.

(** The platform the batch settles on for [url]. *)
Definition resolve_platform (platform : option string) (url : string)
  : option string :=
  if truthy_str platform then platform else detect_platform url.

(** The URLs of a batch that get as far as a fetch: valid, and with a
    platform given or detected. *)
Definition reaches_fetch (platform : option string) (url : string) : bool :=
  is_valid_url url && truthy_str (resolve_platform platform url).

(** The messages of the batch loop. *)
Definition ev_header (i total : nat) : event :=
  Print Header [Txt "Processing URL "; Num i; Txt "/"; Num total].
Definition ev_invalid (url : string) : event :=
  Print Error [Txt "Invalid URL: "; Txt url].
Definition ev_no_platform (url : string) : event :=
  Print Error [Txt "Could not detect platform for: "; Txt url].
Definition ev_url (url : string) : event := Print Info [Txt "URL: "; Txt url].
Definition ev_platform (p : string) : event :=
  Print Info [Txt "Platform: "; Txt p].
Definition ev_waiting : event :=
  Print Info [Txt "Waiting "; Num Config.REQUEST_DELAY;
              Txt " seconds before next download..."].
Definition ev_found (n : nat) : event :=
  Print Info [Txt "Found "; Num n; Txt " URLs in file"].
Definition ev_completed (ok n : nat) : event :=
  Print Success [Txt "Batch download completed: "; Num ok; Txt "/"; Num n;
                 Txt " successful"].

(** The pause after a fetch: present unless the URL is the last one. *)
Definition pause (i total : nat) : list event :=
  if i <? total then [ev_waiting; Sleep Config.REQUEST_DELAY] else [].

(** What a batch may do: print and log, make platform folders, read its
    input file, pause for [REQUEST_DELAY], call instaloader, and call
    yt-dlp with the options built for no quality argument.  It never opens
    a file for writing. *)
Definition batch_event (E : Services) (e : event) : Prop :=
  match e with
  | Print _ _ | Log _ | Mkdir _ | OpenRead _
  | PostFromShortcode _ | DownloadPost _ _ => True
  | Sleep n => n = Config.REQUEST_DELAY
  | YdlExtractInfo _ options =>
      exists p : string,
        options
        = get_ydl_options E p None
            (Some (path_join (DOWNLOAD_PATH E) (Str.capitalize p)))
  | OpenWrite _ => False
  end.

(** The events of the batch for the [i]-th URL of [total]: a header,
    then either one error message (the URL is skipped) or two messages, the
    events [fetch] of one attempt, and the pause. *)
Definition segment (E : Services) (platform : option string) (total i : nat)
    (url : string) (seg : list event) : Prop :=
  if negb (is_valid_url url) then seg = [ev_header i total; ev_invalid url]
  else
    match resolve_platform platform url with
    | Some p =>
        if Str.is_empty p then seg = [ev_header i total; ev_no_platform url]
        else
          exists fetch : list event,
            Forall (fetch_event E url p) fetch
            /\ seg = ([ev_header i total; ev_url url; ev_platform p]
                      ++ fetch ++ pause i total)%list
    | None => seg = [ev_header i total; ev_no_platform url]
    end.

(** [evs] is made of one segment for each URL, in order, the first URL
    being number [i]. *)
Fixpoint segmented (E : Services) (platform : option string) (total i : nat)
    (urls : list string) (evs : list event) : Prop :=
  match urls with
  | [] => evs = []
  | url :: rest =>
      exists seg evs' : list event,
        evs = (seg ++ evs')%list
        /\ segment E platform total i url seg
        /\ segmented E platform total (S i) rest evs'
  end.

(** The [format] option of each call of yt-dlp in a trace, in order. *)
Definition formats (evs : list event) : list (option json) :=
  flat_map (fun e => match e with
                     | YdlExtractInfo _ options => [dict_get "format" options]
                     | _ => []
                     end) evs.

(** The number of history entries a value holds. *)
Definition entries (h : json) : nat :=
  match h with JList l => length l | _ => 0 end.

(** Sample URLs: one that is not a URL, a YouTube video, a valid URL of
    no known platform, and a TikTok video. *)
Definition url_invalid : string := "not a url".
Definition url_youtube : string :=
  "https://www.youtube.com/watch?v=dQw4w9WgXcQ".
Definition url_unknown : string := "https://example.org/clip.mp4".
Definition url_tiktok : string := "https://www.tiktok.com/@user/video/7301".

Definition history_path : string :=
  "/home/user/Downloads/download_history.json".

(** An application object with an empty history and the given quality. *)
Definition app_with (q : string) : MediaDownloaderApp :=
  mkApp (mkDownloadHistory history_path (JList []))
    (mkQualityManager q (quality_map QualityManager_init)) true.

(** [s] begins with the scheme prefix [http://] or [https://], in any
    letter case. *)
Definition has_http_scheme (s : string) : bool :=
  Str.starts_with "http://" (Str.lower s)
  || Str.starts_with "https://" (Str.lower s).

(** The host part of a URL: the network location found by [urlparse]. *)
Definition host_of (url : string) : option string :=
  match Urllib.urlparse (fun _ => true) url with
  | Ret parsed => Some (Urllib.netloc parsed)
  | Raise _ => None
  end.

(** The substrings that the patterns of [domain_patterns] look for. *)
Definition domain_needles : list (string * list string) :=
  [("youtube", ["youtube.com"; "youtu.be"]);
   ("instagram", ["instagram.com"]);
   ("tiktok", ["tiktok.com"]);
   ("twitter", ["twitter.com"; "x.com"]);
   ("facebook", ["facebook.com"]);
   ("reddit", ["reddit.com"]);
   ("twitch", ["twitch.tv"])].

(** The first platform of the table one of whose substrings occurs
    anywhere in [text]. *)
Fixpoint first_containing (table : list (string * list string))
    (text : string) : option string :=
  match table with
  | [] => None
  | (platform, needles) :: rest =>
      if existsb (fun needle => Str.contains needle text) needles
      then Some platform
      else first_containing rest text
  end.

(** Detection by plain substring search over the whole lower-cased URL. *)
Definition detect_by_substring (url : string) : option string :=
  first_containing domain_needles (Str.lower url).

(** One canonical URL for each platform of the table. *)
Definition canonical_urls : list (string * string) :=
  [("youtube", "https://www.youtube.com/watch?v=dQw4w9WgXcQ");
   ("instagram", "https://www.instagram.com/p/CxYz_12-ab/");
   ("tiktok", "https://www.tiktok.com/@user/video/7301");
   ("twitter", "https://twitter.com/user/status/1700");
   ("facebook", "https://www.facebook.com/watch/?v=1700");
   ("reddit", "https://www.reddit.com/r/videos/comments/abc/");
   ("twitch", "https://www.twitch.tv/videos/1700")].

(** None of the substrings of the table occurs in [text]. *)
Definition no_needle (text : string) : bool :=
  forallb (fun entry : string * list string =>
             forallb (fun needle => negb (Str.contains needle text))
               (snd entry))
    domain_needles.

(** A character of a native id: the class [[A-Za-z0-9_-]]. *)
Definition id_char (c : ascii) : bool :=
  set_match false
    [CRange "A" "Z"; CRange "a" "z"; CRange "0" "9"; CChar "_"; CChar "-"] c.

(** A well-formed id: one or more id characters. *)
Definition well_formed_id (s : string) : bool :=
  negb (Str.is_empty s) && Str.forallb id_char s.

(** A well-formed numeric id: one or more digits. *)
Definition numeric_id (s : string) : bool :=
  negb (Str.is_empty s) && Str.forallb Str.isdigit s.

(** The canonical URL of each handled platform for a given id. *)
Definition youtube_short_url (vid : string) : string :=
  "https://youtu.be/" ++ vid.
Definition youtube_watch_url (vid : string) : string :=
  "https://www.youtube.com/watch?v=" ++ vid.
Definition instagram_post_url (vid : string) : string :=
  "https://www.instagram.com/p/" ++ vid.
Definition tiktok_video_url (vid : string) : string :=
  "https://www.tiktok.com/@user/video/" ++ vid.
Definition twitter_status_url (vid : string) : string :=
  "https://twitter.com/user/status/" ++ vid.

(** The characters other than [c]. *)
Definition other (c : ascii) : ascii -> bool :=
  fun x => negb (Ascii.eqb x c).

(** The format that [get_ydl_options] fixes for YouTube. *)
Definition youtube_format : string :=
  "bestvideo[height<=1080]+bestaudio/best[height<=1080]".

(** The calls of yt-dlp in a trace. *)
Definition is_ydl_call (e : event) : bool :=
  match e with YdlExtractInfo _ _ => true | _ => false end.

(** The calls of instaloader in a trace. *)
Definition is_instaloader_call (e : event) : bool :=
  match e with PostFromShortcode _ | DownloadPost _ _ => true | _ => false end.

(** The events of the Instagram strategy for [url]: besides messages
    and the platform folder, calls of instaloader for the shortcode that
    [extract_video_id] finds in [url]. *)
Definition instagram_call_event (E : Services) (url : string) (e : event) : Prop :=
  match e with
  | Print _ _ | Log _ | Mkdir _ => True
  | PostFromShortcode sc | DownloadPost sc _ =>
      extract_video_id_body E url "instagram" = Ret (Some sc)
      /\ well_formed_id sc = true
  | _ => False
  end.

(** One [set_quality] call for each menu choice, in order. *)
Fixpoint set_qualities (self : QualityManager) (choices : list Z)
  : M QualityManager :=
  match choices with
  | [] => ret self
  | choice :: rest =>
      self' <- set_quality self choice;;
      set_qualities self' rest
  end.

(** The qualities of the quality menu. *)
Definition menu_qualities : list string :=
  ["best"; "1080p"; "720p"; "480p"; "360p"; "worst"].

(** The platform that a single download settles on: the detected one, or
    ["other"] when none is detected, for choice 1; the platform of the menu
    line otherwise. *)
Definition single_platform (platform_choice : Z) (url : string) : string :=
  if (platform_choice =? 1)%Z then
    match detect_platform url with
    | Some p => if Str.is_empty p then "other" else p
    | None => "other"
    end
  else
    match map_get platform_choice platform_map with
    | Some p => p
    | None => "other"
    end.

(** The line that [show_history] prints for an entry made by
    [add_entry]: the URL is cut to its first 50 characters. *)
Definition history_line (timestamp url platform : string) (success : bool)
  : event :=
  Print (if success then Success else Error)
    [Txt (if success then "Success" else "Failed"); Txt " ";
     Val (JStr timestamp); Txt " - "; Val (JStr platform); Txt ": ";
     Val (JStr (Str.take 50 url)); Txt "..."].

(** The data of a history entry. *)
Record attempt : Type := mkAttempt {
  at_time : string;
  at_url : string;
  at_platform : string;
  at_success : bool;
  at_filename : option string
}.

Definition entry_of (a : attempt) : json :=
  make_entry (at_time a) (at_url a) (at_platform a) (at_success a)
    (at_filename a).

Definition line_of (a : attempt) : event :=
  history_line (at_time a) (at_url a) (at_platform a) (at_success a).

(** What a batch may do when the platform menu has fixed the platform [p]:
    it calls instaloader only for [p = "instagram"], and yt-dlp only for
    another [p], then with the options built for [p]. *)
Definition chosen_strategy_event (E : Env) (p : string) (e : event) : Prop :=
  match e with
  | YdlExtractInfo _ options =>
      p <> "instagram"
      /\ options
         = get_ydl_options E p None
             (Some (path_join (DOWNLOAD_PATH E) (Str.capitalize p)))
  | PostFromShortcode _ | DownloadPost _ _ => p = "instagram"
  | _ => True
  end.

(** Every character that the pattern [r] can consume satisfies [P]. *)
Fixpoint consumes_only (icase : bool) (P : ascii -> bool) (r : regex)
  : Prop :=
  match r with
  | Chr c => forall x, chr_eq icase c x = true -> P x = true
  | Set_ items => forall x, set_match icase items x = true -> P x = true
  | Seq a b | Alt a b => consumes_only icase P a /\ consumes_only icase P b
  | Rep a _ _ | Grp _ a => consumes_only icase P a
  | Eps | Bol | Eol => True
  end.

(** The pattern [r] is a sequence that ends with [$]. *)
Fixpoint ends_with_eol (r : regex) : bool :=
  match r with
  | Seq _ b => ends_with_eol b
  | Eol => true
  | _ => false
  end.

Definition not_space (c : ascii) : bool := negb (Str.isspace c).

(** [s] is free of white space, but for one line feed that may end it. *)
Definition no_space_but_final_newline (s : string) : Prop :=
  exists body : string,
    (s = body \/ s = body ++ String "010" EmptyString)
    /\ Str.forallb not_space body = true.

(** The collaborators [S] where writing to a file answers with [write],
    after [written] characters. *)
Definition with_write (S : Services)
    (write : world -> string -> string -> result unit)
    (written : world -> string -> string -> nat) : Services :=
  mkServices (DOWNLOAD_PATH S) (fs_mkdir S) (fs_open S) (fs_read_lines S)
    (fs_stat S) write written (time_sleep S) (json_load S)
    (json_dump S) (now_isoformat S) (ydl_extract_info S)
    (post_from_shortcode S) (download_post S) (bracketed_netloc_ok S)
    (unquote_escaped S).

(** The collaborators [S] with a disk that is full after one more
    character. *)
Definition full_disk (S : Services) : Services :=
  with_write S (fun _ _ _ => Raise (OtherException "OSError")) (fun _ _ _ => 1).

(** The messages of a single download before its attempt. *)
Definition single_prelude (platform_choice : Z) (url quality : string)
  : list event :=
  ([Print Plain [Txt "Select Platform:"]]
   ++ (if (platform_choice =? 1)%Z
          && negb (truthy_str (detect_platform url))
       then [Print Error [Txt "Could not detect platform. Using yt-dlp..."]]
       else [])
   ++ [Print Info [Txt "Platform: ";
                   Txt (single_platform platform_choice url)];
       Print Info [Txt "Quality: "; Txt quality]])%list.

(** The attempt of a single download on platform [p] with quality [q]. *)
Definition single_fetch (E : Services) (url p q : string) : M bool :=
  if String.eqb p "instagram" then download_instagram E url
  else download_with_ytdlp E url p (Some q).

(** The last message of a single download. *)
Definition single_verdict (success : bool) : event :=
  if success then Print Success [Txt "Download completed successfully!"]
  else Print Error [Txt "Download failed. Check the error messages above."].

(** The code point [x] is the ASCII letter [c] in either case. *)
Definition either_case (c : ascii) (x : N) : bool :=
  (N.eqb x (point c) || N.eqb x (point (Str.upper_ascii c)))%bool.

(** [s] begins with the code points of [p]. *)
Fixpoint begins_with (p : string) (s : ustring) : bool :=
  match p, s with
  | EmptyString, _ => true
  | String c p', x :: s' => (N.eqb x (point c) && begins_with p' s')%bool
  | String _ _, [] => false
  end.

(** U+017F LATIN SMALL LETTER LONG S *)
Definition LONG_S : N := 0x17f%N.

(** [s] begins with the scheme prefix [http://] or [https://], its
    letters in either case; with [long_s], the long s is also taken for
    the s of [https]. *)
Definition scheme_prefix (long_s : bool) (s : ustring) : bool :=
  match s with
  | h :: t1 :: t2 :: p :: rest =>
      (either_case "h" h && either_case "t" t1 && either_case "t" t2
       && either_case "p" p
       && (begins_with "://" rest
           || match rest with
              | c :: rest' =>
                  (either_case "s" c || (long_s && N.eqb c LONG_S))
                  && begins_with "://" rest'
              | [] => false
              end))%bool
  | _ => false
  end.

(** What the Unicode database says of the characters of the scheme: the
    letters h, t, p and s are their own lower case, and the lower case of
    nothing else but of their capitals; the long s is the lower case of
    nothing but itself; the colon and the slash are not cased. *)
Definition scheme_tables (U : Unicode) : Prop :=
  (forall c : N, In c [0x68; 0x74; 0x70; 0x73]%N -> unicode_tolower U c = c)
  /\ (forall c x : N,
         In c [0x68; 0x74; 0x70; 0x73]%N ->
         unicode_tolower U x = c -> x = c \/ x = (c - 32)%N)
  /\ (forall x : N, unicode_tolower U x = LONG_S -> x = LONG_S)
  /\ unicode_iscased U 0x3a%N = false
  /\ unicode_iscased U 0x2f%N = false.

(** A URL with a long s in its scheme. *)
Definition url_long_s : ustring :=
  (points "http" ++ [LONG_S] ++ points "://example.com")%list.

(** On subjects of code points below 256, the items of the pattern [r]
    match as they do on code points with the tables [U]. *)
Fixpoint same_items (U : Unicode) (icase : bool) (r : regex) : Prop :=
  match r with
  | Chr c =>
      forall x : ascii, chr_eq icase c x = uchr_match U icase (point c) (point x)
  | Set_ items =>
      forall x : ascii,
        set_match icase items x = uset_match U icase items (point x)
  | Seq a b | Alt a b => same_items U icase a /\ same_items U icase b
  | Rep a _ _ | Grp _ a => same_items U icase a
  | Eps | Bol | Eol => True
  end.

(* ===================================================================== *)
(** * Properties *)
(* ===================================================================== *)

Unset Implicit Arguments.

(** ** Characters and strings *)

Ltac each_char c :=
  destruct c as [[] [] [] [] [] [] [] []]; vm_compute; try reflexivity;
  try discriminate; auto.

Lemma lower_char_idem (c : ascii) :
  Str.lower_char (Str.lower_char c) = Str.lower_char c.
Proof. each_char c. Qed.

Lemma lower_idem (s : string) : Str.lower (Str.lower s) = Str.lower s.
Proof.
  induction s as [|c s IH]; simpl; [reflexivity|].
  now rewrite lower_char_idem, IH.
Qed.

(** C10. [detect_platform] gives the same answer on a URL and on its
    lower-cased form: the whole string is lower-cased before the table is
    consulted, whatever the case of the host or of any other part. *)
Theorem detect_platform_case_insensitive (url : string) :
  detect_platform url = detect_platform (Str.lower url).
Proof.
  unfold detect_platform. now rewrite lower_idem.
Qed.

(** ** The history cap *)

Section HistoryFacts.

Variable E : Env.

Lemma last_n_short {A} (n : nat) (l : list A) :
  length l <= n -> last_n n l = l.
Proof.
  intros H. unfold last_n.
  replace (length l - n) with 0 by lia. reflexivity.
Qed.

Lemma last_n_length {A} (n : nat) (l : list A) :
  length (last_n n l) = Nat.min n (length l).
Proof. unfold last_n. rewrite length_skipn. lia. Qed.

Lemma append_capped_last_n (l : list json) (e : json) :
  append_capped l e = last_n 100 (l ++ [e]).
Proof.
  unfold append_capped.
  destruct (Nat.ltb_spec 100 (length (l ++ [e]))) as [H|H]; [reflexivity|].
  symmetry. now apply last_n_short.
Qed.

Lemma append_capped_length (l : list json) (e : json) :
  length (append_capped l e) = Nat.min 100 (S (length l)).
Proof.
  rewrite append_capped_last_n, last_n_length, length_app.
  cbn [length]. lia.
Qed.

Lemma append_capped_full (l : list json) (e : json) :
  length l = 100 -> append_capped l e = (tl l ++ [e])%list.
Proof.
  intros H. rewrite append_capped_last_n. unfold last_n.
  rewrite length_app, H. simpl length.
  destruct l as [|x l]; [discriminate|]. reflexivity.
Qed.

Lemma last_n_app_last_n {A} (n : nat) (l l' : list A) :
  last_n n (last_n n l ++ l') = last_n n (l ++ l').
Proof.
  unfold last_n. rewrite !length_app, length_skipn, !skipn_app, skipn_skipn.
  rewrite length_skipn. f_equal; f_equal; lia.
Qed.

(** Appending the entries [es] one after the other. *)
Lemma fold_append_capped (es l : list json) :
  es <> [] ->
  fold_left append_capped es l = last_n 100 (l ++ es).
Proof.
  revert l. induction es as [|e es IH]; intros l Hne; [congruence|].
  simpl. destruct es as [|e' es].
  - simpl. apply append_capped_last_n.
  - rewrite IH by discriminate.
    rewrite append_capped_last_n, last_n_app_last_n.
    now rewrite <- app_assoc.
Qed.

End HistoryFacts.

Section HistoryStore.

Variable E : Env.

Lemma save_history_returns (self : DownloadHistory) (w : world) :
  exists w', save_history E self w = (Ret tt, w').
Proof.
  unfold save_history, try_except, bind, call, write_file, logger_error, emit.
  match goal with
  | |- context [fs_open ?S ?w1 ?p ?m] =>
      pose proof (open_tame (services_undisturbed E) w1 p m) as Ho;
      destruct (fs_open S w1 p m) as [[]|e]
  end.
  - cbv beta iota.
    match goal with
    | |- context [fs_write ?S ?w1 ?p ?c] =>
        pose proof (write_tame (services_undisturbed E) w1 p c) as Hw;
        destruct (fs_write S w1 p c) as [[]|e]
    end; [eauto|].
    cbn [tame] in Hw. rewrite Hw. eauto.
  - cbn [tame] in Ho. rewrite Ho. eauto.
Qed.

Lemma add_entry_list (f : string) (l : list json) (url platform : string)
    (success : bool) (filename : option string) (w : world) :
  exists w',
    add_entry E (mkDownloadHistory f (JList l)) url platform success filename w
    = (Ret (mkDownloadHistory f
              (JList (append_capped l
                        (make_entry (now_isoformat E w) url platform
                           success filename)))), w').
Proof.
  unfold add_entry, bind. cbn [history history_file].
  match goal with
  | |- context [save_history _ ?s w] =>
      destruct (save_history_returns s w) as [w' ->]
  end.
  exists w'. reflexivity.
Qed.

Lemma add_entries_fold (f : string) (reqs : list request) :
  forall (l : list json) (w : world),
  exists es w',
    add_entries E (mkDownloadHistory f (JList l)) reqs w
    = (Ret (mkDownloadHistory f (JList (fold_left append_capped es l))), w')
    /\ map entry_request es = map Some reqs.
Proof.
  induction reqs as [|[[u p] s] reqs IH]; intros l w.
  - exists [], w. split; reflexivity.
  - cbn [add_entries]. unfold bind.
    destruct (add_entry_list f l u p s None w) as [w1 ->].
    destruct (IH (append_capped l (make_entry (now_isoformat E w) u p s None))
                w1) as (es & w' & Hrun & Hmap).
    exists (make_entry (now_isoformat E w) u p s None :: es), w'.
    split; [exact Hrun|]. cbn [map]. now rewrite Hmap.
Qed.

End HistoryStore.

(** C5. After any [add_entry] the in-memory history holds at most 100
    entries: the new entry is put last; below the cap nothing is dropped,
    and on a full history of 100 the oldest entry is dropped from the front
    and the others keep their order.  Starting from an empty history, 101
    calls leave exactly 100 entries: those of the last 100 calls, in call
    order. *)
Theorem add_entry_keeps_last_100 (E : Env) (f : string) :
  (forall (l : list json) (url platform : string) (success : bool)
          (filename : option string) (w : world),
      exists (l' : list json) (w' : world),
        add_entry E (mkDownloadHistory f (JList l)) url platform success
          filename w
        = (Ret (mkDownloadHistory f (JList l')), w')
        /\ length l' <= 100
        /\ (let entry :=
              make_entry (now_isoformat E w) url platform success filename in
            l' = last_n 100 (l ++ [entry])
            /\ (length l < 100 -> l' = (l ++ [entry])%list)
            /\ (length l = 100 -> l' = (tl l ++ [entry])%list)))
  /\ (forall (reqs : list request) (w : world),
         length reqs = 101 ->
         exists (l' : list json) (w' : world),
           add_entries E (mkDownloadHistory f (JList [])) reqs w
           = (Ret (mkDownloadHistory f (JList l')), w')
           /\ length l' = 100
           /\ map entry_request l' = map Some (tl reqs)).
Proof.
  split.
  - intros l url platform success filename w.
    destruct (add_entry_list E f l url platform success filename w)
      as [w' Hrun].
    eexists _, w'. split; [exact Hrun|].
    split; [rewrite append_capped_length; lia|].
    cbv zeta. split; [apply append_capped_last_n|]. split; intros Hlen.
    + rewrite append_capped_last_n. apply last_n_short.
      rewrite length_app. cbn [length]. lia.
    + now apply append_capped_full.
  - intros reqs w Hlen.
    destruct (add_entries_fold E f reqs [] w) as (es & w' & Hrun & Hmap).
    assert (Hes : length es = 101).
    { rewrite <- Hlen, <- (length_map entry_request es), Hmap.
      apply length_map. }
    exists (tl es), w'.
    assert (Hfold : fold_left append_capped es [] = tl es).
    { rewrite fold_append_capped by (destruct es; [discriminate|congruence]).
      unfold last_n. cbn [app]. rewrite Hes.
      destruct es; [discriminate|reflexivity]. }
    rewrite Hfold in Hrun. split; [exact Hrun|]. split.
    + destruct es; [discriminate|]. cbn [tl length] in *. lia.
    + rewrite <- !tl_map. now rewrite Hmap.
Qed.

Lemma add_entry_keeps_last_100_witness :
  let reqs := map (fun n => ("https://youtu.be/abc", "youtube", Nat.even n))
                (seq 0 101) in
  length reqs = 101
  /\ exists (l' : list json) (w' : world),
       add_entries (test_env [] JNull)
         (mkDownloadHistory "download_history.json" (JList [])) reqs
         empty_world
       = (Ret (mkDownloadHistory "download_history.json" (JList l')), w')
       /\ length l' = 100
       /\ map entry_request l' = map Some (tl reqs).
Proof.
  cbv zeta. split; [reflexivity|].
  apply (proj2 (add_entry_keeps_last_100 (test_env [] JNull)
                  "download_history.json")).
  reflexivity.
Defined.

(** ** Loading the history *)

Lemma load_history_cases (E : Services) (p : string) (w : world) :
  load_history E p w
  = match fs_stat E w p with
    | Raise e => (Raise e, w)
    | Ret _ =>
        match files w p with
        | None => (Ret (JList []), w)
        | Some content =>
            (Ret (match fs_open E (after w (OpenRead p)) p false with
                  | Ret _ =>
                      match json_load E content with
                      | Ret j => j
                      | Raise _ => JList []
                      end
                  | Raise _ => JList []
                  end),
             after w (OpenRead p))
        end
    end.
Proof.
  unfold load_history, bind, path_exists, try_except_all, call, read_file,
    lift, ret, after.
  destruct (fs_stat E w p) as [[]|e]; [|reflexivity].
  destruct (files w p) as [content|] eqn:Hf; cbn [is_some]; [|reflexivity].
  destruct (fs_open E _ p false); [|reflexivity].
  cbn [files]. rewrite Hf. destruct (json_load E content); reflexivity.
Qed.

(** C7 (not met by the code). Loading the history returns the parsed
    value when the file exists, opens and parses, and the empty list when
    the file is missing, cannot be opened or does not parse, whatever is
    raised on the way (the handler is a bare [except]); but all this comes
    after the existence check [Path.exists()], which stands outside the
    [try]: when that check raises, [load_history] raises the same exception
    and so does the construction of the store.  With a download folder that
    may not be searched, the check raises [PermissionError] and
    [DownloadHistory()] fails. *)
Theorem load_history_fails_with_exists (E : Services) (w : world) :
  let f := path_join (DOWNLOAD_PATH E) "download_history.json" in
  (forall p : string,
      fs_stat E w p = Ret tt ->
      (files w p = None -> load_history E p w = (Ret (JList []), w))
      /\ (forall content : string,
             files w p = Some content ->
             load_history E p w
             = (Ret (match fs_open E (after w (OpenRead p)) p false with
                     | Ret _ =>
                         match json_load E content with
                         | Ret j => j
                         | Raise _ => JList []
                         end
                     | Raise _ => JList []
                     end),
                after w (OpenRead p))))
  /\ (forall (p : string) (e : exn),
         fs_stat E w p = Raise e -> load_history E p w = (Raise e, w))
  /\ (fs_stat E w f = Ret tt ->
      exists (j : json) (w' : world),
        load_history E f w = (Ret j, w')
        /\ DownloadHistory_init E w = (Ret (mkDownloadHistory f j), w'))
  /\ (forall e : exn,
         fs_stat E w f = Raise e -> DownloadHistory_init E w = (Raise e, w))
  /\ DownloadHistory_init (unsearchable_folder (test_services [] (JList [])))
       empty_world
     = (Raise (PermissionError history_path), empty_world).
Proof.
  cbv zeta. split; [|split; [|split; [|split]]].
  - intros p Hs. split.
    + intros Hf. now rewrite load_history_cases, Hs, Hf.
    + intros content Hf. now rewrite load_history_cases, Hs, Hf.
  - intros p e Hs. now rewrite load_history_cases, Hs.
  - intros Hs. unfold DownloadHistory_init, bind, ret.
    rewrite load_history_cases, Hs.
    destruct (files w _); eauto.
  - intros e Hs. unfold DownloadHistory_init, bind.
    now rewrite load_history_cases, Hs.
  - vm_compute. reflexivity.
Qed.

Lemma load_history_fails_with_exists_witness :
  let stored := JList [make_entry "2024-01-01T00:00:00" "https://youtu.be/abc"
                         "youtube" true None] in
  let w := mkWorld [] (fun q => if String.eqb q "h.json" then Some "[...]"
                                else None) in
  load_history (test_services [] stored) "h.json" w
  = (Ret stored, after w (OpenRead "h.json"))
  /\ load_history (test_services [] stored) "other.json" w
     = (Ret (JList []), w)
  /\ load_history (failing_services KeyboardInterrupt) "h.json" w
     = (Ret (JList []), after w (OpenRead "h.json"))
  /\ load_history (unsearchable_folder (test_services [] stored)) "h.json" w
     = (Raise (PermissionError "h.json"), w).
Proof.
  cbv zeta. split; [|split; [|split]].
  - apply (proj2 (proj1 (load_history_fails_with_exists
                           (test_services [] _) _) "h.json" eq_refl)
             "[...]").
    reflexivity.
  - apply (proj1 (proj1 (load_history_fails_with_exists
                           (test_services [] _) _) "other.json" eq_refl)).
    reflexivity.
  - apply (proj2 (proj1 (load_history_fails_with_exists
                           (failing_services KeyboardInterrupt) _)
                    "h.json" eq_refl) "[...]").
    reflexivity.
  - apply (proj1 (proj2 (load_history_fails_with_exists
                           (unsearchable_folder (test_services [] _)) _))).
    reflexivity.
Defined.

(** ** Reasoning about effects *)

Lemma extend_nil (w : world) : extend w [] = w.
Proof. destruct w. unfold extend. cbn. now rewrite app_nil_r. Qed.

Lemma extend_extend (w : world) (a b : list event) :
  extend (extend w a) b = extend w (a ++ b).
Proof. unfold extend. cbn. now rewrite app_assoc. Qed.

Lemma after_extend (w : world) (e : event) : after w e = extend w [e].
Proof. reflexivity. Qed.

Lemma emit_run (e : event) (w : world) : emit e w = (Ret tt, extend w [e]).
Proof. reflexivity. Qed.

Lemma bind_ret_run {A B} {m : M A} (f : A -> M B) {w w1 : world} {a : A} :
  m w = (Ret a, w1) -> bind m f w = f a w1.
Proof. intros H. unfold bind. now rewrite H. Qed.

Lemma bind_raise_run {A B} {m : M A} (f : A -> M B) {w w1 : world}
    {e : exn} :
  m w = (Raise e, w1) -> bind m f w = (Raise e, w1).
Proof. intros H. unfold bind. now rewrite H. Qed.

Section Effects.

Variable P : event -> Prop.

Lemma performs_only {A} (m : M A) : performs P m -> only P m.
Proof.
  intros H w. destruct (H w) as (a & evs & Hrun & HP).
  exists (Ret a), evs. repeat split; assumption.
Qed.

Lemma performs_ret {A} (a : A) : performs P (ret a).
Proof.
  intros w. exists a, []. rewrite extend_nil. split; [reflexivity|constructor].
Qed.

Lemma only_raise {A} (e : exn) : is_exception e = true -> only P (@raise A e).
Proof.
  intros He w. exists (Raise e), []. rewrite extend_nil.
  split; [reflexivity|]. split; [constructor|exact He].
Qed.

Lemma only_lift {A} (r : result A) : tame r -> only P (lift r).
Proof.
  intros Hr w. exists r, []. rewrite extend_nil.
  split; [reflexivity|]. split; [constructor|exact Hr].
Qed.

Lemma performs_emit (e : event) : P e -> performs P (emit e).
Proof.
  intros He w. exists tt, [e]. split; [reflexivity|]. now constructor.
Qed.

Lemma only_call {A} (e : event) (f : world -> result A) :
  (forall w, tame (f w)) -> P e -> only P (call e f).
Proof.
  intros Hf He w. exists (f (extend w [e])), [e]. split; [reflexivity|].
  split; [now constructor|apply Hf].
Qed.

Lemma only_bind {A B} (m : M A) (f : A -> M B) :
  only P m -> (forall a, only P (f a)) -> only P (bind m f).
Proof.
  intros Hm Hf w. destruct (Hm w) as (r & evs & Hrun & HP & Ht).
  destruct r as [a|e].
  - destruct (Hf a (extend w evs)) as (r' & evs' & Hrun' & HP' & Ht').
    exists r', (evs ++ evs')%list. rewrite (bind_ret_run f Hrun), Hrun'.
    rewrite extend_extend. split; [reflexivity|].
    split; [now apply Forall_app|exact Ht'].
  - exists (Raise e), evs. rewrite (bind_raise_run f Hrun).
    split; [reflexivity|]. split; [exact HP|exact Ht].
Qed.

Lemma performs_bind {A B} (m : M A) (f : A -> M B) :
  performs P m -> (forall a, performs P (f a)) -> performs P (bind m f).
Proof.
  intros Hm Hf w. destruct (Hm w) as (a & evs & Hrun & HP).
  destruct (Hf a (extend w evs)) as (b & evs' & Hrun' & HP').
  exists b, (evs ++ evs')%list. rewrite (bind_ret_run f Hrun), Hrun'.
  rewrite extend_extend. split; [reflexivity|]. now apply Forall_app.
Qed.

Lemma performs_try {A} (m : M A) (h : exn -> M A) :
  only P m -> (forall e, performs P (h e)) -> performs P (try_except m h).
Proof.
  intros Hm Hh w. destruct (Hm w) as (r & evs & Hrun & HP & Ht).
  unfold try_except. rewrite Hrun. destruct r as [a|e].
  - eauto.
  - cbn [tame] in Ht. rewrite Ht.
    destruct (Hh e (extend w evs)) as (a & evs' & Hrun' & HP').
    exists a, (evs ++ evs')%list. rewrite Hrun', extend_extend.
    split; [reflexivity|]. now apply Forall_app.
Qed.

End Effects.

Lemma performs_weaken {A} (P Q : event -> Prop) (m : M A) :
  (forall e, P e -> Q e) -> performs P m -> performs Q m.
Proof.
  intros HPQ Hm w. destruct (Hm w) as (a & evs & Hrun & HP).
  exists a, evs. split; [exact Hrun|].
  eapply Forall_impl; [|exact HP]. exact HPQ.
Qed.

Lemma emitted_extend {A} (m : M A) (w : world) (r : result A)
    (evs : list event) :
  m w = (r, extend w evs) -> emitted m w = evs.
Proof.
  intros H. unfold emitted. rewrite H. cbn.
  rewrite skipn_app, skipn_all, Nat.sub_diag. reflexivity.
Qed.

Lemma sleeps_app (a b : list event) : sleeps (a ++ b) = (sleeps a ++ sleeps b)%list.
Proof. apply flat_map_app. Qed.

Lemma sleeps_none (evs : list event) :
  Forall (fun e => is_sleep e = false) evs -> sleeps evs = [].
Proof.
  induction 1 as [|e evs He _ IH]; [reflexivity|].
  cbn. destruct e; try discriminate; exact IH.
Qed.

Ltac effects :=
  repeat first
    [ apply performs_ret
    | apply performs_emit
    | apply performs_bind; [|intros ?]
    | apply only_bind; [|intros ?]
    | apply only_call
    | apply only_lift
    | apply only_raise
    | match goal with
      | |- only _ (match ?x with _ => _ end) => destruct x
      | |- performs _ (match ?x with _ => _ end) => destruct x
      end
    | apply performs_only ].

Lemma only_bind_assoc {A B C} (P : event -> Prop) (m : M A) (f : A -> M B)
    (g : B -> M C) :
  only P (bind m (fun x => bind (f x) g)) -> only P (bind (bind m f) g).
Proof.
  intros H w. destruct (H w) as (r & evs & Hrun & HP). exists r, evs.
  split; [|exact HP]. rewrite <- Hrun. unfold bind.
  destruct (m w) as [[a|e] w1]; reflexivity.
Qed.

Lemma only_ret_bind {A B} (P : event -> Prop) (a : A) (f : A -> M B) :
  only P (f a) -> only P (bind (ret a) f).
Proof. intros H w. exact (H w). Qed.

(** ** What the extraction of an id can raise *)

Ltac tame_cases :=
  repeat match goal with
         | |- tame (match ?x with _ => _ end) => destruct x
         | |- tame (if ?b then _ else _) => destruct b
         end;
  try exact I; try reflexivity.

Lemma urlsplit_tame (ok : string -> bool) (url : string) :
  tame (Urllib.urlsplit ok url).
Proof. unfold Urllib.urlsplit. cbv zeta. tame_cases. Qed.

Lemma urlparse_tame (ok : string -> bool) (url : string) :
  tame (Urllib.urlparse ok url).
Proof.
  unfold Urllib.urlparse.
  pose proof (urlsplit_tame ok url) as H.
  destruct (Urllib.urlsplit ok url) as [x|e]; [|exact H].
  tame_cases.
Qed.

Lemma extract_video_id_body_tame (E : Services) (url platform : string) :
  tame (extract_video_id_body E url platform).
Proof.
  unfold extract_video_id_body.
  pose proof (urlparse_tame (bracketed_netloc_ok E) url) as H.
  destruct (Urllib.urlparse (bracketed_netloc_ok E) url) as [x|e];
    [|exact H].
  tame_cases.
Qed.

(** [extract_video_id] returns: what its body raises is an instance of
    [Exception]. *)
Lemma extract_video_id_performs (E : Services) (P : event -> Prop)
    (url platform : string) :
  (forall msg, P (Log msg)) ->
  performs P (extract_video_id E url platform).
Proof.
  intros HP. unfold extract_video_id. apply performs_try.
  - apply only_lift. apply extract_video_id_body_tame.
  - intros e. unfold logger_error. effects. apply HP.
Qed.

(** ** The two fetch strategies *)

(** What a handler [except Exception] that always returns lets through is
    no instance of [Exception], and was raised by the body. *)
Lemma try_except_lets_through {A} (m : M A) (h : exn -> M A) (w : world) :
  (forall e w1, exists a w2, h e w1 = (Ret a, w2)) ->
  exists (r : result A) (w' : world),
    try_except m h w = (r, w')
    /\ match r with
       | Ret _ => True
       | Raise e => is_exception e = false /\ m w = (Raise e, w')
       end.
Proof.
  intros Hh. unfold try_except. destruct (m w) as [[a|e] w1].
  - exists (Ret a), w1. auto.
  - destruct (is_exception e) eqn:He.
    + destruct (Hh e w1) as (a & w2 & ->). exists (Ret a), w2. auto.
    + exists (Raise e), w1. auto.
Qed.

(** Case analysis on the answer of a collaborator that is not interrupted:
    in the case where it raises, the handlers [except Exception] apply. *)
Ltac mkdir_cases E e0 :=
  match goal with
  | |- context [fs_mkdir ?S ?W ?d] =>
      let H := fresh "Htame" in
      pose proof (mkdir_tame (services_undisturbed E) W d) as H;
      destruct (fs_mkdir S W d) as [[]|e0]; cbn [tame] in H;
      [clear H|rewrite ?H; clear H]
  end.

Ltac from_shortcode_cases E p e0 :=
  match goal with
  | |- context [post_from_shortcode ?S ?W ?c] =>
      let H := fresh "Htame" in
      pose proof (from_shortcode_tame (services_undisturbed E) W c) as H;
      destruct (post_from_shortcode S W c) as [p|e0]; cbn [tame] in H;
      [clear H|rewrite ?H; clear H]
  end.

Ltac download_post_cases E ok e0 :=
  match goal with
  | |- context [download_post ?S ?W ?p ?d] =>
      let H := fresh "Htame" in
      pose proof (download_post_tame (services_undisturbed E) W p d) as H;
      destruct (download_post S W p d) as [ok|e0]; cbn [tame] in H;
      [clear H|rewrite ?H; clear H]
  end.

Section Strategies.

Variable E : Env.

Ltac undisturbed :=
  intros;
  first [ apply (mkdir_tame (services_undisturbed E))
        | apply (open_tame (services_undisturbed E))
        | apply (read_lines_tame (services_undisturbed E))
        | apply (extract_info_tame (services_undisturbed E))
        | apply (from_shortcode_tame (services_undisturbed E))
        | apply (download_post_tame (services_undisturbed E))
        | apply extract_video_id_body_tame ].

Lemma download_with_ytdlp_performs (url platform : string)
    (quality : option string) :
  performs (ytdlp_event E url platform quality)
    (download_with_ytdlp E url platform quality).
Proof.
  unfold download_with_ytdlp. apply performs_try.
  - unfold create_platform_folder. apply only_bind_assoc.
    apply only_bind; [apply only_call; [undisturbed|exact I]|intros _].
    apply only_ret_bind.
    unfold print_info, print_success, print_error, print_colored.
    effects; try exact I; try undisturbed; split; reflexivity.
  - intros e. unfold print_error, print_colored, logger_error.
    effects; exact I.
Qed.

Lemma download_instagram_performs (url : string) :
  performs instagram_event (download_instagram E url).
Proof.
  unfold download_instagram. apply performs_try.
  - unfold create_platform_folder, print_info, print_error,
      print_success, print_colored, logger_error.
    effects; try exact I; try undisturbed.
    apply extract_video_id_performs. intros msg. exact I.
  - intros e. unfold print_error, print_warning, print_colored, logger_error.
    destruct e; effects; exact I.
Qed.

Lemma raise_caught {A} (r : result A) (e : exn) :
  tame r -> r = Raise e -> is_exception e = true.
Proof. intros H ->. exact H. Qed.

Lemma download_with_ytdlp_raise (url platform : string)
    (quality : option string) (e : exn) :
  (forall w' options, ydl_extract_info E w' url options = Raise e) ->
  forall w, fst (download_with_ytdlp E url platform quality w) = Ret false.
Proof.
  intros H w.
  assert (He : is_exception e = true).
  { exact (raise_caught _ _
             (extract_info_tame (services_undisturbed E) w url [])
             (H w [])). }
  unfold download_with_ytdlp, try_except, create_platform_folder, bind, call,
    print_info, print_error, print_colored, logger_error, emit, ret.
  match goal with
  | |- context [fs_mkdir ?S ?w1 ?p] =>
      pose proof (mkdir_tame (services_undisturbed E) w1 p) as Hm;
      destruct (fs_mkdir S w1 p) as [[]|e']
  end.
  - cbn. rewrite H, He. reflexivity.
  - cbn [tame] in Hm. rewrite Hm. reflexivity.
Qed.

Lemma download_mkdir_raise (url platform : string) (quality : option string)
    (e : exn) :
  (forall w' p, fs_mkdir E w' p = Raise e) ->
  forall w,
    fst (download_with_ytdlp E url platform quality w) = Ret false
    /\ fst (download_instagram E url w) = Ret false.
Proof.
  intros H w.
  assert (He : is_exception e = true).
  { exact (raise_caught _ _
             (mkdir_tame (services_undisturbed E) w EmptyString)
             (H w EmptyString)). }
  split.
  - unfold download_with_ytdlp, try_except, create_platform_folder, bind,
      call, print_error, print_colored, logger_error, emit, ret.
    rewrite H, He. reflexivity.
  - unfold download_instagram, try_except, create_platform_folder, bind,
      call, print_info, print_error, print_warning, print_colored,
      logger_error, emit, ret.
    cbv beta iota. rewrite H, He. destruct e; reflexivity.
Qed.

Lemma download_instagram_raise (url : string) (e : exn) :
  (forall w' sc, post_from_shortcode E w' sc = Raise e)
  \/ (forall w' p target, download_post E w' p target = Raise e) ->
  forall w, fst (download_instagram E url w) = Ret false.
Proof.
  intros H w.
  assert (He : is_exception e = true).
  { destruct H as [H|H].
    - exact (raise_caught _ _
               (from_shortcode_tame (services_undisturbed E) w EmptyString)
               (H w EmptyString)).
    - exact (raise_caught _ _
               (download_post_tame (services_undisturbed E) w
                  (mkPost EmptyString None) EmptyString)
               (H w (mkPost EmptyString None) EmptyString)). }
  unfold download_instagram, create_platform_folder, extract_video_id.
  unfold try_except, bind, call, lift, print_info, print_error,
    print_warning, print_success, print_colored, logger_error, emit, ret.
  cbv beta iota.
  match goal with
  | |- context [fs_mkdir ?S ?w1 ?p] =>
      pose proof (mkdir_tame (services_undisturbed E) w1 p) as Hm;
      destruct (fs_mkdir S w1 p) as [[]|e0]
  end.
  2:{ cbn [tame] in Hm. rewrite Hm. destruct e0; reflexivity. }
  pose proof (extract_video_id_body_tame E url "instagram") as Hb.
  destruct (extract_video_id_body E url "instagram") as [[sc|]|e1].
  - destruct (Str.is_empty sc); [reflexivity|].
    destruct H as [H|H].
    + rewrite H, He. destruct e; reflexivity.
    + match goal with
      | |- context [post_from_shortcode ?S ?w1 ?c] =>
          pose proof (from_shortcode_tame (services_undisturbed E) w1 c)
            as Hp;
          destruct (post_from_shortcode S w1 c) as [p|e2]
      end.
      * rewrite H, He. destruct e; reflexivity.
      * cbn [tame] in Hp. rewrite Hp. destruct e2; reflexivity.
  - reflexivity.
  - cbn [tame] in Hb. rewrite Hb. reflexivity.
Qed.

End Strategies.

Section Escapes.

Variable E : Services.

Lemma ytdlp_handler_returns (url : string) (e : exn) (w : world) :
  exists (a : bool) (w' : world),
    (print_error [Txt "Download failed: "; Exc e];;;
     logger_error [Txt "yt-dlp error for "; Txt url; Txt ": "; Exc e];;;
     ret false) w = (Ret a, w').
Proof. eexists _, _. reflexivity. Qed.

Lemma instagram_handler_returns (e : exn) (w : world) :
  exists (a : bool) (w' : world),
    match e with
    | InstaloaderException _ =>
        print_error [Txt "Instagram download failed: "; Exc e];;;
        print_warning
          [Txt "This might be due to platform restrictions or private content."];;;
        ret false
    | _ =>
        print_error [Txt "Unexpected error: "; Exc e];;;
        logger_error [Txt "Instagram download error: "; Exc e];;;
        ret false
    end w = (Ret a, w').
Proof. destruct e; eexists _, _; reflexivity. Qed.

Lemma download_with_ytdlp_escape (url platform : string)
    (quality : option string) (w : world) :
  exists (r : result bool) (w' : world),
    download_with_ytdlp E url platform quality w = (r, w')
    /\ match r with
       | Ret _ => True
       | Raise e => is_exception e = false
       end.
Proof.
  unfold download_with_ytdlp.
  match goal with
  | |- context [try_except ?m ?h w] =>
      destruct (try_except_lets_through m h w) as (r & w' & Hrun & Hr)
  end.
  - intros e w1. apply ytdlp_handler_returns.
  - exists r, w'. split; [exact Hrun|]. destruct r; [exact I|apply Hr].
Qed.

Lemma download_instagram_escape (url : string) (w : world) :
  exists (r : result bool) (w' : world),
    download_instagram E url w = (r, w')
    /\ match r with
       | Ret _ => True
       | Raise e => is_exception e = false
       end.
Proof.
  unfold download_instagram.
  match goal with
  | |- context [try_except ?m ?h w] =>
      destruct (try_except_lets_through m h w) as (r & w' & Hrun & Hr)
  end.
  - intros e w1. apply instagram_handler_returns.
  - exists r, w'. split; [exact Hrun|]. destruct r; [exact I|apply Hr].
Qed.

(** Something that is no instance of [Exception] passes through both
    strategies. *)
Lemma download_mkdir_interrupted (url platform : string)
    (quality : option string) (e : exn) :
  is_exception e = false ->
  (forall w' p, fs_mkdir E w' p = Raise e) ->
  forall w,
    fst (download_with_ytdlp E url platform quality w) = Raise e
    /\ fst (download_instagram E url w) = Raise e.
Proof.
  intros He H w. split.
  - unfold download_with_ytdlp, try_except, create_platform_folder, bind,
      call, print_error, print_colored, logger_error, emit, ret.
    rewrite H, He. reflexivity.
  - unfold download_instagram, try_except, create_platform_folder, bind,
      call, print_info, print_error, print_warning, print_colored,
      logger_error, emit, ret.
    cbv beta iota. rewrite H, He. reflexivity.
Qed.

Lemma download_with_ytdlp_interrupted (url platform : string)
    (quality : option string) (e : exn) :
  is_exception e = false ->
  (forall w' options, ydl_extract_info E w' url options = Raise e) ->
  (forall w' p, fs_mkdir E w' p = Ret tt) ->
  forall w, fst (download_with_ytdlp E url platform quality w) = Raise e.
Proof.
  intros He H Hm w.
  unfold download_with_ytdlp, try_except, create_platform_folder, bind, call,
    print_info, print_error, print_colored, logger_error, emit, ret.
  rewrite Hm. cbn. rewrite H, He. reflexivity.
Qed.

End Escapes.




(** ** The batch loop, one URL at a time *)

Section Batch.

Variable E : Env.
Variable platform : option string.
Variable total : nat.

Lemma fetch_event_batch (url p : string) (e : event) :
  fetch_event E url p e -> batch_event E e.
Proof.
  unfold fetch_event. destruct (String.eqb p "instagram").
  - destruct e; cbn; try tauto.
  - destruct e; cbn; try tauto. intros [_ H]. now exists p.
Qed.

Lemma fetch_event_no_sleep (url p : string) (e : event) :
  fetch_event E url p e -> is_sleep e = false.
Proof.
  unfold fetch_event. destruct (String.eqb p "instagram");
    destruct e; cbn; tauto.
Qed.

Lemma fetch_performs (url p : string) :
  performs (fetch_event E url p)
    (if String.eqb p "instagram" then download_instagram E url
     else download_with_ytdlp E url p None).
Proof.
  unfold fetch_event. destruct (String.eqb p "instagram").
  - apply download_instagram_performs.
  - apply download_with_ytdlp_performs.
Qed.

(** A pause that nothing interrupts. *)
Lemma sleep_run (n : nat) (w : world) :
  call (Sleep n) (fun w => time_sleep E w n) w = (Ret tt, extend w [Sleep n]).
Proof.
  unfold call. now rewrite (sleep_returns (services_undisturbed E)).
Qed.

Lemma reaches_fetch_true (url : string) :
  reaches_fetch platform url = true ->
  is_valid_url url = true
  /\ exists p, resolve_platform platform url = Some p
               /\ Str.is_empty p = false.
Proof.
  unfold reaches_fetch, truthy_str. intros H.
  apply andb_prop in H as [Hv Hp]. split; [exact Hv|].
  destruct (resolve_platform platform url) as [p|]; [|discriminate].
  exists p. split; [reflexivity|]. now destruct (Str.is_empty p).
Qed.

(** An invalid URL is skipped: a header, an error, and on to the next
    URL with no pause. *)
Lemma batch_step_invalid (url : string) (rest : list string) (i sc : nat)
    (w : world) :
  is_valid_url url = false ->
  batch_loop E platform total i (url :: rest) sc w
  = batch_loop E platform total (S i) rest sc
      (extend w [ev_header i total; ev_invalid url]).
Proof.
  intros Hv. cbn [batch_loop]. rewrite Hv. cbn [negb].
  unfold print_header, print_error, print_colored.
  rewrite (bind_ret_run _ (emit_run _ _)), (bind_ret_run _ (emit_run _ _)).
  now rewrite extend_extend.
Qed.

(** A valid URL with no platform is skipped in the same way. *)
Lemma batch_step_no_platform (url : string) (rest : list string) (i sc : nat)
    (w : world) :
  is_valid_url url = true ->
  truthy_str (resolve_platform platform url) = false ->
  batch_loop E platform total i (url :: rest) sc w
  = batch_loop E platform total (S i) rest sc
      (extend w [ev_header i total; ev_no_platform url]).
Proof.
  intros Hv Hp. cbn [batch_loop]. rewrite Hv. cbn [negb].
  change (if truthy_str platform then platform else detect_platform url)
    with (resolve_platform platform url).
  unfold print_header, print_error, print_colored.
  rewrite (bind_ret_run _ (emit_run _ _)).
  destruct (resolve_platform platform url) as [p|].
  - cbn in Hp. destruct (Str.is_empty p); [|discriminate].
    rewrite (bind_ret_run _ (emit_run _ _)). now rewrite extend_extend.
  - rewrite (bind_ret_run _ (emit_run _ _)). now rewrite extend_extend.
Qed.

(** A URL that reaches the fetch: header, two messages, the events of
    the fetch (which never raises), then the pause unless the URL is the
    last one, and on to the next URL. *)
Lemma batch_step_fetch (url p : string) (rest : list string) (i sc : nat)
    (w : world) :
  is_valid_url url = true ->
  resolve_platform platform url = Some p ->
  Str.is_empty p = false ->
  exists (b : bool) (fetch : list event),
    Forall (fetch_event E url p) fetch
    /\ batch_loop E platform total i (url :: rest) sc w
       = batch_loop E platform total (S i) rest (if b then S sc else sc)
           (extend w ([ev_header i total; ev_url url; ev_platform p]
                      ++ fetch ++ pause i total)).
Proof.
  intros Hv Hp Hne. cbn [batch_loop]. rewrite Hv. cbn [negb].
  change (if truthy_str platform then platform else detect_platform url)
    with (resolve_platform platform url).
  rewrite Hp, Hne.
  unfold print_header, print_info, print_colored.
  rewrite !(bind_ret_run _ (emit_run _ _)).
  destruct (fetch_performs url p
              (extend (extend (extend w [ev_header i total]) [ev_url url])
                 [ev_platform p])) as (b & fetch & Hrun & Hf).
  exists b, fetch. split; [exact Hf|].
  rewrite (bind_ret_run _ Hrun). unfold pause.
  destruct (i <? total).
  - match goal with
    | |- bind ?m _ ?W = _ =>
        assert (Hpause : m W
                         = (Ret tt,
                            extend (extend W [ev_waiting])
                              [Sleep Config.REQUEST_DELAY]))
          by (rewrite (bind_ret_run _ (emit_run _ _)); apply sleep_run)
    end.
    rewrite (bind_ret_run _ Hpause).
    rewrite !extend_extend. reflexivity.
  - unfold bind at 1, ret at 1.
    rewrite !extend_extend. cbn [app]. now rewrite app_nil_r.
Qed.

End Batch.

Section BatchRun.

Variable E : Env.
Variable platform : option string.
Variable total : nat.

Lemma filter_removelast_cons {A} (f : A -> bool) (x : A) (rest : list A) :
  length (filter f (removelast (x :: rest)))
  = match rest with
    | [] => 0
    | _ => (if f x then 1 else 0) + length (filter f (removelast rest))
    end.
Proof.
  destruct rest as [|y rest]; [reflexivity|].
  cbn [removelast filter]. destruct (f x); reflexivity.
Qed.

Lemma sleeps_pause (i : nat) (rest : list string) :
  i + length rest = total ->
  sleeps (pause i total)
  = match rest with [] => [] | _ => [Config.REQUEST_DELAY] end.
Proof.
  intros H. unfold pause. destruct rest as [|r rest]; cbn [length] in H.
  - replace (i <? total) with false; [reflexivity|].
    symmetry. apply Nat.ltb_ge. lia.
  - replace (i <? total) with true; [reflexivity|].
    symmetry. apply Nat.ltb_lt. lia.
Qed.

Lemma pause_batch (i : nat) : Forall (batch_event E) (pause i total).
Proof.
  unfold pause. destruct (i <? total); repeat constructor.
Qed.

(** One turn of the loop. *)
Lemma batch_step (url : string) (rest : list string) (i sc : nat) (w : world) :
  exists (seg : list event) (sc' : nat),
    batch_loop E platform total i (url :: rest) sc w
    = batch_loop E platform total (S i) rest sc' (extend w seg)
    /\ segment E platform total i url seg
    /\ Forall (batch_event E) seg
    /\ sleeps seg
       = (if reaches_fetch platform url then sleeps (pause i total) else [])
    /\ sc <= sc' <= sc + (if reaches_fetch platform url then 1 else 0).
Proof.
  unfold segment, reaches_fetch.
  destruct (is_valid_url url) eqn:Hv; cbn [negb andb].
  - destruct (resolve_platform platform url) as [p|] eqn:Hp;
      [destruct (Str.is_empty p) eqn:Hne|]; cbn [truthy_str negb].
    + exists [ev_header i total; ev_no_platform url], sc.
      split; [apply batch_step_no_platform; [exact Hv|]|].
      { rewrite Hp. cbn. now rewrite Hne. }
      rewrite Hne. repeat split; auto; try lia; repeat constructor.
    + destruct (batch_step_fetch E platform total url p rest i sc w Hv Hp Hne)
        as (b & fetch & Hf & Hrun).
      exists ([ev_header i total; ev_url url; ev_platform p]
              ++ fetch ++ pause i total)%list, (if b then S sc else sc).
      rewrite Hne. cbn [negb].
      split; [exact Hrun|]. split; [exists fetch; auto|]. split; [|split].
      * repeat (apply Forall_cons; [exact I|]).
        apply Forall_app. split; [|apply pause_batch].
        eapply Forall_impl; [|exact Hf]. apply fetch_event_batch.
      * rewrite !sleeps_app, (sleeps_none fetch)
          by (eapply Forall_impl; [|exact Hf]; apply fetch_event_no_sleep).
        reflexivity.
      * destruct b; lia.
    + exists [ev_header i total; ev_no_platform url], sc.
      split; [apply batch_step_no_platform; [exact Hv|]|].
      { now rewrite Hp. }
      repeat split; auto; try lia; repeat constructor.
  - exists [ev_header i total; ev_invalid url], sc.
    split; [now apply batch_step_invalid|].
    repeat split; auto; try lia; repeat constructor.
Qed.

(** The whole loop: it returns; its events are one segment for each
    URL; and its pauses are one [REQUEST_DELAY] for each URL that reaches
    the fetch and is not the last of the list. *)
Lemma batch_loop_run (urls : list string) :
  forall (i sc : nat) (w : world),
    i + length urls = S total ->
    exists (n : nat) (evs : list event),
      batch_loop E platform total i urls sc w = (Ret n, extend w evs)
      /\ segmented E platform total i urls evs
      /\ Forall (batch_event E) evs
      /\ sleeps evs
         = repeat Config.REQUEST_DELAY
             (length (filter (reaches_fetch platform) (removelast urls)))
      /\ sc <= n <= sc + length (filter (reaches_fetch platform) urls).
Proof.
  induction urls as [|url rest IH]; intros i sc w Hi.
  - exists sc, []. rewrite extend_nil. cbn. repeat split; auto; lia.
  - cbn [length] in Hi. rewrite filter_removelast_cons. cbn [filter].
    destruct (batch_step url rest i sc w)
      as (seg & sc' & -> & Hseg & Hev1 & Hsl1 & Hsc).
    destruct (IH (S i) sc' (extend w seg))
      as (n & evs & Hrun & Hsegs & Hev & Hsl & Hn); [lia|].
    exists n, (seg ++ evs)%list. rewrite Hrun, extend_extend.
    split; [reflexivity|]. split; [|split; [|split]].
    + cbn [segmented]. exists seg, evs. auto.
    + now apply Forall_app.
    + rewrite sleeps_app, Hsl, Hsl1.
      destruct (reaches_fetch platform url).
      * rewrite (sleeps_pause i rest) by lia. destruct rest; reflexivity.
      * destruct rest; reflexivity.
    + destruct (reaches_fetch platform url); cbn [length]; lia.
Qed.

End BatchRun.

(** ** The batch as a whole *)

Lemma download_from_file_run (E : Env) (filepath : string)
    (platform : option string) (w : world) :
  exists evs : list event,
    download_from_file E filepath platform w = (Ret tt, extend w evs)
    /\ Forall (batch_event E) evs
    /\ match fs_read_lines E (extend w [OpenRead filepath]) filepath with
       | Ret lines =>
           let urls := read_urls lines in
           match urls with
           | [] => evs = [OpenRead filepath;
                          Print Error [Txt "No URLs found in file"]]
           | _ =>
               exists (body : list event) (n : nat),
                 evs = ([OpenRead filepath; ev_found (length urls)]
                        ++ body ++ [ev_completed n (length urls)])%list
                 /\ segmented E platform (length urls) 1 urls body
                 /\ sleeps body
                    = repeat Config.REQUEST_DELAY
                        (length (filter (reaches_fetch platform)
                                   (removelast urls)))
                 /\ n <= length (filter (reaches_fetch platform) urls)
           end
       | Raise e => exists msg, evs = [OpenRead filepath; Print Error msg]
       end.
Proof.
  unfold download_from_file, try_except. unfold bind at 1. unfold call.
  change (mkWorld (trace w ++ [OpenRead filepath]) (files w))
    with (extend w [OpenRead filepath]).
  pose proof (read_lines_tame (services_undisturbed E)
                (extend w [OpenRead filepath]) filepath) as Hread.
  destruct (fs_read_lines E (extend w [OpenRead filepath]) filepath)
    as [lines|e].
  - cbv zeta. destruct (read_urls lines) as [|u us] eqn:Hu.
    + unfold print_error, print_colored. rewrite emit_run, extend_extend.
      eexists. split; [reflexivity|]. split; [|reflexivity].
      repeat constructor.
    + unfold print_info, print_success, print_colored.
      rewrite (bind_ret_run _ (emit_run _ _)).
      destruct (batch_loop_run E platform (length (u :: us)) (u :: us) 1 0
                  (extend (extend w [OpenRead filepath])
                     [ev_found (length (u :: us))]))
        as (n & body & Hrun & Hseg & Hev & Hsl & Hn); [reflexivity|].
      rewrite (bind_ret_run _ Hrun), emit_run, !extend_extend.
      eexists. split; [reflexivity|]. split.
      * repeat (apply Forall_cons; [exact I|]).
        apply Forall_app. split; [exact Hev|]. repeat constructor.
      * exists body, n. repeat split; auto. lia.
  - cbn [tame] in Hread. rewrite Hread.
    destruct e; unfold print_error, print_colored;
      rewrite emit_run, extend_extend;
      (eexists; split; [reflexivity|]; split;
       [repeat constructor|eexists; reflexivity]).
Qed.

Lemma handle_batch_download_run (E : Env) (self : MediaDownloaderApp)
    (file_input : option string) (platform_choice : Z) (w : world) :
  exists evs : list event,
    handle_batch_download E self file_input platform_choice w
    = (Ret self, extend w evs)
    /\ Forall (batch_event E) evs.
Proof.
  unfold handle_batch_download.
  destruct (negb (truthy_str file_input)).
  - exists []. rewrite extend_nil. split; [reflexivity|constructor].
  - unfold print_colored. rewrite (bind_ret_run _ (emit_run _ _)).
    destruct ((platform_choice =? -1)%Z || (platform_choice =? 7)%Z).
    + exists [Print Plain [Txt "Select Platform:"]].
      split; [reflexivity|repeat constructor].
    + match goal with
      | |- context [download_from_file _ ?f ?p] =>
          destruct (download_from_file_run E f p
                      (extend w [Print Plain [Txt "Select Platform:"]]))
            as (evs & Hrun & Hev & _)
      end.
      rewrite (bind_ret_run _ Hrun). unfold ret. rewrite extend_extend.
      eexists. split; [reflexivity|]. now repeat constructor.
Qed.

Lemma batch_event_format (E : Env) (url : string) (options : dict) :
  batch_event E (YdlExtractInfo url options) ->
  dict_get "format" options = Some (JStr Config.DEFAULT_QUALITY)
  \/ dict_get "format" options
     = Some (JStr "bestvideo[height<=1080]+bestaudio/best[height<=1080]").
Proof.
  intros [p ->]. unfold get_ydl_options.
  destruct (String.eqb p "youtube"); [right; reflexivity|].
  destruct (String.eqb p "instagram"); left; reflexivity.
Qed.

(** C4. A batch pauses for [REQUEST_DELAY] = 1 second after each URL
    that it fetches and that is not the last of the list, before the
    header of the next URL; a URL that is skipped (invalid, or with no
    platform) gets no pause.  The events of a batch are the opening of the
    file, the count, one segment for each URL and the summary; its pauses
    are one second for each fetched URL that is not the last.  For the
    batch [A invalid; B valid, YouTube; C valid, no platform] there is
    exactly one pause, after the fetch of B and before C, none around A and
    none after C. *)
Theorem batch_pauses_between_fetches (E : Env) (filepath : string)
    (platform : option string) (w : world) (lines : list string) :
  fs_read_lines E (extend w [OpenRead filepath]) filepath = Ret lines ->
  read_urls lines <> [] ->
  let urls := read_urls lines in
  let evs := emitted (download_from_file E filepath platform) w in
  (exists (body : list event) (n : nat),
      evs = ([OpenRead filepath; ev_found (length urls)]
             ++ body ++ [ev_completed n (length urls)])%list
      /\ segmented E platform (length urls) 1 urls body)
  /\ sleeps evs
     = repeat 1 (length (filter (reaches_fetch platform) (removelast urls)))
  /\ (forall A B C : string,
         platform = None ->
         urls = [A; B; C] ->
         is_valid_url A = false ->
         is_valid_url B = true -> detect_platform B = Some "youtube" ->
         is_valid_url C = true -> detect_platform C = None ->
         exists (fetch : list event) (n : nat),
           Forall (ytdlp_event E B "youtube" None) fetch
           /\ sleeps fetch = []
           /\ evs = ([OpenRead filepath; ev_found 3;
                      ev_header 1 3; ev_invalid A;
                      ev_header 2 3; ev_url B; ev_platform "youtube"]
                     ++ fetch
                     ++ [ev_waiting; Sleep 1;
                         ev_header 3 3; ev_no_platform C;
                         ev_completed n 3])%list
           /\ sleeps evs = [1]).
Proof.
  intros Hread Hne urls evs.
  destruct (download_from_file_run E filepath platform w)
    as (evs0 & Hrun & Hev & Hshape).
  assert (Hevs : evs = evs0) by (apply (emitted_extend _ _ _ _ Hrun)).
  rewrite Hread in Hshape. cbv zeta in Hshape. fold urls in Hshape.
  destruct urls as [|u us] eqn:Hu; [now elim Hne|].
  destruct Hshape as (body & n & Hevs0 & Hseg & Hsl & Hn).
  assert (Hsleeps : sleeps evs
                    = repeat 1 (length (filter (reaches_fetch platform)
                                          (removelast (u :: us))))).
  { rewrite Hevs, Hevs0, !sleeps_app, Hsl.
    unfold ev_found, ev_completed. cbn [sleeps flat_map app].
    now rewrite app_nil_r. }
  split; [exists body, n; rewrite Hevs; auto|]. split; [exact Hsleeps|].
  intros A B C -> HABC HA HB HpB HC HpC.
  injection HABC as -> ->.
  cbn [segmented] in Hseg. unfold segment, resolve_platform in Hseg.
  cbn [truthy_str] in Hseg.
  destruct Hseg as (s1 & r1 & -> & H1 & s2 & r2 & -> & H2
                    & s3 & r3 & -> & H3 & ->).
  rewrite HA in H1. rewrite HB, HpB in H2. rewrite HC, HpC in H3.
  cbn in H1, H2, H3. destruct H2 as (fetch & Hf & ->). subst s1 s3.
  exists fetch, n. unfold fetch_event in Hf. cbn in Hf.
  split; [exact Hf|]. split.
  { apply sleeps_none. eapply Forall_impl; [|exact Hf].
    intros e. destruct e; cbn; tauto. }
  split.
  - rewrite Hevs, Hevs0. cbn [length app pause Nat.ltb Nat.leb].
    rewrite <- !app_assoc. reflexivity.
  - rewrite Hsleeps. unfold reaches_fetch, resolve_platform.
    cbn [removelast filter truthy_str]. rewrite HA, HB, HpB. reflexivity.
Qed.

Lemma batch_pauses_between_fetches_witness :
  let E := test_env [url_invalid; url_youtube; url_unknown] JNull in
  sleeps (emitted (download_from_file E "urls.txt" None) empty_world) = [1].
Proof.
  cbv zeta.
  destruct (batch_pauses_between_fetches
              (test_env [url_invalid; url_youtube; url_unknown] JNull)
              "urls.txt" None empty_world
              [url_invalid; url_youtube; url_unknown]
              eq_refl ltac:(discriminate)) as (_ & _ & H).
  destruct (H url_invalid url_youtube url_unknown eq_refl
              ltac:(vm_compute; reflexivity) ltac:(vm_compute; reflexivity)
              ltac:(vm_compute; reflexivity) ltac:(vm_compute; reflexivity)
              ltac:(vm_compute; reflexivity) ltac:(vm_compute; reflexivity))
    as (fetch & n & _ & _ & _ & Hs).
  exact Hs.
Defined.

(** ** What the batch leaves out *)

(** C1 (not met by the code). A batch records nothing in the
    history: it opens no file for writing, leaves every file as it was, and
    returns the application object unchanged.  On the batch of three URLs
    [not a url; a YouTube video; a URL of no known platform] the history
    still has 0 entries and the history file is still missing, whereas a
    single download of the YouTube URL appends one entry and writes the
    file. *)
Theorem batch_records_no_history :
  (forall (E : Env) (self : MediaDownloaderApp) (file_input : option string)
          (platform_choice : Z) (w : world),
      exists evs : list event,
        handle_batch_download E self file_input platform_choice w
        = (Ret self, extend w evs)
        /\ Forall (fun e => is_write e = false) evs)
  /\ (let E := test_env [url_invalid; url_youtube; url_unknown] (JList []) in
      let app := app_with "best" in
      let batch := handle_batch_download E app (Some "urls.txt") 1 empty_world in
      let single :=
        handle_single_download E app 1 (Some url_youtube) empty_world in
      fst batch = Ret app
      /\ entries (history (app_history app)) = 0
      /\ files (snd batch) history_path = None
      /\ existsb is_write (trace (snd batch)) = false
      /\ match fst single with
         | Ret app' => entries (history (app_history app'))
         | Raise _ => 0
         end = 1
      /\ files (snd single) history_path = Some "[]").
Proof.
  split.
  - intros E self file_input platform_choice w.
    destruct (handle_batch_download_run E self file_input platform_choice w)
      as (evs & Hrun & Hev).
    exists evs. split; [exact Hrun|].
    eapply Forall_impl; [|exact Hev].
    intros e. destruct e; cbn; tauto.
  - vm_compute. repeat split; reflexivity.
Qed.

(** C2 (not met by the code). A batch calls the generic
    strategy with no quality argument, so every call of yt-dlp made by a
    batch carries the default format ["best"] (or, for YouTube, the fixed
    format of [get_ydl_options]), whatever the quality manager holds.  With
    the quality set to 720p, a batch of one TikTok URL calls yt-dlp with
    format ["best"], whereas a single download of the same URL calls it
    with format ["720p"]. *)
Theorem batch_ignores_quality :
  (forall (E : Env) (self : MediaDownloaderApp) (file_input : option string)
          (platform_choice : Z) (w : world),
      Forall (fun f =>
                f = Some (JStr Config.DEFAULT_QUALITY)
                \/ f = Some (JStr
                     "bestvideo[height<=1080]+bestaudio/best[height<=1080]"))
        (formats (emitted (handle_batch_download E self file_input
                             platform_choice) w)))
  /\ (let E := test_env [url_tiktok] (JList []) in
      let set := set_quality QualityManager_init 3 empty_world in
      let app := app_with "720p" in
      fst set = Ret (quality_manager app)
      /\ get_quality (quality_manager app) = "720p"
      /\ formats (trace (snd (handle_batch_download E app (Some "urls.txt") 1
                                empty_world)))
         = [Some (JStr "best")]
      /\ formats (trace (snd (handle_single_download E app 1 (Some url_tiktok)
                                empty_world)))
         = [Some (JStr "720p")]).
Proof.
  split.
  - intros E self file_input platform_choice w.
    destruct (handle_batch_download_run E self file_input platform_choice w)
      as (evs & Hrun & Hev).
    rewrite (emitted_extend _ _ _ _ Hrun). clear Hrun. unfold formats.
    induction Hev as [|e evs He _ IH]; [constructor|].
    cbn [flat_map]. destruct e; cbn [app]; try exact IH.
    constructor; [|exact IH]. eapply batch_event_format. exact He.
  - vm_compute. repeat split; reflexivity.
Qed.

(** ** URL validation *)

Lemma exec_chr (ic : bool) (c : ascii) (r : regex) (pos : nat) (s : string)
    (g : groups) (k : cont) (res : groups) :
  exec ic (Seq (Chr c) r) pos s g k = Some res ->
  exists x s', s = String x s' /\ chr_eq ic c x = true
               /\ exec ic r (S pos) s' g k = Some res.
Proof.
  cbn [exec]. destruct s as [|x s']; [discriminate|].
  destruct (chr_eq ic c x) eqn:Hc; [|discriminate]. eauto.
Qed.

Lemma rep_loop_done (step : matcher) (fuel pos : nat) (s : string)
    (g : groups) (k : cont) :
  rep_loop step fuel 0 (Some 0) pos s g k = k pos s g.
Proof. destruct fuel; reflexivity. Qed.

Lemma succ_eqb_false (n : nat) : (S n =? n) = false.
Proof. apply Nat.eqb_neq. lia. Qed.

Lemma exec_opt_chr (ic : bool) (c : ascii) (r : regex) (pos : nat)
    (s : string) (g : groups) (k : cont) (res : groups) :
  exec ic (Seq (opt (Chr c)) r) pos s g k = Some res ->
  (exists x s', s = String x s' /\ chr_eq ic c x = true
                /\ exec ic r (S pos) s' g k = Some res)
  \/ exec ic r pos s g k = Some res.
Proof.
  unfold opt. cbn [exec rep_loop pred option_map].
  change (0 =? 0) with true. cbv iota.
  destruct s as [|x s']; [intros H; right; exact H|].
  destruct (chr_eq ic c x) eqn:Hc; [|intros H; right; exact H].
  rewrite succ_eqb_false, rep_loop_done.
  destruct (exec ic r (S pos) s' g k) as [res'|] eqn:Hr.
  - intros H. left. exists x, s'. repeat split; congruence.
  - intros H. right. exact H.
Qed.

Lemma exec_bol (ic : bool) (r : regex) (s : string) (g : groups) (k : cont) :
  exec ic (Seq Bol r) 0 s g k = exec ic r 0 s g k.
Proof. reflexivity. Qed.

Ltac chr_case x :=
  destruct x as [[] [] [] [] [] [] [] []]; vm_compute;
  intros; first [reflexivity | discriminate].

Lemma chr_h (x : ascii) : chr_eq true "h" x = true -> Str.lower_char x = "h"%char.
Proof. chr_case x. Qed.
Lemma chr_t (x : ascii) : chr_eq true "t" x = true -> Str.lower_char x = "t"%char.
Proof. chr_case x. Qed.
Lemma chr_p (x : ascii) : chr_eq true "p" x = true -> Str.lower_char x = "p"%char.
Proof. chr_case x. Qed.
Lemma chr_s (x : ascii) : chr_eq true "s" x = true -> Str.lower_char x = "s"%char.
Proof. chr_case x. Qed.
Lemma chr_colon (x : ascii) :
  chr_eq true ":" x = true -> Str.lower_char x = ":"%char.
Proof. chr_case x. Qed.
Lemma chr_slash (x : ascii) :
  chr_eq true "/" x = true -> Str.lower_char x = "/"%char.
Proof. chr_case x. Qed.

(** What the head of [url_pattern] demands of the subject. *)
Lemma scheme_of_match (r : regex) (s : string) (res : groups) :
  exec true
    (Seq Bol
      (Seq (Chr "h") (Seq (Chr "t") (Seq (Chr "t") (Seq (Chr "p")
      (Seq (opt (Chr "s"))
      (Seq (Chr ":") (Seq (Chr "/") (Seq (Chr "/") r)))))))))
    0 s [] accept = Some res ->
  has_http_scheme s = true.
Proof.
  intros H. rewrite exec_bol in H.
  apply exec_chr in H as (x1 & s1 & -> & H1 & H).
  apply exec_chr in H as (x2 & s2 & -> & H2 & H).
  apply exec_chr in H as (x3 & s3 & -> & H3 & H).
  apply exec_chr in H as (x4 & s4 & -> & H4 & H).
  apply chr_h in H1. apply chr_t in H2. apply chr_t in H3. apply chr_p in H4.
  unfold has_http_scheme. cbn [Str.lower]. rewrite H1, H2, H3, H4.
  apply exec_opt_chr in H as [(x5 & s5 & -> & H5 & H)|H].
  - apply exec_chr in H as (x6 & s6 & -> & H6 & H).
    apply exec_chr in H as (x7 & s7 & -> & H7 & H).
    apply exec_chr in H as (x8 & s8 & -> & H8 & H).
    apply chr_s in H5. apply chr_colon in H6. apply chr_slash in H7.
    apply chr_slash in H8.
    cbn [Str.lower]. rewrite H5, H6, H7, H8. reflexivity.
  - apply exec_chr in H as (x6 & s6 & -> & H6 & H).
    apply exec_chr in H as (x7 & s7 & -> & H7 & H).
    apply exec_chr in H as (x8 & s8 & -> & H8 & H).
    apply chr_colon in H6. apply chr_slash in H7. apply chr_slash in H8.
    cbn [Str.lower]. rewrite H6, H7, H8. reflexivity.
Qed.

(** On strings of code points below 256: a string that does not begin
    with the scheme prefix [http://] or [https://], in either letter case,
    is not a valid URL. *)
Lemma is_valid_url_latin1_needs_scheme (s : string) :
  has_http_scheme s = false -> is_valid_url s = false.
Proof.
  intros Hs. unfold is_valid_url, match_.
  destruct (exec true url_pattern 0 s [] accept) as [res|] eqn:Hm;
    [|reflexivity].
  unfold url_pattern in Hm. apply scheme_of_match in Hm. congruence.
Qed.

(** ** Platform detection *)

Lemma exec_lit (n : string) :
  forall (pos : nat) (s : string) (g : groups) (k : cont),
    exec false (lit n) pos s g k
    = if Str.starts_with n s
      then k (pos + String.length n) (Str.drop (String.length n) s) g
      else None.
Proof.
  induction n as [|c n IH]; intros pos s g k.
  - cbn. now rewrite Nat.add_0_r.
  - assert (Hc : forall x, chr_eq false c x = Ascii.eqb c x).
    { intros x. unfold chr_eq. cbn [andb]. rewrite orb_false_r.
      apply Ascii.eqb_sym. }
    destruct n as [|c' n].
    + cbn [lit exec Str.starts_with String.length Str.drop].
      destruct s as [|x s]; [reflexivity|]. rewrite Hc.
      destruct (Ascii.eqb c x); [|reflexivity].
      cbn. now rewrite Nat.add_1_r.
    + change (lit (String c (String c' n)))
        with (Seq (Chr c) (lit (String c' n))).
      cbn [exec]. destruct s as [|x s]; [reflexivity|]. rewrite Hc, IH.
      cbn [Str.starts_with]. destruct (Ascii.eqb c x); [|reflexivity].
      cbn [andb].
      match goal with
      | |- (if ?X then _ else _) = _ => destruct X; [|reflexivity]
      end.
      cbn [String.length Str.drop]. f_equal. lia.
Qed.

(** Searching for a literal is the substring test. *)
Lemma search_lit (n : string) (s : string) :
  forall pos, is_some (search_from false (lit n) pos s) = Str.contains n s.
Proof.
  induction s as [|x s IH]; intros pos; cbn [search_from Str.contains];
    rewrite exec_lit.
  - destruct (Str.starts_with n EmptyString); reflexivity.
  - destruct (Str.starts_with n (String x s)); [reflexivity|]. apply IH.
Qed.

(** Searching for a group of two literals is two substring tests. *)
Lemma search_lit2 (a b : string) (s : string) :
  forall pos,
    is_some (search_from false (Grp 1 (Alt (lit a) (lit b))) pos s)
    = Str.contains a s || Str.contains b s.
Proof.
  induction s as [|x s IH]; intros pos; cbn [search_from Str.contains exec];
    rewrite !exec_lit.
  - destruct (Str.starts_with a EmptyString), (Str.starts_with b EmptyString); reflexivity.
  - destruct (Str.starts_with a (String x s)) eqn:Ha.
    + reflexivity.
    + destruct (Str.starts_with b (String x s)) eqn:Hb.
      * cbn. now rewrite orb_true_r.
      * cbn [orb]. apply IH.
Qed.

Lemma detect_platform_refines (url : string) :
  detect_platform url = detect_by_substring url.
Proof.
  unfold detect_platform, detect_by_substring, domain_patterns,
    domain_needles.
  cbn [first_match first_containing existsb]. unfold search.
  rewrite !search_lit2, !search_lit, !orb_false_r. reflexivity.
Qed.

Lemma first_containing_none (table : list (string * list string))
    (text : string) :
  forallb (fun entry : string * list string =>
             forallb (fun needle => negb (Str.contains needle text))
               (snd entry)) table = true
  <-> first_containing table text = None.
Proof.
  induction table as [|[p needles] table IH]; cbn [forallb first_containing snd].
  - tauto.
  - rewrite andb_true_iff, IH.
    assert (Hex : existsb (fun needle => Str.contains needle text) needles
                  = negb (forallb (fun needle =>
                                     negb (Str.contains needle text)) needles)).
    { induction needles as [|n ns IHn]; [reflexivity|]. cbn.
      rewrite IHn, negb_andb, negb_involutive. reflexivity. }
    rewrite Hex.
    destruct (forallb (fun needle => negb (Str.contains needle text)) needles);
      cbn [negb]; split; try tauto; try discriminate.
    intros [H _]. discriminate.
Qed.

(** C3, as the code has it. [detect_platform] looks for the patterns of
    its table anywhere in the lower-cased URL, not in the host alone: it
    returns the first platform of the table one of whose substrings occurs
    in the URL.  Each canonical platform URL (one for each platform, in
    table order) gives exactly its platform, and it returns none exactly
    when no substring of the table occurs anywhere in the URL. *)
Theorem detect_platform_whole_url :
  (forall url, detect_platform url = detect_by_substring url)
  /\ Forall (fun pu => detect_platform (snd pu) = Some (fst pu)) canonical_urls
  /\ map fst canonical_urls = map fst domain_patterns
  /\ (forall url,
         no_needle (Str.lower url) = true <-> detect_platform url = None).
Proof.
  split; [exact detect_platform_refines|]. split.
  { repeat constructor; vm_compute; reflexivity. }
  split; [reflexivity|].
  intros url. rewrite detect_platform_refines. unfold detect_by_substring.
  apply first_containing_none.
Qed.

Lemma detect_platform_whole_url_witness :
  detect_platform "https://example.org/clip.mp4" = None.
Proof.
  apply (proj2 (proj2 (proj2 detect_platform_whole_url))). reflexivity.
Defined.

(** C3, host-only reading: it fails, since a URL whose host matches none
    of the patterns is still classified when a pattern occurs in its path
    or query. *)
Lemma detect_platform_not_host_only :
  ~ (forall url host : string,
        host_of url = Some host ->
        detect_platform host = None ->
        detect_platform url = None).
Proof.
  intros H.
  specialize (H "https://example.org/watch?next=youtube.com" "example.org"
                eq_refl eq_refl).
  vm_compute in H. discriminate.
Qed.

(** ** Extraction of the native id *)

(** Strings all of whose characters satisfy [P], and a character [c]
    that does not. *)
Section Absent.

Variable P : ascii -> bool.
Variable c : ascii.
Hypothesis Pc : P c = false.

Lemma absent_eqb (x : ascii) : P x = true -> Ascii.eqb x c = false.
Proof.
  intros Hx. destruct (Ascii.eqb_spec x c) as [->|]; [congruence|reflexivity].
Qed.

Lemma remove_char_absent (s : string) :
  Str.forallb P s = true -> Str.remove_char c s = s.
Proof.
  induction s as [|x s IH]; cbn; [reflexivity|].
  intros H. apply andb_prop in H as [Hx Hs].
  now rewrite (absent_eqb x Hx), IH.
Qed.

Lemma replace_char_absent (b : ascii) (s : string) :
  Str.forallb P s = true -> Str.replace_char c b s = s.
Proof.
  induction s as [|x s IH]; cbn; [reflexivity|].
  intros H. apply andb_prop in H as [Hx Hs].
  now rewrite (absent_eqb x Hx), IH.
Qed.

Lemma partition_absent (s : string) :
  Str.forallb P s = true -> Str.partition c s = (s, None).
Proof.
  induction s as [|x s IH]; cbn; [reflexivity|].
  intros H. apply andb_prop in H as [Hx Hs].
  now rewrite (absent_eqb x Hx), IH.
Qed.

Lemma split_absent (s : string) :
  Str.forallb P s = true -> Str.split c s = [s].
Proof.
  induction s as [|x s IH]; cbn; [reflexivity|].
  intros H. apply andb_prop in H as [Hx Hs].
  now rewrite (absent_eqb x Hx), IH.
Qed.

Lemma rfind_split_absent (s : string) :
  Str.forallb P s = true -> Urllib.rfind_split c s = None.
Proof.
  induction s as [|x s IH]; cbn; [reflexivity|].
  intros H. apply andb_prop in H as [Hx Hs].
  now rewrite IH, (absent_eqb x Hx).
Qed.

(** A needle that has [c] at offset [n] does not occur. *)
Lemma starts_with_absent (needle s : string) :
  Str.forallb P s = true -> Str.forallb P needle = false ->
  Str.starts_with needle s = false.
Proof.
  revert s. induction needle as [|a needle IH]; intros s Hs Hn;
    [discriminate|].
  destruct s as [|x s]; [reflexivity|]. cbn in *.
  apply andb_prop in Hs as [Hx Hs].
  destruct (Ascii.eqb_spec a x) as [->|]; [|reflexivity].
  rewrite Hx in Hn. cbn in *. now apply IH.
Qed.

Lemma contains_absent (needle s : string) :
  Str.forallb P s = true -> Str.forallb P needle = false ->
  Str.contains needle s = false.
Proof.
  intros Hs Hn. induction s as [|x s IH].
  - cbn. destruct needle; [discriminate|reflexivity].
  - cbn [Str.contains]. rewrite starts_with_absent by assumption.
    cbn in Hs. apply andb_prop in Hs as [_ Hs]. now apply IH.
Qed.

End Absent.

Lemma forallb_app (P : ascii -> bool) (a b : string) :
  Str.forallb P (a ++ b) = Str.forallb P a && Str.forallb P b.
Proof.
  induction a as [|x a IH]; cbn; [reflexivity|].
  now rewrite IH, andb_assoc.
Qed.

Lemma other_self (c : ascii) : other c c = false.
Proof. unfold other. now rewrite Ascii.eqb_refl. Qed.

Lemma forallb_other (P : ascii -> bool) (c : ascii) (s : string) :
  P c = false -> Str.forallb P s = true -> Str.forallb (other c) s = true.
Proof.
  intros Pc. induction s as [|x s IH]; cbn; [reflexivity|].
  intros H. apply andb_prop in H as [Hx Hs]. unfold other at 1.
  now rewrite (absent_eqb P c Pc x Hx), IH.
Qed.

Lemma remove_char_other (c : ascii) (s : string) :
  Str.forallb (other c) s = true -> Str.remove_char c s = s.
Proof. apply remove_char_absent, other_self. Qed.

Lemma partition_other (c : ascii) (s : string) :
  Str.forallb (other c) s = true -> Str.partition c s = (s, None).
Proof. apply partition_absent, other_self. Qed.

Lemma split_other (c : ascii) (s : string) :
  Str.forallb (other c) s = true -> Str.split c s = [s].
Proof. apply split_absent, other_self. Qed.

Lemma replace_char_other (c b : ascii) (s : string) :
  Str.forallb (other c) s = true -> Str.replace_char c b s = s.
Proof. apply replace_char_absent, other_self. Qed.

Lemma contains_other (c : ascii) (s : string) :
  Str.forallb (other c) s = true ->
  Str.contains (String c EmptyString) s = false.
Proof.
  intros H. apply (contains_absent (other c)); [exact H|].
  cbn. now rewrite other_self.
Qed.

(** [c] occurs neither in the closed prefix nor in the id. *)
Ltac no_char :=
  rewrite ?forallb_app; repeat (apply andb_true_intro; split);
  first [ assumption
        | apply forallb_other with (P := id_char); [reflexivity | assumption]
        | vm_compute; reflexivity ].

Ltac run_string :=
  cbv beta iota;
  cbn [Str.starts_with Str.contains Str.drop Str.partition Str.split
       Str.replace_char Str.is_empty Urllib.splitnetloc Urllib.rfind_split
       Urllib.splitparams Urllib.uses_params existsb String.eqb
       String.append Ascii.eqb Bool.eqb andb orb negb fst snd].

(** Running [urlparse] on a closed prefix [pfx] followed by an id: [rest]
    is what follows the colon of the scheme. *)
Ltac parse_url pfx rest vid :=
  unfold Urllib.urlparse, Urllib.urlsplit; cbv zeta;
  replace (Urllib.lstrip_c0 (pfx ++ vid)) with (pfx ++ vid)
    by (vm_compute; reflexivity);
  rewrite (remove_char_other "009") by no_char;
  rewrite (remove_char_other "013") by no_char;
  rewrite (remove_char_other "010") by no_char;
  replace (Urllib.split_scheme (pfx ++ vid)) with ("https", rest ++ vid)
    by (vm_compute; reflexivity);
  run_string;
  rewrite ?(partition_other "#") by no_char; run_string;
  rewrite ?(partition_other "?") by no_char; run_string;
  rewrite ?(contains_other ";") by no_char;
  reflexivity.

Lemma urlparse_youtube_short (bo : string -> bool) (vid : string) :
  Str.forallb id_char vid = true ->
  Urllib.urlparse bo (youtube_short_url vid)
  = Ret (Urllib.mkParseResult "https" "youtu.be" ("/" ++ vid) EmptyString EmptyString EmptyString).
Proof.
  intros H. unfold youtube_short_url.
  parse_url "https://youtu.be/" "//youtu.be/" vid.
Qed.

Lemma urlparse_youtube_watch (bo : string -> bool) (vid : string) :
  Str.forallb id_char vid = true ->
  Urllib.urlparse bo (youtube_watch_url vid)
  = Ret (Urllib.mkParseResult "https" "www.youtube.com" "/watch" EmptyString
           ("v=" ++ vid) EmptyString).
Proof.
  intros H. unfold youtube_watch_url.
  parse_url "https://www.youtube.com/watch?v="
    "//www.youtube.com/watch?v=" vid.
Qed.

Lemma urlparse_instagram_post (bo : string -> bool) (vid : string) :
  Str.forallb id_char vid = true ->
  exists parsed, Urllib.urlparse bo (instagram_post_url vid) = Ret parsed.
Proof.
  intros H. unfold instagram_post_url. eexists.
  parse_url "https://www.instagram.com/p/" "//www.instagram.com/p/" vid.
Qed.

Lemma urlparse_tiktok_video (bo : string -> bool) (vid : string) :
  Str.forallb id_char vid = true ->
  exists parsed, Urllib.urlparse bo (tiktok_video_url vid) = Ret parsed.
Proof.
  intros H. unfold tiktok_video_url. eexists.
  parse_url "https://www.tiktok.com/@user/video/"
    "//www.tiktok.com/@user/video/" vid.
Qed.

Lemma urlparse_twitter_status (bo : string -> bool) (vid : string) :
  Str.forallb id_char vid = true ->
  exists parsed, Urllib.urlparse bo (twitter_status_url vid) = Ret parsed.
Proof.
  intros H. unfold twitter_status_url. eexists.
  parse_url "https://twitter.com/user/status/"
    "//twitter.com/user/status/" vid.
Qed.

Lemma take_all (s : string) : Str.take (String.length s) s = s.
Proof. induction s as [|x s IH]; cbn; [reflexivity|]. now rewrite IH. Qed.

Lemma take_span (n : nat) (s : string) :
  Str.take (n + String.length s - n) s = s.
Proof. rewrite Nat.add_comm, Nat.add_sub. apply take_all. Qed.

(** A greedy repetition of a class over a subject made only of
    characters of the class takes the whole subject. *)
Lemma rep_loop_class (items : list citem) (vid : string) :
  forall (fuel lo pos : nat) (g : groups) (k : cont),
    Str.forallb (set_match false items) vid = true ->
    String.length vid < fuel ->
    lo <= String.length vid ->
    k (pos + String.length vid) EmptyString g <> None ->
    rep_loop (exec false (Set_ items)) fuel lo None pos vid g k
    = k (pos + String.length vid) EmptyString g.
Proof.
  induction vid as [|x s IH]; intros fuel lo pos g k Hall Hfuel Hlo Hk;
    (destruct fuel as [|fuel]; [cbn in Hfuel; lia|]);
    cbn [String.length] in *.
  - replace lo with 0 by lia. cbn. now rewrite Nat.add_0_r.
  - cbn [Str.forallb] in Hall. apply andb_prop in Hall as [Hx Hs].
    cbn [rep_loop exec option_map]. rewrite Hx, succ_eqb_false.
    rewrite IH; try assumption; try lia.
    + replace (S pos + String.length s) with (pos + S (String.length s))
        by lia.
      destruct (k (pos + S (String.length s)) EmptyString g); [reflexivity|].
      now elim Hk.
    + replace (S pos + String.length s) with (pos + S (String.length s))
        by lia.
      exact Hk.
Qed.

Lemma digits_class (s : string) :
  Str.forallb Str.isdigit s = true ->
  Str.forallb (set_match false [CDigit]) s = true.
Proof.
  induction s as [|x s IH]; cbn [Str.forallb]; [reflexivity|].
  intros H. apply andb_prop in H as [Hx Hs].
  unfold set_match at 1. cbn [existsb item_match andb].
  now rewrite Hx, IH.
Qed.

Lemma isdigit_id_char (c : ascii) : Str.isdigit c = true -> id_char c = true.
Proof. chr_case c. Qed.

Lemma digits_id_chars (s : string) :
  Str.forallb Str.isdigit s = true -> Str.forallb id_char s = true.
Proof.
  induction s as [|x s IH]; cbn [Str.forallb]; [reflexivity|].
  intros H. apply andb_prop in H as [Hx Hs].
  now rewrite (isdigit_id_char x Hx), IH.
Qed.

Ltac run_regex :=
  cbv beta iota;
  cbn [search search_from exec lit chr_eq accept group_of group
       String.append Ascii.eqb Bool.eqb andb orb negb Nat.eqb].

Lemma search_tiktok (vid : string) :
  numeric_id vid = true ->
  group_of 1 (search false tiktok_pattern (tiktok_video_url vid)) = Some vid.
Proof.
  unfold numeric_id. intros H. apply andb_prop in H as [Hne Hd].
  unfold tiktok_pattern, tiktok_video_url, plus, digit. run_regex.
  rewrite (rep_loop_class [CDigit]).
  - run_regex. now rewrite take_span.
  - now apply digits_class.
  - lia.
  - destruct vid; [discriminate|cbn; lia].
  - discriminate.
Qed.

Lemma search_twitter (vid : string) :
  numeric_id vid = true ->
  group_of 1 (search false twitter_pattern (twitter_status_url vid))
  = Some vid.
Proof.
  unfold numeric_id. intros H. apply andb_prop in H as [Hne Hd].
  unfold twitter_pattern, twitter_status_url, plus, digit. run_regex.
  rewrite (rep_loop_class [CDigit]).
  - run_regex. now rewrite take_span.
  - now apply digits_class.
  - lia.
  - destruct vid; [discriminate|cbn; lia].
  - discriminate.
Qed.

Lemma search_instagram (vid : string) :
  well_formed_id vid = true ->
  group_of 2 (search false instagram_pattern (instagram_post_url vid))
  = Some vid.
Proof.
  unfold well_formed_id. intros H. apply andb_prop in H as [Hne Hd].
  unfold instagram_pattern, instagram_post_url, plus, shortcode_char.
  run_regex.
  rewrite (rep_loop_class
             [CRange "A" "Z"; CRange "a" "z"; CRange "0" "9"; CChar "_";
              CChar "-"]).
  - run_regex. now rewrite take_span.
  - exact Hd.
  - lia.
  - destruct vid; [discriminate|cbn; lia].
  - discriminate.
Qed.

Lemma not_empty (s : string) :
  negb (Str.is_empty s) = true -> Str.is_empty s = false.
Proof. now destruct s. Qed.

Section ExtractId.

Variable E : Env.

Lemma extract_youtube_short (vid : string) :
  well_formed_id vid = true ->
  extract_video_id_body E (youtube_short_url vid) "youtube" = Ret (Some vid).
Proof.
  unfold well_formed_id. intros H. apply andb_prop in H as [Hne Hd].
  unfold extract_video_id_body. rewrite urlparse_youtube_short by exact Hd.
  unfold youtube_short_url. run_string. reflexivity.
Qed.

Lemma extract_youtube_watch (vid : string) :
  well_formed_id vid = true ->
  extract_video_id_body E (youtube_watch_url vid) "youtube" = Ret (Some vid).
Proof.
  unfold well_formed_id. intros H. apply andb_prop in H as [Hne Hd].
  apply not_empty in Hne.
  unfold extract_video_id_body. rewrite urlparse_youtube_watch by exact Hd.
  unfold youtube_watch_url. run_string.
  rewrite (contains_absent id_char "youtu.be" vid Hd)
    by (vm_compute; reflexivity).
  run_string.
  unfold Urllib.parse_qs, Urllib.parse_qsl. cbn [Urllib.query]. run_string.
  rewrite (split_other "&") by no_char.
  cbn [flat_map]. run_string. rewrite Hne.
  unfold Urllib.unquote. run_string.
  rewrite (replace_char_other "+") by no_char.
  rewrite (contains_other "%") by no_char.
  reflexivity.
Qed.

Lemma extract_instagram (vid : string) :
  well_formed_id vid = true ->
  extract_video_id_body E (instagram_post_url vid) "instagram"
  = Ret (Some vid).
Proof.
  intros H. unfold extract_video_id_body.
  destruct (urlparse_instagram_post (bracketed_netloc_ok E) vid)
    as [parsed ->].
  { unfold well_formed_id in H. now apply andb_prop in H as [_ H]. }
  cbn [String.eqb Ascii.eqb Bool.eqb]. now rewrite search_instagram.
Qed.

Lemma extract_tiktok (vid : string) :
  numeric_id vid = true ->
  extract_video_id_body E (tiktok_video_url vid) "tiktok" = Ret (Some vid).
Proof.
  intros H. unfold extract_video_id_body.
  destruct (urlparse_tiktok_video (bracketed_netloc_ok E) vid)
    as [parsed ->].
  { unfold numeric_id in H. apply andb_prop in H as [_ H].
    now apply digits_id_chars. }
  cbn [String.eqb Ascii.eqb Bool.eqb]. now rewrite search_tiktok.
Qed.

Lemma extract_twitter (vid : string) :
  numeric_id vid = true ->
  extract_video_id_body E (twitter_status_url vid) "twitter" = Ret (Some vid).
Proof.
  intros H. unfold extract_video_id_body.
  destruct (urlparse_twitter_status (bracketed_netloc_ok E) vid)
    as [parsed ->].
  { unfold numeric_id in H. apply andb_prop in H as [_ H].
    now apply digits_id_chars. }
  cbn [String.eqb Ascii.eqb Bool.eqb]. now rewrite search_twitter.
Qed.

Lemma extract_video_id_ret (url platform : string) (r : option string)
    (w : world) :
  extract_video_id_body E url platform = Ret r ->
  extract_video_id E url platform w = (Ret r, w).
Proof.
  intros H. unfold extract_video_id, try_except, lift. now rewrite H.
Qed.

End ExtractId.

(** C9. [extract_video_id] gives back the id from which the canonical
    URL of a platform was built: for a well-formed id (one or more of
    [A-Za-z0-9_-]) with the two YouTube forms and the Instagram post form,
    and for a numeric id (one or more digits) with the TikTok video and
    Twitter status forms.  Nothing is logged. *)
Theorem extract_video_id_round_trip (E : Env) (vid : string) (w : world) :
  (well_formed_id vid = true ->
   extract_video_id E (youtube_short_url vid) "youtube" w = (Ret (Some vid), w)
   /\ extract_video_id E (youtube_watch_url vid) "youtube" w
      = (Ret (Some vid), w)
   /\ extract_video_id E (instagram_post_url vid) "instagram" w
      = (Ret (Some vid), w))
  /\ (numeric_id vid = true ->
      extract_video_id E (tiktok_video_url vid) "tiktok" w
      = (Ret (Some vid), w)
      /\ extract_video_id E (twitter_status_url vid) "twitter" w
         = (Ret (Some vid), w)).
Proof.
  split; intros H; repeat split; apply extract_video_id_ret.
  - now apply extract_youtube_short.
  - now apply extract_youtube_watch.
  - now apply extract_instagram.
  - now apply extract_tiktok.
  - now apply extract_twitter.
Qed.

Lemma extract_video_id_round_trip_witness :
  let E := test_env [] JNull in
  extract_video_id E "https://youtu.be/dQw4w9WgXcQ" "youtube" empty_world
  = (Ret (Some "dQw4w9WgXcQ"), empty_world)
  /\ extract_video_id E "https://www.tiktok.com/@user/video/7301" "tiktok"
       empty_world
     = (Ret (Some "7301"), empty_world).
Proof.
  cbv zeta. split.
  - apply (proj1 (extract_video_id_round_trip (test_env [] JNull)
                    "dQw4w9WgXcQ" empty_world)).
    reflexivity.
  - apply (proj2 (extract_video_id_round_trip (test_env [] JNull)
                    "7301" empty_world)).
    reflexivity.
Defined.

(* ===================================================================== *)
(** * Further properties of the program *)
(* ===================================================================== *)

(** ** Console input *)

(** X1. [get_menu_choice] answers only with -1 (the user typed exit, quit
    or q, or pressed the interrupt key) or with a number between [min_val]
    and [max_val]; it reads at least one input for that, and the only
    exception it lets through is the [EOFError] of an exhausted input. *)
Theorem get_menu_choice_in_range (prompt : string) (min_val max_val : Z)
    (stdin : list keyboard) :
  forall (w w' : world),
    (forall (n : Z) (rest : list keyboard),
        get_menu_choice prompt min_val max_val stdin w = (Ret (n, rest), w') ->
        (n = (-1)%Z \/ (min_val <= n <= max_val)%Z)
        /\ length rest < length stdin)
    /\ (forall e : exn,
           get_menu_choice prompt min_val max_val stdin w = (Raise e, w') ->
           e = OtherException "EOFError").
Proof.
  induction stdin as [|k stdin IH]; intros w w'.
  - split; intros; cbn in H; [discriminate|]. now injection H as <- _.
  - cbn [get_menu_choice]. unfold print_colored, print_error, print_colored.
    destruct k as [raw|].
    + rewrite (bind_ret_run _ (emit_run _ _)).
      destruct (one_of _ (Str.lower (Str.strip raw))).
      { split; intros; [|discriminate]. injection H as <- <- _.
        split; [now left|cbn; lia]. }
      destruct (py_int (Str.strip raw)) as [n0|].
      * destruct ((min_val <=? n0)%Z && (n0 <=? max_val)%Z) eqn:Hr.
        { split; intros; [|discriminate]. injection H as <- <- _.
          split; [right; lia|cbn; lia]. }
        rewrite (bind_ret_run _ (emit_run _ _)).
        destruct (IH (extend (extend w [Print Plain [Txt prompt]])
                        [Print Error [Txt "Please enter a number between ";
                                      Val (JNum min_val); Txt " and ";
                                      Val (JNum max_val)]]) w')
          as [H1 H2].
        split; [|exact H2]. intros n rest H.
        destruct (H1 n rest H). split; [assumption|cbn; lia].
      * rewrite (bind_ret_run _ (emit_run _ _)).
        destruct (IH (extend (extend w [Print Plain [Txt prompt]])
                        [Print Error [Txt "Please enter a valid number"]]) w')
          as [H1 H2].
        split; [|exact H2]. intros n rest H.
        destruct (H1 n rest H). split; [assumption|cbn; lia].
    + split; intros; [|discriminate]. cbn in H. injection H as <- <- _.
      split; [now left|cbn; lia].
Qed.

Lemma get_menu_choice_in_range_witness :
  let stdin := [Line "nine"; Line "9"; Line " 3 "; Line "2"] in
  let run := get_menu_choice "Select platform: " 1 7 stdin empty_world in
  fst run = Ret (3%Z, [Line "2"])
  /\ ((3 = -1 \/ 1 <= 3 <= 7)%Z /\ length [Line "2"] < length stdin).
Proof.
  cbv zeta. split; [vm_compute; reflexivity|].
  apply (proj1 (get_menu_choice_in_range "Select platform: " 1 7
                  [Line "nine"; Line "9"; Line " 3 "; Line "2"] empty_world
                  (snd (get_menu_choice "Select platform: " 1 7
                          [Line "nine"; Line "9"; Line " 3 "; Line "2"]
                          empty_world)))).
  vm_compute. reflexivity.
Defined.

(** X2. A URL returned by [get_url_input] is one of the typed lines,
    stripped; it is not blank, it is a valid URL, and at least one input
    was read for it. *)
Theorem get_url_input_valid (stdin : list keyboard) :
  forall (w w' : world) (url : string) (rest : list keyboard),
    get_url_input stdin w = (Ret (Some url, rest), w') ->
    is_valid_url url = true
    /\ Str.is_empty url = false
    /\ (exists raw, In (Line raw) stdin /\ url = Str.strip raw)
    /\ length rest < length stdin.
Proof.
  induction stdin as [|k stdin IH]; intros w w' url rest H.
  - cbn in H. discriminate.
  - cbn [get_url_input] in H.
    unfold print_colored, print_error, print_warning, print_colored in H.
    destruct k as [raw|].
    + rewrite (bind_ret_run _ (emit_run _ _)) in H.
      destruct (one_of _ (Str.lower (Str.strip raw))); [discriminate|].
      destruct (Str.is_empty (Str.strip raw)) eqn:He; [discriminate|].
      destruct (is_valid_url (Str.strip raw)) eqn:Hv; cbn [negb] in H.
      * injection H as <- <- _.
        split; [exact Hv|]. split; [exact He|]. split; [|cbn; lia].
        exists raw. split; [now left|reflexivity].
      * rewrite (bind_ret_run _ (emit_run _ _)) in H.
        destruct (IH _ _ _ _ H) as (H1 & H2 & (r & Hin & Hr) & Hl).
        split; [exact H1|]. split; [exact H2|]. split; [|cbn; lia].
        exists r. split; [now right|exact Hr].
    + cbn in H. discriminate.
Qed.

Lemma get_url_input_valid_witness :
  let stdin := [Line "youtube.com/watch"; Line "  https://youtu.be/abc  ";
                Line "back"] in
  fst (get_url_input stdin empty_world)
  = Ret (Some "https://youtu.be/abc", [Line "back"])
  /\ is_valid_url "https://youtu.be/abc" = true.
Proof.
  cbv zeta. split; [vm_compute; reflexivity|].
  apply (get_url_input_valid
           [Line "youtube.com/watch"; Line "  https://youtu.be/abc  ";
            Line "back"] empty_world
           (snd (get_url_input
                   [Line "youtube.com/watch";
                    Line "  https://youtu.be/abc  "; Line "back"]
                   empty_world))
           "https://youtu.be/abc" [Line "back"]).
  vm_compute. reflexivity.
Defined.

(** ** The lines of a batch file *)

Lemma lstrip_head (s : string) :
  match Str.lstrip s with
  | EmptyString => True
  | String c _ => Str.isspace c = false
  end.
Proof.
  induction s as [|c s IH]; cbn; [exact I|].
  destruct (Str.isspace c) eqn:Hc; [exact IH|exact Hc].
Qed.

Lemma lstrip_fixed (c : ascii) (s : string) :
  Str.isspace c = false -> Str.lstrip (String c s) = String c s.
Proof. intros H. cbn. now rewrite H. Qed.

Lemma rstrip_head (c : ascii) (s : string) :
  Str.isspace c = false -> exists r, Str.rstrip (String c s) = String c r.
Proof.
  intros H. cbn. destruct (Str.rstrip s); [rewrite H|]; eauto.
Qed.

Lemma rstrip_idem (s : string) : Str.rstrip (Str.rstrip s) = Str.rstrip s.
Proof.
  induction s as [|c s IH]; [reflexivity|]. cbn [Str.rstrip].
  destruct (Str.rstrip s) as [|c' r] eqn:Hr.
  - destruct (Str.isspace c) eqn:Hc; [reflexivity|]. cbn. now rewrite Hc.
  - cbn [Str.rstrip]. cbn [Str.rstrip] in IH.
    destruct (Str.rstrip r) as [|c'' r'] eqn:Hr'.
    + destruct (Str.isspace c') eqn:Hc'; [discriminate|].
      now rewrite IH.
    + now rewrite IH.
Qed.

Lemma strip_idem (s : string) : Str.strip (Str.strip s) = Str.strip s.
Proof.
  unfold Str.strip. pose proof (lstrip_head s) as Hh.
  destruct (Str.lstrip s) as [|c t]; [reflexivity|].
  destruct (rstrip_head c t Hh) as [r Hr]. rewrite Hr.
  rewrite (lstrip_fixed c r Hh), <- Hr. apply rstrip_idem.
Qed.

Lemma read_urls_cons (line : string) (lines : list string) :
  read_urls (line :: lines)
  = if Str.is_empty (Str.strip line) then read_urls lines
    else Str.strip line :: read_urls lines.
Proof.
  unfold read_urls. cbn [filter].
  destruct (Str.is_empty (Str.strip line)); reflexivity.
Qed.

(** X3. The URLs of a batch are the lines of its file, each stripped of
    the white space around it, without those that are then empty, in the
    order of the file and as many times as they occur.  So a string is one of
    the URLs exactly when it is not empty and is what stripping some line
    leaves; stripping a URL again changes nothing; there are no more URLs
    than lines; and reading the URLs a second time gives the same list. *)
Theorem read_urls_stripped (lines : list string) :
  read_urls lines
  = filter (fun url => negb (Str.is_empty url)) (map Str.strip lines)
  /\ (forall url : string,
         In url (read_urls lines)
         <-> Str.is_empty url = false
             /\ exists line, In line lines /\ Str.strip line = url)
  /\ Forall (fun url => Str.strip url = url) (read_urls lines)
  /\ length (read_urls lines) <= length lines
  /\ read_urls (read_urls lines) = read_urls lines.
Proof.
  assert (H0 : read_urls lines
               = filter (fun url => negb (Str.is_empty url))
                   (map Str.strip lines)).
  { induction lines as [|l lines IH]; [reflexivity|].
    rewrite read_urls_cons. cbn [map filter].
    destruct (Str.is_empty (Str.strip l)); cbn [negb]; now rewrite IH. }
  assert (H1 : Forall (fun url => Str.is_empty url = false
                                  /\ Str.strip url = url) (read_urls lines)).
  { clear H0. induction lines as [|l lines IH]; [constructor|].
    rewrite read_urls_cons.
    destruct (Str.is_empty (Str.strip l)) eqn:He.
    - exact IH.
    - constructor; [|exact IH].
      split; [exact He|apply strip_idem]. }
  split; [exact H0|]. split; [|split; [|split]].
  - intros url. rewrite H0, filter_In, in_map_iff. split.
    + intros [(line & Hl & Hin) Hne]. split.
      * now destruct (Str.is_empty url).
      * exists line. auto.
    + intros [Hne (line & Hin & Hl)]. split.
      * exists line. auto.
      * now rewrite Hne.
  - eapply Forall_impl; [|exact H1]. intros url [_ H]. exact H.
  - unfold read_urls. rewrite length_map. apply filter_length_le.
  - clear H0. induction H1 as [|u us [Hu1 Hu2] _ IH]; [reflexivity|].
    rewrite read_urls_cons, Hu2, Hu1. now rewrite IH.
Qed.

Lemma read_urls_stripped_witness :
  read_urls ["  https://youtu.be/abc "; "   "; EmptyString; "https://x.com/a"]
  = ["https://youtu.be/abc"; "https://x.com/a"]
  /\ In "https://youtu.be/abc"
       (read_urls ["  https://youtu.be/abc "; "   "; EmptyString;
                   "https://x.com/a"]).
Proof.
  split; [reflexivity|].
  apply (proj2 (proj1 (proj2 (read_urls_stripped
                                ["  https://youtu.be/abc "; "   ";
                                 EmptyString; "https://x.com/a"]))
                  "https://youtu.be/abc")).
  split; [reflexivity|].
  exists "  https://youtu.be/abc ". split; [now left|reflexivity].
Defined.

(** ** A batch whose file cannot be used *)

Lemma read_urls_blank (lines : list string) :
  Forall (fun line => Str.strip line = EmptyString) lines ->
  read_urls lines = [].
Proof.
  unfold read_urls. induction 1 as [|l lines Hl _ IH]; [reflexivity|].
  cbn [filter]. rewrite Hl. exact IH.
Qed.

Lemma batch_handler_returns (filepath : string) (e : exn) (w : world) :
  exists (a : unit) (w' : world),
    match e with
    | FileNotFoundError _ =>
        print_error [Txt "File not found: "; Txt filepath]
    | _ => print_error [Txt "Batch download failed: "; Exc e]
    end w = (Ret a, w').
Proof. destruct e; eexists _, _; reflexivity. Qed.



(** ** The options and the outcome of the generic strategy *)

Lemma get_ydl_options_fields (E : Env) (platform : string)
    (quality : option string) (dir : string) :
  let o := get_ydl_options E platform (quality) (Some dir) in
  dict_get "outtmpl" o = Some (JStr (path_join dir "%(title)s.%(ext)s"))
  /\ dict_get "noplaylist" o = Some (JBool true)
  /\ dict_get "writethumbnail" o = Some (JBool true)
  /\ dict_get "writeinfojson" o = Some (JBool true)
  /\ dict_get "writesubtitles" o = Some (JBool false)
  /\ dict_get "format" o
     = Some (JStr (if String.eqb platform "youtube" then youtube_format
                   else or_str quality Config.DEFAULT_QUALITY))
  /\ dict_get "merge_output_format" o
     = (if String.eqb platform "youtube" then Some (JStr "mp4") else None)
  /\ dict_get "cookiefile" o
     = (if String.eqb platform "instagram" then Some (JStr "cookies.txt")
        else None).
Proof.
  cbv zeta. unfold get_ydl_options.
  destruct (String.eqb platform "youtube") eqn:Hy.
  - apply String.eqb_eq in Hy. subst platform. repeat split; reflexivity.
  - destruct (String.eqb platform "instagram"); repeat split; reflexivity.
Qed.

(** X5. Whatever the platform and the quality, the generic strategy calls
    yt-dlp for the given URL with playlists off, thumbnail and metadata
    files on, subtitles off, and an output template inside the platform
    folder.  For YouTube the format is a fixed one (best video up to 1080
    lines plus best audio, merged to mp4) and the chosen quality has no
    effect; for every other platform the format is the chosen quality, or
    ["best"] when none is given. *)
Theorem ytdlp_call_options (E : Env) (url platform : string)
    (quality : option string) (w : world) :
  Forall (fun e =>
            match e with
            | YdlExtractInfo u o =>
                u = url
                /\ dict_get "outtmpl" o
                   = Some (JStr (path_join
                                   (path_join (DOWNLOAD_PATH E)
                                      (Str.capitalize platform))
                                   "%(title)s.%(ext)s"))
                /\ dict_get "noplaylist" o = Some (JBool true)
                /\ dict_get "writethumbnail" o = Some (JBool true)
                /\ dict_get "writeinfojson" o = Some (JBool true)
                /\ dict_get "writesubtitles" o = Some (JBool false)
                /\ dict_get "format" o
                   = Some (JStr (if String.eqb platform "youtube"
                                 then youtube_format
                                 else or_str quality Config.DEFAULT_QUALITY))
                /\ dict_get "merge_output_format" o
                   = (if String.eqb platform "youtube"
                      then Some (JStr "mp4") else None)
            | _ => True
            end)
    (emitted (download_with_ytdlp E url platform quality) w).
Proof.
  destruct (download_with_ytdlp_performs E url platform quality w)
    as (b & evs & Hrun & Hev).
  rewrite (emitted_extend _ _ _ _ Hrun).
  eapply Forall_impl; [|exact Hev].
  intros e He. destruct e; try exact I. destruct He as [-> ->].
  destruct (get_ydl_options_fields E platform quality
              (path_join (DOWNLOAD_PATH E) (Str.capitalize platform)))
    as (H1 & H2 & H3 & H4 & H5 & H6 & H7 & _).
  repeat split; assumption.
Qed.

Lemma ytdlp_run (E : Env) (url platform : string) (quality : option string)
    (w : world) :
  let dir := path_join (DOWNLOAD_PATH E) (Str.capitalize platform) in
  let options := get_ydl_options E platform quality (Some dir) in
  let start :=
    [Mkdir dir;
     Print Info [Txt "Starting download from ";
                 Txt (Str.capitalize platform); Txt "..."];
     Print Info [Txt "Quality: "; Txt (or_str quality Config.DEFAULT_QUALITY)];
     Print Info [Txt "Save location: "; Txt dir];
     YdlExtractInfo url options] in
  exists tail : list event,
    filter is_ydl_call tail = []
    /\ download_with_ytdlp E url platform quality w
       = match fs_mkdir E (extend w [Mkdir dir]) dir with
         | Raise e => (Ret false, extend w (Mkdir dir :: tail))
         | Ret _ =>
             match ydl_extract_info E (extend w start) url options with
             | Ret (Some (kv :: d)) => (Ret true, extend w (start ++ tail))
             | _ => (Ret false, extend w (start ++ tail))
             end
         end.
Proof.
  cbv zeta.
  unfold download_with_ytdlp, try_except, create_platform_folder, bind,
    call, print_info, print_success, print_error, print_colored,
    logger_error, emit, ret, extend.
  cbv beta iota. cbn [trace files].
  match goal with
  | |- context [fs_mkdir ?S ?W ?d] =>
      pose proof (mkdir_tame (services_undisturbed E) W d) as Hm;
      destruct (fs_mkdir S W d) as [[]|e0]
  end.
  - cbn [trace files]. rewrite <- !app_assoc. cbn [app].
    match goal with
    | |- context [ydl_extract_info _ ?W url ?O] =>
        pose proof (extract_info_tame (services_undisturbed E) W url O) as Hy;
        destruct (ydl_extract_info E W url O) as [[[|kv d]|]|e1]
    end; cbn [tame] in Hy; rewrite ?Hy;
      cbn [trace files]; rewrite <- ?app_assoc; cbn [app];
      (eexists; split; [|reflexivity]); reflexivity.
  - cbn [tame] in Hm. rewrite Hm.
    cbn [trace files]. rewrite <- ?app_assoc. cbn [app].
    eexists. split; [|reflexivity]. reflexivity.
Qed.



(** ** What a match can capture *)

(** A successful match ends in a successful call of its continuation. *)
Lemma rep_loop_some_cont (step : matcher) :
  (forall pos s g k r, step pos s g k = Some r ->
                       exists p' s' g', k p' s' g' = Some r) ->
  forall fuel lo hi pos s g k r,
    rep_loop step fuel lo hi pos s g k = Some r ->
    exists p' s' g', k p' s' g' = Some r.
Proof.
  intros Hstep. induction fuel as [|fuel IH]; intros lo hi pos s g k r H;
    cbn [rep_loop] in H.
  - destruct (lo =? 0); [eauto|discriminate].
  - match type of H with
    | match ?m with _ => _ end = _ => destruct m as [r'|] eqn:Hm
    end.
    + injection H as ->.
      destruct hi as [[|h]|];
        try discriminate;
        (apply Hstep in Hm as (p' & s' & g' & Hk);
         destruct (p' =? pos); [discriminate|]; exact (IH _ _ _ _ _ _ _ Hk)).
    + destruct (lo =? 0); [eauto|discriminate].
Qed.

Lemma exec_some_cont (ic : bool) (a : regex) :
  forall pos s g k r,
    exec ic a pos s g k = Some r -> exists p' s' g', k p' s' g' = Some r.
Proof.
  induction a as [|c|items|a IHa b IHb|a IHa b IHb|a IHa lo hi|n a IHa| |];
    intros pos s g k r H; cbn [exec] in H.
  - eauto.
  - destruct s as [|x s]; [discriminate|].
    destruct (chr_eq ic c x); [eauto|discriminate].
  - destruct s as [|x s]; [discriminate|].
    destruct (set_match ic items x); [eauto|discriminate].
  - apply IHa in H as (p' & s' & g' & H). exact (IHb _ _ _ _ _ H).
  - destruct (exec ic a pos s g k) as [r'|] eqn:Ha.
    + injection H as ->. exact (IHa _ _ _ _ _ Ha).
    + exact (IHb _ _ _ _ _ H).
  - exact (rep_loop_some_cont (exec ic a) IHa _ _ _ _ _ _ _ _ H).
  - apply IHa in H as (p' & s' & g' & H). eauto.
  - destruct (pos =? 0); [eauto|discriminate].
  - destruct s as [|c [|c' s]]; [eauto| |discriminate].
    destruct (Ascii.eqb c "010"); [eauto|discriminate].
Qed.

(** What a greedy repetition of a class can consume: [n] characters of the
    class, at least [lo] of them. *)
Lemma rep_loop_class_inv (items : list citem) :
  forall fuel lo hi pos s g k r,
    rep_loop (exec false (Set_ items)) fuel lo hi pos s g k = Some r ->
    exists n,
      lo <= n /\ n <= String.length s
      /\ Str.forallb (set_match false items) (Str.take n s) = true
      /\ k (pos + n) (Str.drop n s) g = Some r.
Proof.
  induction fuel as [|fuel IH]; intros lo hi pos s g k r H;
    cbn [rep_loop] in H.
  - destruct (Nat.eqb_spec lo 0); [|discriminate].
    exists 0. rewrite Nat.add_0_r. cbn. repeat split; auto; lia.
  - match type of H with
    | match ?m with _ => _ end = _ => destruct m as [r'|] eqn:Hm
    end.
    + injection H as ->.
      assert (Hstep : exec false (Set_ items) pos s g
                        (fun pos' s' g' =>
                           if pos' =? pos then None
                           else rep_loop (exec false (Set_ items)) fuel
                                  (pred lo) (option_map pred hi) pos' s' g' k)
                      = Some r).
      { destruct hi as [[|h]|]; [discriminate|exact Hm|exact Hm]. }
      clear Hm. cbn [exec] in Hstep.
      destruct s as [|x s]; [discriminate|].
      destruct (set_match false items x) eqn:Hx; [|discriminate].
      rewrite succ_eqb_false in Hstep.
      apply IH in Hstep as (n & Hlo & Hlen & Hall & Hk).
      exists (S n). cbn [String.length Str.take Str.drop Str.forallb].
      rewrite Hx, Hall. replace (pos + S n) with (S pos + n) by lia.
      repeat split; auto; lia.
    + destruct (Nat.eqb_spec lo 0); [|discriminate].
      exists 0. rewrite Nat.add_0_r. cbn. repeat split; auto; lia.
Qed.

Lemma search_from_exec (ic : bool) (r : regex) (s : string) :
  forall pos g,
    search_from ic r pos s = Some g ->
    exists pos' s', exec ic r pos' s' [] accept = Some g.
Proof.
  induction s as [|x s IH]; intros pos g H; cbn [search_from] in H.
  - destruct (exec ic r pos EmptyString [] accept) eqn:He; [|discriminate].
    injection H as ->. eauto.
  - destruct (exec ic r pos (String x s) [] accept) eqn:He.
    + injection H as ->. eauto.
    + exact (IH _ _ H).
Qed.

(** The text captured by a final group [(class+)]. *)
Lemma final_group_class (n : nat) (items : list citem) (pos : nat)
    (s : string) (g r : groups) :
  exec false (Grp n (plus (Set_ items))) pos s g accept = Some r ->
  exists t,
    group n r = Some t
    /\ Str.is_empty t = false
    /\ Str.forallb (set_match false items) t = true.
Proof.
  unfold plus. cbn [exec]. intros H.
  apply rep_loop_class_inv in H as (m & Hlo & Hlen & Hall & Hk).
  unfold accept in Hk. injection Hk as <-.
  replace (pos + m - pos) with m by lia.
  exists (Str.take m s). cbn [group]. rewrite Nat.eqb_refl.
  split; [reflexivity|]. split; [|exact Hall].
  destruct m; [lia|]. destruct s; [cbn in Hlen; lia|reflexivity].
Qed.

Lemma digit_class_isdigit (t : string) :
  Str.forallb (set_match false [CDigit]) t = true ->
  Str.forallb Str.isdigit t = true.
Proof.
  induction t as [|x t IH]; cbn [Str.forallb]; [reflexivity|].
  intros H. apply andb_prop in H as [Hx Ht].
  unfold set_match in Hx. cbn [existsb item_match andb] in Hx.
  rewrite !orb_false_r in Hx. now rewrite Hx, IH.
Qed.

Lemma exec_seq_inv (ic : bool) (a b : regex) (pos : nat) (s : string)
    (g : groups) (k : cont) (r : groups) :
  exec ic (Seq a b) pos s g k = Some r ->
  exists p' s' g', exec ic b p' s' g' k = Some r.
Proof.
  intros H. change (exec ic a pos s g
                      (fun pos' s' g' => exec ic b pos' s' g' k) = Some r) in H.
  exact (exec_some_cont ic a _ _ _ _ _ H).
Qed.

Lemma numeric_pattern_sound (prefix : string) (s : string) (g : groups) :
  search false (Seq (lit prefix) (Grp 1 (plus digit))) s = Some g ->
  exists t, group 1 g = Some t /\ numeric_id t = true.
Proof.
  unfold search. intros H.
  apply search_from_exec in H as (pos & s' & H).
  apply exec_seq_inv in H as (p1 & s1 & g1 & H).
  apply final_group_class in H as (t & Hg & Hne & Hall).
  exists t. split; [exact Hg|]. unfold numeric_id.
  now rewrite Hne, (digit_class_isdigit t Hall).
Qed.

Lemma instagram_pattern_sound (s : string) (g : groups) :
  search false instagram_pattern s = Some g ->
  exists t, group 2 g = Some t /\ well_formed_id t = true.
Proof.
  unfold search, instagram_pattern. intros H.
  apply search_from_exec in H as (pos & s' & H).
  apply exec_chr in H as (x & s1 & -> & _ & H).
  apply exec_seq_inv in H as (p2 & s2 & g2 & H).
  apply exec_chr in H as (y & s3 & -> & _ & H).
  apply final_group_class in H as (t & Hg & Hne & Hall).
  exists t. split; [exact Hg|]. unfold well_formed_id.
  rewrite Hne. exact Hall.
Qed.

Section ExtractSound.

Variable E : Services.

Lemma extract_body_instagram (url sc : string) :
  extract_video_id_body E url "instagram" = Ret (Some sc) ->
  well_formed_id sc = true.
Proof.
  unfold extract_video_id_body.
  destruct (Urllib.urlparse _ url); [|discriminate].
  cbn [String.eqb Ascii.eqb Bool.eqb]. intros [= H].
  destruct (search false instagram_pattern url) as [g|] eqn:Hs;
    [|discriminate].
  apply instagram_pattern_sound in Hs as (t & Hg & Hwf).
  cbn [group_of] in H. congruence.
Qed.

Lemma extract_body_numeric (url platform sc : string) :
  platform = "tiktok" \/ platform = "twitter" ->
  extract_video_id_body E url platform = Ret (Some sc) ->
  numeric_id sc = true.
Proof.
  unfold extract_video_id_body.
  destruct (Urllib.urlparse _ url); [|discriminate].
  intros [-> | ->]; cbn [String.eqb Ascii.eqb Bool.eqb]; intros [= H].
  - destruct (search false tiktok_pattern url) as [g|] eqn:Hs;
      [|discriminate].
    apply numeric_pattern_sound in Hs as (t & Hg & Hn).
    cbn [group_of] in H. congruence.
  - destruct (search false twitter_pattern url) as [g|] eqn:Hs;
      [|discriminate].
    apply numeric_pattern_sound in Hs as (t & Hg & Hn).
    cbn [group_of] in H. congruence.
Qed.

Lemma extract_video_id_value (url platform : string) (w : world) :
  exists r w',
    extract_video_id E url platform w = (Ret r, w')
    /\ (r = None \/ extract_video_id_body E url platform = Ret r).
Proof.
  unfold extract_video_id, try_except, lift, bind, logger_error, emit, ret.
  pose proof (extract_video_id_body_tame E url platform) as Ht.
  destruct (extract_video_id_body E url platform) as [r|e]; [eauto|].
  cbn [tame] in Ht. rewrite Ht. eauto.
Qed.

End ExtractSound.

(** X7. [extract_video_id] never raises, and what it extracts is
    well-formed whatever the URL: an Instagram shortcode is a non-empty
    string of [A-Za-z0-9_-], a TikTok or Twitter id is a non-empty string
    of digits; for a platform other than youtube, instagram, tiktok and
    twitter it extracts nothing. *)
Theorem extract_video_id_sound (E : Env) (url platform : string) (w : world) :
  (exists r w', extract_video_id E url platform w = (Ret r, w'))
  /\ (forall sc w',
         extract_video_id E url platform w = (Ret (Some sc), w') ->
         (platform = "instagram" -> well_formed_id sc = true)
         /\ (platform = "tiktok" \/ platform = "twitter" ->
             numeric_id sc = true)
         /\ In platform ["youtube"; "instagram"; "tiktok"; "twitter"]).
Proof.
  destruct (extract_video_id_value E url platform w) as (r & w1 & Hrun & Hr).
  split; [eauto|]. intros sc w' H. rewrite Hrun in H. injection H as -> _.
  destruct Hr as [Hr|Hr]; [discriminate|].
  split; [|split].
  - intros ->. now apply (extract_body_instagram E url).
  - intros Hp. now apply (extract_body_numeric E url platform).
  - unfold extract_video_id_body in Hr.
    destruct (Urllib.urlparse _ url); [|discriminate].
    destruct (String.eqb_spec platform "youtube"); [subst; cbn; tauto|].
    destruct (String.eqb_spec platform "instagram"); [subst; cbn; tauto|].
    destruct (String.eqb_spec platform "tiktok"); [subst; cbn; tauto|].
    destruct (String.eqb_spec platform "twitter"); [subst; cbn; tauto|].
    discriminate.
Qed.

Lemma extract_video_id_sound_witness :
  extract_video_id (test_env [] JNull)
    "https://www.instagram.com/reel/Cx_9-Ab/?igshid=1" "instagram"
    empty_world
  = (Ret (Some "Cx_9-Ab"), empty_world)
  /\ well_formed_id "Cx_9-Ab" = true.
Proof.
  split; [vm_compute; reflexivity|].
  apply (proj1 (proj2 (extract_video_id_sound (test_env [] JNull)
                         "https://www.instagram.com/reel/Cx_9-Ab/?igshid=1"
                         "instagram" empty_world)
                  "Cx_9-Ab" empty_world ltac:(vm_compute; reflexivity))).
  reflexivity.
Defined.

(** ** The Instagram strategy *)

Lemma download_instagram_run (E : Env) (url : string) (w : world) :
  exists (b : bool) (evs : list event),
    download_instagram E url w = (Ret b, extend w evs)
    /\ Forall (instagram_call_event E url) evs
    /\ (b = true ->
        exists sc dir, In (PostFromShortcode sc) evs
                       /\ In (DownloadPost sc dir) evs)
    /\ ((forall sc, extract_video_id_body E url "instagram" <> Ret (Some sc)) ->
        b = false /\ filter is_instaloader_call evs = []).
Proof.
  unfold download_instagram, create_platform_folder, extract_video_id.
  unfold try_except, bind, call, lift, print_info, print_error,
    print_warning, print_success, print_colored, logger_error, emit, ret.
  cbv beta iota. cbn [trace files].
  mkdir_cases E e0.
  - destruct (extract_video_id_body E url "instagram") as [[sc|]|e1] eqn:Hb.
    + pose proof (extract_body_instagram E url sc Hb) as Hwf.
      destruct (Str.is_empty sc) eqn:He.
      { unfold well_formed_id in Hwf. rewrite He in Hwf. discriminate. }
      cbn [trace files].
      from_shortcode_cases E p e2.
      * download_post_cases E ok e3.
        -- eexists; eexists. split;
             [unfold extend; cbn [trace files]; rewrite <- ?app_assoc;
              cbn [app]; reflexivity|].
           split; [repeat constructor; auto|]. split.
           ++ intros _. eexists; eexists. split; cbn; eauto 10.
           ++ intros Hno. now elim (Hno sc).
        -- destruct e3;
             (eexists; eexists; split;
              [unfold extend; cbn [trace files]; rewrite <- ?app_assoc;
               cbn [app]; reflexivity|];
              split; [repeat constructor; auto|]; split;
              [discriminate|intros Hno; now elim (Hno sc)]).
      * destruct e2;
          (eexists; eexists; split;
           [unfold extend; cbn [trace files]; rewrite <- ?app_assoc;
            cbn [app]; reflexivity|];
           split; [repeat constructor; auto|]; split;
           [discriminate|intros Hno; now elim (Hno sc)]).
    + eexists; eexists. split;
        [unfold extend; cbn [trace files]; rewrite <- ?app_assoc;
         cbn [app]; reflexivity|].
      split; [repeat constructor|]. split; [discriminate|].
      intros _. split; reflexivity.
    + pose proof (extract_video_id_body_tame E url "instagram") as Ht.
      rewrite Hb in Ht. cbn [tame] in Ht. rewrite Ht.
      eexists; eexists. split;
        [unfold extend; cbn [trace files]; rewrite <- ?app_assoc;
         cbn [app]; reflexivity|].
      split; [repeat constructor|]. split; [discriminate|].
      intros _. split; reflexivity.
  - destruct e0;
      (eexists; eexists; split;
       [unfold extend; cbn [trace files]; rewrite <- ?app_assoc;
        cbn [app]; reflexivity|];
       split; [repeat constructor|]; split; [discriminate|];
       intros _; split; reflexivity).
Qed.

(** X8. The Instagram strategy asks instaloader only for the shortcode that
    it extracts from the URL, which is a non-empty string of
    [A-Za-z0-9_-], and it never calls yt-dlp, pauses or opens a file.  It
    reports success only after both instaloader calls (resolving, then
    downloading the post); when no shortcode can be extracted it reports
    failure without calling instaloader. *)
Theorem instagram_calls_extracted_shortcode (E : Env) (url : string)
    (w : world) :
  let evs := emitted (download_instagram E url) w in
  Forall (instagram_call_event E url) evs
  /\ (fst (download_instagram E url w) = Ret true ->
      exists sc dir, In (PostFromShortcode sc) evs
                     /\ In (DownloadPost sc dir) evs)
  /\ ((forall sc, extract_video_id_body E url "instagram" <> Ret (Some sc)) ->
      fst (download_instagram E url w) = Ret false
      /\ filter is_instaloader_call evs = []).
Proof.
  cbv zeta.
  destruct (download_instagram_run E url w) as (b & evs & Hrun & H1 & H2 & H3).
  rewrite (emitted_extend _ _ _ _ Hrun), Hrun. cbn [fst].
  split; [exact H1|]. split.
  - intros [= ->]. now apply H2.
  - intros Hno. destruct (H3 Hno) as [-> Hf]. now split.
Qed.

Lemma instagram_calls_extracted_shortcode_witness :
  fst (download_instagram (test_env [] JNull)
         "https://www.instagram.com/explore/" empty_world) = Ret false
  /\ filter is_instaloader_call
       (emitted (download_instagram (test_env [] JNull)
                   "https://www.instagram.com/explore/") empty_world) = [].
Proof.
  apply (proj2 (proj2 (instagram_calls_extracted_shortcode
                         (test_env [] JNull)
                         "https://www.instagram.com/explore/" empty_world))).
  intros sc. vm_compute. discriminate.
Defined.

(** ** Detected platforms *)

Lemma first_match_in (table : list (string * regex)) (text p : string) :
  first_match table text = Some p -> In p (map fst table).
Proof.
  induction table as [|[q r] table IH]; cbn [first_match map fst];
    [discriminate|].
  destruct (is_some (search false r text)).
  - intros [= ->]. now left.
  - intros H. right. now apply IH.
Qed.

(** X9. A platform detected by [detect_platform] is always one of the
    supported platforms of [Config.SUPPORTED_PLATFORMS], and so never an
    empty name nor ["other"]. *)
Theorem detect_platform_supported (url p : string) :
  detect_platform url = Some p ->
  In p Config.SUPPORTED_PLATFORMS
  /\ Str.is_empty p = false
  /\ p <> "other".
Proof.
  unfold detect_platform. intros H. apply first_match_in in H.
  cbn in H.
  repeat (destruct H as [<-|H];
          [split; [cbn; tauto|split; [reflexivity|discriminate]]|]).
  destruct H.
Qed.

Lemma detect_platform_supported_witness :
  In "twitter" Config.SUPPORTED_PLATFORMS.
Proof.
  apply (detect_platform_supported "https://X.com/user/status/1700" "twitter").
  vm_compute. reflexivity.
Defined.

(** ** The quality setting *)

Lemma set_quality_step (self : QualityManager) (choice : Z) (w : world) :
  exists self' w',
    set_quality self choice w = (Ret self', w')
    /\ quality_map self' = quality_map self
    /\ (quality self' = quality self
        \/ map_get choice (quality_map self) = Some (quality self')).
Proof.
  unfold set_quality, print_colored, print_success, print_error,
    print_colored.
  rewrite (bind_ret_run _ (emit_run _ _)).
  destruct ((choice =? 7)%Z || (choice =? -1)%Z); [unfold ret; eauto 6|].
  destruct (map_get choice (quality_map self)) as [q|] eqn:Hq.
  - rewrite (bind_ret_run _ (emit_run _ _)). unfold ret.
    eexists; eexists. split; [reflexivity|]. split; [reflexivity|].
    right. reflexivity.
  - rewrite (bind_ret_run _ (emit_run _ _)). unfold ret. eauto 6.
Qed.

Lemma map_get_menu (choice : Z) (q : string) :
  map_get choice (quality_map QualityManager_init) = Some q ->
  In q menu_qualities /\ (1 <= choice <= 6)%Z.
Proof.
  cbn [QualityManager_init quality_map map_get].
  repeat (match goal with
          | |- (if (?a =? choice)%Z then _ else _) = _ -> _ =>
              destruct (Z.eqb_spec a choice);
              [intros [= <-]; subst; cbn; split; [tauto|lia]|]
          end).
  discriminate.
Qed.

(** X10. Starting from the default quality, whatever menu choices are
    made, in any order, [set_quality] never raises and the current quality
    is always one of the six qualities of the menu; a choice from 1 to 6
    selects the quality of that menu line, and any other choice leaves the
    quality as it was. *)
Theorem quality_stays_on_menu (choices : list Z) (w : world) :
  (exists q w',
      set_qualities QualityManager_init choices w = (Ret q, w')
      /\ In (get_quality q) menu_qualities)
  /\ (forall (self : QualityManager) (choice : Z),
         quality_map self = quality_map QualityManager_init ->
         exists self' w',
           set_quality self choice w = (Ret self', w')
           /\ get_quality self'
              = match nth_error menu_qualities (Z.to_nat (choice - 1)) with
                | Some q => if (1 <=? choice)%Z then q else get_quality self
                | None => get_quality self
                end).
Proof.
  split.
  - assert (H : forall self w0,
               quality_map self = quality_map QualityManager_init ->
               In (quality self) menu_qualities ->
               exists q w',
                 set_qualities self choices w0 = (Ret q, w')
                 /\ In (get_quality q) menu_qualities).
    { induction choices as [|c choices IH]; intros self w0 Hm Hq.
      - exists self, w0. split; [reflexivity|exact Hq].
      - cbn [set_qualities].
        destruct (set_quality_step self c w0) as (s1 & w1 & Hrun & Hm1 & Hq1).
        rewrite (bind_ret_run _ Hrun). apply IH; [congruence|].
        destruct Hq1 as [->|Hq1]; [exact Hq|].
        rewrite Hm in Hq1. now apply map_get_menu in Hq1. }
    apply H; [reflexivity|cbn; tauto].
  - intros self choice Hm.
    unfold set_quality, print_colored, print_success, print_error,
      print_colored, get_quality.
    rewrite (bind_ret_run _ (emit_run _ _)), Hm.
    cbn [QualityManager_init quality_map map_get menu_qualities].
    destruct (Z.eqb_spec choice 7) as [->|H7]; [cbn; unfold ret; eauto|].
    destruct (Z.eqb_spec choice (-1)) as [->|H1]; [cbn; unfold ret; eauto|].
    cbn [orb].
    destruct (Z.eqb_spec 1 choice) as [<-|?];
      [rewrite (bind_ret_run _ (emit_run _ _)); unfold ret; eauto|].
    destruct (Z.eqb_spec 2 choice) as [<-|?];
      [rewrite (bind_ret_run _ (emit_run _ _)); unfold ret; eauto|].
    destruct (Z.eqb_spec 3 choice) as [<-|?];
      [rewrite (bind_ret_run _ (emit_run _ _)); unfold ret; eauto|].
    destruct (Z.eqb_spec 4 choice) as [<-|?];
      [rewrite (bind_ret_run _ (emit_run _ _)); unfold ret; eauto|].
    destruct (Z.eqb_spec 5 choice) as [<-|?];
      [rewrite (bind_ret_run _ (emit_run _ _)); unfold ret; eauto|].
    destruct (Z.eqb_spec 6 choice) as [<-|?];
      [rewrite (bind_ret_run _ (emit_run _ _)); unfold ret; eauto|].
    rewrite (bind_ret_run _ (emit_run _ _)). unfold ret.
    eexists; eexists. split; [reflexivity|]. cbn [quality].
    destruct (Z.leb_spec 1 choice) as [Hle|Hlt].
    + assert (Hn : exists k, Z.to_nat (choice - 1) = 6 + k).
      { exists (Z.to_nat (choice - 7)). lia. }
      destruct Hn as [k ->]. unfold menu_qualities. cbn.
      destruct k; reflexivity.
    + destruct (nth_error _ _); reflexivity.
Qed.

Lemma quality_stays_on_menu_witness :
  exists self' w',
    set_quality QualityManager_init 3 empty_world = (Ret self', w')
    /\ get_quality self' = "720p".
Proof.
  destruct (proj2 (quality_stays_on_menu [] empty_world)
              QualityManager_init 3%Z eq_refl) as (s & w' & H1 & H2).
  exists s, w'. split; [exact H1|exact H2].
Defined.

(** ** Saving the history *)

Lemma save_history_run (E : Services) (self : DownloadHistory) (w : world) :
  let f := history_file self in
  let dump := json_dump E (history self) in
  let w1 := extend w [OpenWrite f] in
  let failed e := Log [Txt "Error saving history: "; Exc e] in
  save_history E self w
  = match fs_open E w1 f true with
    | Ret _ =>
        match fs_write E w1 f dump with
        | Ret _ => (Ret tt, set_file w1 f dump)
        | Raise e =>
            let w2 := set_file w1 f (Str.take (fs_written E w1 f dump) dump) in
            if is_exception e then (Ret tt, extend w2 [failed e])
            else (Raise e, w2)
        end
    | Raise e =>
        if is_exception e then (Ret tt, extend w [OpenWrite f; failed e])
        else (Raise e, w1)
    end.
Proof.
  cbv zeta.
  unfold save_history, try_except, bind, call, write_file, logger_error,
    emit, extend.
  destruct (fs_open E _ (history_file self) true) as [[]|e].
  - destruct (fs_write E _ _ _) as [[]|e]; [reflexivity|].
    destruct (is_exception e); reflexivity.
  - destruct (is_exception e); [|reflexivity].
    cbn [trace files]. now rewrite <- app_assoc.
Qed.

Lemma add_entry_run (E : Services) (f : string) (l : list json)
    (url platform : string) (success : bool) (filename : option string)
    (w : world) :
  let h := JList (append_capped l
                    (make_entry (now_isoformat E w) url platform success
                       filename)) in
  add_entry E (mkDownloadHistory f (JList l)) url platform success filename w
  = match save_history E (mkDownloadHistory f h) w with
    | (Ret _, w') => (Ret (mkDownloadHistory f h), w')
    | (Raise e, w') => (Raise e, w')
    end.
Proof.
  cbv zeta. unfold add_entry, bind. cbn [history history_file].
  destruct (save_history E _ w) as [[[]|e] w']; reflexivity.
Qed.

(** X11. [add_entry] on a history that is a list keeps the new history in
    memory whether or not it can be written, unless it is interrupted: it
    lets no instance of [Exception] escape.  When the history file opens
    for writing and the dump is written, the file holds the dump of the
    whole new history and no other file changes, and loading the history
    from a file that can be examined, opens and parses back gives the same
    history.  When the file cannot be opened, the failure is logged and no
    file changes.  When the file opens but the writing fails, the failure
    is logged and the file keeps only the part of the dump that was
    written: the previous content is lost.  On a history that is not a list
    (a history file that holds another JSON value) [add_entry] raises
    [AttributeError]. *)
Theorem add_entry_persists (E : Services) (f : string) (l : list json)
    (url platform : string) (success : bool) (filename : option string)
    (w : world) :
  let h := JList (append_capped l
                    (make_entry (now_isoformat E w) url platform success
                       filename)) in
  let run :=
    add_entry E (mkDownloadHistory f (JList l)) url platform success
      filename w in
  let w1 := extend w [OpenWrite f] in
  let dump := json_dump E h in
  let failed e := Log [Txt "Error saving history: "; Exc e] in
  match fst run with
  | Ret self => self = mkDownloadHistory f h
  | Raise e => is_exception e = false
  end
  /\ (fs_open E w1 f true = Ret tt ->
      fs_write E w1 f dump = Ret tt ->
      run = (Ret (mkDownloadHistory f h), set_file w1 f dump)
      /\ files (snd run) f = Some dump
      /\ (forall q, q <> f -> files (snd run) q = files w q)
      /\ (fs_stat E (snd run) f = Ret tt ->
          fs_open E (extend (snd run) [OpenRead f]) f false = Ret tt ->
          json_load E dump = Ret h ->
          fst (load_history E f (snd run)) = Ret h))
  /\ (forall e,
         fs_open E w1 f true = Raise e ->
         is_exception e = true ->
         run = (Ret (mkDownloadHistory f h),
                extend w [OpenWrite f; failed e]))
  /\ (forall e,
         fs_open E w1 f true = Ret tt ->
         fs_write E w1 f dump = Raise e ->
         is_exception e = true ->
         run = (Ret (mkDownloadHistory f h),
                extend (set_file w1 f (Str.take (fs_written E w1 f dump) dump))
                  [failed e]))
  /\ (forall j : json,
         (forall l', j <> JList l') ->
         fst (add_entry E (mkDownloadHistory f j) url platform success
                filename w)
         = Raise (AttributeError "object has no attribute 'append'")).
Proof.
  cbv zeta. rewrite add_entry_run, save_history_run.
  cbv zeta. cbn [history_file history].
  split; [|split; [|split; [|split]]].
  - destruct (fs_open E _ f true) as [[]|e].
    + destruct (fs_write E _ f _) as [[]|e]; [reflexivity|].
      destruct (is_exception e) eqn:He; [reflexivity|exact He].
    + destruct (is_exception e) eqn:He; [reflexivity|exact He].
  - intros Ho Hw. rewrite Ho, Hw. cbn [snd set_file extend trace files].
    split; [reflexivity|]. split; [now rewrite String.eqb_refl|]. split.
    + intros q Hq. destruct (String.eqb_spec q f); [contradiction|reflexivity].
    + intros Hs Hr Hj. rewrite load_history_cases, Hs.
      unfold set_file at 1. cbn [files].
      rewrite String.eqb_refl. rewrite after_extend, Hr, Hj. reflexivity.
  - intros e Ho He. now rewrite Ho, He.
  - intros e Ho Hw He. now rewrite Ho, Hw, He.
  - intros j Hj. unfold add_entry, bind. cbn [history].
    destruct j; try reflexivity. now elim (Hj l0).
Qed.

Lemma add_entry_persists_witness :
  let h := JList [make_entry "2024-01-01T00:00:00" url_youtube "youtube" true
                    None] in
  let run :=
    add_entry (test_services [] h) (mkDownloadHistory history_path (JList []))
      url_youtube "youtube" true None empty_world in
  let lost :=
    add_entry (full_disk (test_services [] h))
      (mkDownloadHistory history_path (JList [])) url_youtube "youtube" true
      None (set_file empty_world history_path "[{...}]") in
  files (snd run) history_path = Some "[]"
  /\ fst (load_history (test_services [] h) history_path (snd run)) = Ret h
  /\ fst lost = Ret (mkDownloadHistory history_path h)
  /\ files (snd lost) history_path = Some "[".
Proof.
  cbv zeta.
  destruct (proj1 (proj2 (add_entry_persists
                            (test_services [] (JList [make_entry
                               "2024-01-01T00:00:00" url_youtube "youtube"
                               true None]))
                            history_path [] url_youtube "youtube" true None
                            empty_world)) eq_refl eq_refl)
    as (_ & Hf & _ & Hl).
  split; [exact Hf|]. split; [apply Hl; reflexivity|].
  rewrite (proj1 (proj2 (proj2 (proj2 (add_entry_persists
                            (full_disk (test_services [] (JList [make_entry
                               "2024-01-01T00:00:00" url_youtube "youtube"
                               true None])))
                            history_path [] url_youtube "youtube" true None
                            (set_file empty_world history_path "[{...}]")))))
             (OtherException "OSError") eq_refl eq_refl eq_refl).
  split; reflexivity.
Defined.

(** ** A single download and its history entry *)

Section Single.

Variable E : Env.

Lemma single_prelude_run (self : MediaDownloaderApp) (platform_choice : Z)
    (url : string) (k : string -> M MediaDownloaderApp) (w : world) :
  let q := get_quality (quality_manager self) in
  (platform <-
     (if (platform_choice =? 1)%Z
      then match detect_platform url with
           | Some p =>
               if Str.is_empty p
               then print_error
                      [Txt "Could not detect platform. Using yt-dlp..."];;;
                    ret "other"
               else ret p
           | None =>
               print_error
                 [Txt "Could not detect platform. Using yt-dlp..."];;;
               ret "other"
           end
      else ret match map_get platform_choice platform_map with
               | Some p => p
               | None => "other"
               end);;
   print_info [Txt "Platform: "; Txt platform];;;
   print_info [Txt "Quality: "; Txt q];;;
   k platform)
    (extend w [Print Plain [Txt "Select Platform:"]])
  = k (single_platform platform_choice url)
      (extend w (single_prelude platform_choice url q)).
Proof.
  cbv zeta. unfold single_prelude, single_platform, truthy_str, print_error,
    print_info, print_colored.
  destruct (platform_choice =? 1)%Z; cbn [andb].
  - destruct (detect_platform url) as [p|]; [destruct (Str.is_empty p)|];
      cbn [negb];
      rewrite ?(bind_ret_run _ (emit_run _ _)); unfold bind at 1, ret at 1;
      rewrite ?(bind_ret_run _ (emit_run _ _)), ?extend_extend; reflexivity.
  - unfold bind at 1, ret at 1.
    rewrite ?(bind_ret_run _ (emit_run _ _)), ?extend_extend. reflexivity.
Qed.

Lemma single_fetch_run (url p q : string) (w : world) :
  exists b evs,
    single_fetch E url p q w = (Ret b, extend w evs)
    /\ filter is_write evs = []
    /\ Forall (fun f => f = Some (JStr (or_str (Some q) Config.DEFAULT_QUALITY))
                        \/ f = Some (JStr youtube_format))
         (formats evs).
Proof.
  unfold single_fetch. destruct (String.eqb p "instagram") eqn:Hi.
  - destruct (download_instagram_performs E url w) as (b & evs & Hr & Hev).
    exists b, evs. split; [exact Hr|]. clear Hr. unfold formats.
    induction Hev as [|e evs He _ [IH1 IH2]]; [repeat constructor|].
    cbn [filter flat_map]. destruct e; cbn in He; try tauto; now split.
  - destruct (download_with_ytdlp_performs E url p (Some q) w)
      as (b & evs & Hr & Hev).
    exists b, evs. split; [exact Hr|]. clear Hr. unfold formats.
    induction Hev as [|e evs He _ [IH1 IH2]]; [repeat constructor|].
    cbn [filter flat_map]. destruct e; cbn in He; try tauto; try now split.
    cbn [is_write app]. split; [exact IH1|]. constructor; [|exact IH2].
    destruct He as [_ ->].
    destruct (get_ydl_options_fields E p (Some q)
                (path_join (DOWNLOAD_PATH E) (Str.capitalize p)))
      as (_ & _ & _ & _ & _ & Hf & _).
    rewrite Hf. destruct (String.eqb p "youtube"); [now right|now left].
Qed.

(** Saving the history in a run that nothing interrupts: the file is
    opened for writing once, and the failure is logged if there is one. *)
Lemma save_history_once (self : DownloadHistory) (w : world) :
  exists (w' : world) (evs : list event),
    save_history E self w = (Ret tt, w')
    /\ trace w' = (trace w ++ evs)%list
    /\ length (filter is_write evs) = 1
    /\ formats evs = [].
Proof.
  rewrite save_history_run. cbv zeta.
  match goal with
  | |- context [fs_open ?S ?W ?f ?m] =>
      pose proof (open_tame (services_undisturbed E) W f m) as Ho;
      destruct (fs_open S W f m) as [[]|e]
  end.
  - match goal with
    | |- context [fs_write ?S ?W ?f ?c] =>
        pose proof (write_tame (services_undisturbed E) W f c) as Hw;
        destruct (fs_write S W f c) as [[]|e]
    end.
    + eexists _, [OpenWrite _]. repeat split.
    + cbn [tame] in Hw. rewrite Hw.
      eexists _, [OpenWrite _; Log _]. split; [reflexivity|].
      split; [|split; reflexivity].
      unfold extend, set_file. cbn [trace]. now rewrite <- app_assoc.
  - cbn [tame] in Ho. rewrite Ho.
    eexists _, [OpenWrite _; Log _]. repeat split.
Qed.

End Single.

(** X12. A single download that is not called off (a platform choice other
    than back, and a URL), made on a history that is a list in a run that
    nothing interrupts: after its first messages it makes its attempt with
    the strategy of the platform chosen or detected (["other"] when none is
    detected) and the current quality; it then appends one entry to the
    history, for this URL, this platform and the boolean that the attempt
    returned, saves the history, and reports that same boolean.  The history
    file is opened for writing exactly once and the quality setting is kept.
    Every call of yt-dlp it makes carries the current quality as format,
    except for YouTube, whose format is fixed. *)
Theorem single_download_records_attempt (E : Env) (self : MediaDownloaderApp)
    (platform_choice : Z) (url : string) (w : world) (l : list json) :
  history (app_history self) = JList l ->
  ((platform_choice =? -1) || (platform_choice =? 7))%Z = false ->
  Str.is_empty url = false ->
  let p := single_platform platform_choice url in
  let q := get_quality (quality_manager self) in
  let w1 := extend w (single_prelude platform_choice url q) in
  exists (b : bool) (w2 w3 : world) (evs : list event),
    single_fetch E url p q w1 = (Ret b, w2)
    /\ (let h := mkDownloadHistory (history_file (app_history self))
                   (JList (append_capped l
                             (make_entry (now_isoformat E w2) url p b None))) in
        save_history E h w2 = (Ret tt, w3)
        /\ handle_single_download E self platform_choice (Some url) w
           = (Ret (mkApp h (quality_manager self) (running self)),
              extend w3 [single_verdict b]))
    /\ trace w3 = (trace w ++ evs)%list
    /\ length (filter is_write evs) = 1
    /\ Forall (fun f => f = Some (JStr (or_str (Some q) Config.DEFAULT_QUALITY))
                        \/ f = Some (JStr youtube_format))
         (formats evs).
Proof.
  intros Hl Hc Hu. destruct self as [[f h] qm r]. cbn in Hl. subst h.
  cbv zeta. cbn [app_history quality_manager running history_file].
  set (p := single_platform platform_choice url).
  set (q := get_quality qm).
  destruct (single_fetch_run E url p q
              (extend w (single_prelude platform_choice url q)))
    as (b & evs2 & Hd & Hw2 & Hf2).
  destruct (save_history_once E
              (mkDownloadHistory f
                 (JList (append_capped l
                           (make_entry
                              (now_isoformat E
                                 (extend
                                    (extend w
                                       (single_prelude platform_choice url q))
                                    evs2)) url p b None))))
              (extend (extend w (single_prelude platform_choice url q)) evs2))
    as (w3 & evs3 & Hs & Ht3 & Hw3 & Hf3).
  exists b, (extend (extend w (single_prelude platform_choice url q)) evs2),
    w3, (single_prelude platform_choice url q ++ evs2 ++ evs3)%list.
  split; [exact Hd|]. split; [split; [exact Hs|]|].
  - unfold handle_single_download.
    cbn [app_history quality_manager running].
    unfold print_colored at 1. rewrite (bind_ret_run _ (emit_run _ _)), Hc.
    cbn [truthy_str or_str negb]. rewrite Hu. cbn [negb].
    rewrite (single_prelude_run (mkApp (mkDownloadHistory f (JList l)) qm r)).
    fold p. cbn [quality_manager]. fold q.
    fold (single_fetch E url p q). rewrite (bind_ret_run _ Hd).
    unfold bind at 1. rewrite add_entry_run. cbv zeta. rewrite Hs.
    unfold single_verdict, print_success, print_error, print_colored.
    destruct b; rewrite (bind_ret_run _ (emit_run _ _)); reflexivity.
  - split; [|split].
    + rewrite Ht3. unfold extend. cbn [trace]. now rewrite <- !app_assoc.
    + rewrite !filter_app, Hw2, !length_app, Hw3.
      unfold single_prelude.
      destruct ((platform_choice =? 1)%Z
                && negb (truthy_str (detect_platform url))); reflexivity.
    + unfold formats in *. rewrite !flat_map_app, Hf3, app_nil_r.
      apply Forall_app. split; [|exact Hf2].
      unfold single_prelude.
      destruct ((platform_choice =? 1)%Z
                && negb (truthy_str (detect_platform url))); constructor.
Qed.

Lemma single_download_records_attempt_witness :
  let stored := mkDownloadHistory history_path (JList []) in
  let entry b := make_entry "2024-01-01T00:00:00" url_tiktok "tiktok" b None in
  fst (handle_single_download (test_env [] JNull) (app_with "720p") 1
         (Some url_tiktok) empty_world)
  = Ret (mkApp (mkDownloadHistory history_path (JList [entry true]))
           (quality_manager (app_with "720p")) true)
  /\ fst (handle_single_download (failing_env (OtherException "boom"))
            (app_with "720p") 1 (Some url_tiktok) empty_world)
     = Ret (mkApp (mkDownloadHistory history_path (JList [entry false]))
              (quality_manager (app_with "720p")) true).
Proof.
  cbv zeta. split.
  - destruct (single_download_records_attempt (test_env [] JNull)
                (app_with "720p") 1 url_tiktok empty_world [] eq_refl eq_refl
                eq_refl) as (b & w2 & w3 & evs & Hd & [_ Hrun] & _).
    rewrite Hrun. cbn [fst].
    apply (f_equal fst) in Hd. vm_compute in Hd. injection Hd as <-.
    reflexivity.
  - destruct (single_download_records_attempt
                (failing_env (OtherException "boom"))
                (app_with "720p") 1 url_tiktok empty_world [] eq_refl eq_refl
                eq_refl) as (b & w2 & w3 & evs & Hd & [_ Hrun] & _).
    rewrite Hrun. cbn [fst].
    apply (f_equal fst) in Hd. vm_compute in Hd. injection Hd as <-.
    reflexivity.
Defined.

(** ** Showing the history *)

Lemma show_entries_run (attempts : list attempt) (w : world) :
  show_entries (map entry_of attempts) w
  = (Ret tt, extend w (map line_of attempts)).
Proof.
  revert w. induction attempts as [|a attempts IH]; intros w.
  - cbn. now rewrite extend_nil.
  - cbn [map show_entries]. unfold bind at 1.
    assert (Hone : show_entry (entry_of a) w = (Ret tt, extend w [line_of a])).
    { destruct a as [ts u p s fn]. destruct s; reflexivity. }
    rewrite Hone, IH, extend_extend. reflexivity.
Qed.

Lemma slice_last_snoc {A} (limit : nat) (l : list A) (x : A) :
  0 < limit -> exists rest, rev (slice_last limit (l ++ [x])) = x :: rest.
Proof.
  intros H. unfold slice_last. destruct limit; [lia|].
  rewrite skipn_app, rev_app_distr, length_app. cbn [length].
  replace (length l + 1 - S limit - length l) with 0 by lia.
  cbn [skipn rev app]. eauto.
Qed.

(** X13. [show_history] changes neither the history nor any file.  With
    an empty history it prints one message.  With a history of entries made
    by [add_entry] it prints a title, then one line for each of the last
    [limit] entries, the newest first, each with its outcome, time, platform
    and the first 50 characters of its URL, then an empty line; with
    [limit = 0] the slice [history[-0:]] is the whole history, so every
    entry is shown.  An entry without the key ["success"] makes it raise
    [KeyError]. *)
Theorem show_history_newest_first (f : string) (limit : nat) (w : world) :
  show_history (mkDownloadHistory f (JList [])) limit w
  = (Ret tt, extend w [Print Info [Txt "No download history found"]])
  /\ (forall attempts : list attempt,
         attempts <> [] ->
         show_history (mkDownloadHistory f (JList (map entry_of attempts)))
           limit w
         = (Ret tt,
            extend w
              ([Print Header [Txt "Download History"]]
               ++ map line_of
                    (rev (match limit with
                          | O => attempts
                          | _ => last_n limit attempts
                          end))
               ++ [Print Plain []])))
  /\ (forall (entries : list json) (d : dict),
         dict_get "success" d = None ->
         0 < limit ->
         fst (show_history
                (mkDownloadHistory f (JList (entries ++ [JDict d])%list))
                limit w)
         = Raise (OtherException "KeyError")).
Proof.
  split; [reflexivity|]. split.
  - intros attempts Hne. unfold show_history. cbn [history truthy].
    destruct attempts as [|a attempts]; [congruence|]. cbn [map negb].
    change (entry_of a :: map entry_of attempts)
      with (map entry_of (a :: attempts)).
    assert (Hs : slice_last limit (map entry_of (a :: attempts))
                 = map entry_of (match limit with
                                 | O => a :: attempts
                                 | _ => last_n limit (a :: attempts)
                                 end)).
    { unfold slice_last, last_n. destruct limit; [reflexivity|].
      now rewrite length_map, skipn_map. }
    cbv zeta. rewrite Hs, <- map_rev.
    unfold print_header, print_colored.
    rewrite (bind_ret_run _ (emit_run _ _)).
    rewrite (bind_ret_run _ (show_entries_run _ _)).
    rewrite emit_run, !extend_extend. reflexivity.
  - intros entries d Hd Hlimit. unfold show_history. cbn [history].
    replace (truthy (JList (entries ++ [JDict d]))) with true
      by (destruct entries; reflexivity).
    cbn [negb]. cbv zeta. unfold print_header, print_colored.
    rewrite (bind_ret_run _ (emit_run _ _)).
    destruct (slice_last_snoc limit entries (JDict d) Hlimit) as [rest ->].
    cbn [show_entries].
    unfold show_entry, bind, lift, subscript. now rewrite Hd.
Qed.

Lemma show_history_newest_first_witness :
  let older := mkAttempt "2024-01-01T10:00:00" url_youtube "youtube" true None in
  let newer := mkAttempt "2024-01-02T10:00:00" url_tiktok "tiktok" false None in
  show_history
    (mkDownloadHistory history_path (JList [entry_of older; entry_of newer]))
    10 empty_world
  = (Ret tt,
     extend empty_world
       [Print Header [Txt "Download History"]; line_of newer; line_of older;
        Print Plain []]).
Proof.
  cbv zeta.
  apply (proj1 (proj2 (show_history_newest_first history_path 10 empty_world))
           [mkAttempt "2024-01-01T10:00:00" url_youtube "youtube" true None;
            mkAttempt "2024-01-02T10:00:00" url_tiktok "tiktok" false None]).
  discriminate.
Defined.

(** ** A batch with a platform chosen on the menu *)

Lemma fetch_event_chosen (E : Env) (url p : string) (e : event) :
  fetch_event E url p e -> chosen_strategy_event E p e.
Proof.
  unfold fetch_event. destruct (String.eqb_spec p "instagram") as [->|Hp].
  - destruct e; cbn; tauto.
  - destruct e; cbn; tauto.
Qed.

Lemma pause_chosen (E : Env) (p : string) (i total : nat) :
  Forall (chosen_strategy_event E p) (pause i total).
Proof. unfold pause. destruct (i <? total); repeat constructor. Qed.

Lemma segmented_chosen (E : Env) (p : string) (total : nat)
    (urls : list string) :
  Str.is_empty p = false ->
  forall (i : nat) (evs : list event),
    segmented E (Some p) total i urls evs ->
    Forall (chosen_strategy_event E p) evs.
Proof.
  intros Hp. induction urls as [|url rest IH]; intros i evs.
  - cbn. intros ->. constructor.
  - cbn [segmented]. intros (seg & evs' & -> & Hseg & Hrest).
    apply Forall_app. split; [|exact (IH _ _ Hrest)].
    unfold segment in Hseg.
    destruct (negb (is_valid_url url)); [subst; repeat constructor|].
    unfold resolve_platform, truthy_str in Hseg. rewrite Hp in Hseg.
    cbn [negb] in Hseg. rewrite Hp in Hseg.
    destruct Hseg as (fetch & Hfetch & ->).
    repeat (apply Forall_cons; [exact I|]).
    apply Forall_app. split; [|apply pause_chosen].
    eapply Forall_impl; [|exact Hfetch].
    intros e. apply fetch_event_chosen.
Qed.

(** X14. When a platform is chosen on the menu of a batch (choices 2 to
    6), the choice alone fixes the strategy of every URL of the file,
    whatever site the URL points to: with "instagram" the batch never calls
    yt-dlp, and with any other platform it never calls instaloader and every
    call of yt-dlp carries the options built for the chosen platform. *)
Theorem batch_choice_fixes_strategy (E : Env) (self : MediaDownloaderApp)
    (file_input : option string) (platform_choice : Z) (p : string)
    (w : world) :
  map_get platform_choice platform_map = Some p ->
  Forall (chosen_strategy_event E p)
    (emitted (handle_batch_download E self file_input platform_choice) w).
Proof.
  intros Hmap.
  assert (Hp : Str.is_empty p = false
               /\ (platform_choice =? -1)%Z = false
               /\ (platform_choice =? 7)%Z = false
               /\ (platform_choice =? 1)%Z = false).
  { revert Hmap. cbn [platform_map map_get].
    repeat (match goal with
            | |- (if (?a =? platform_choice)%Z then _ else _) = _ -> _ =>
                destruct (Z.eqb_spec a platform_choice);
                [intros [= <-]; subst; repeat split; reflexivity|]
            end).
    discriminate. }
  destruct Hp as (Hp & H1 & H7 & Hauto).
  unfold handle_batch_download.
  destruct (negb (truthy_str file_input)).
  - unfold emitted, ret. cbn [snd]. rewrite skipn_all. constructor.
  - rewrite H1, H7, Hauto, Hmap. cbn [orb negb].
    unfold print_colored.
    match goal with
    | |- context [download_from_file _ ?f ?pl] =>
        destruct (download_from_file_run E f pl
                    (extend w [Print Plain [Txt "Select Platform:"]]))
          as (evs & Hrun & _ & Hshape)
    end.
    assert (Hevs : Forall (chosen_strategy_event E p) evs).
    { destruct (fs_read_lines E _ _) as [lines|e].
      - cbv zeta in Hshape. destruct (read_urls lines) as [|u us].
        + subst evs. repeat constructor.
        + destruct Hshape as (body & n & -> & Hseg & _).
          repeat (apply Forall_cons; [exact I|]).
          apply Forall_app. split; [|repeat constructor].
          exact (segmented_chosen E p _ _ Hp _ _ Hseg).
      - destruct Hshape as [msg ->]. repeat constructor. }
    erewrite emitted_extend.
    2:{ rewrite (bind_ret_run _ (emit_run _ _)).
        rewrite (bind_ret_run _ Hrun). unfold ret.
        rewrite extend_extend. reflexivity. }
    constructor; [exact I|exact Hevs].
Qed.

Lemma batch_choice_fixes_strategy_witness :
  let E := test_env [url_youtube] (JList []) in
  map_get 3 platform_map = Some "instagram"
  /\ Forall (chosen_strategy_event E "instagram")
       (emitted (handle_batch_download E (app_with "best") (Some "urls.txt") 3)
          empty_world).
Proof.
  cbv zeta. split; [reflexivity|].
  apply (batch_choice_fixes_strategy (test_env [url_youtube] (JList []))
           (app_with "best") (Some "urls.txt") 3 "instagram" empty_world).
  reflexivity.
Defined.

(** ** The download folder *)

(** X15. [setup_download_path] answers with the first of its four
    candidate folders that exists, and then touches nothing; only when none
    of them exists does it make [cwd/downloads], and answer with it unless
    making it raises. *)
Theorem setup_download_path_first_existing (E : Env) (home cwd : string)
    (dir_exists : string -> bool) (w : world) :
  (forall (before after : list string) (path : string),
      possible_paths home cwd = (before ++ path :: after)%list ->
      dir_exists path = true ->
      Forall (fun q => dir_exists q = false) before ->
      setup_download_path E home cwd dir_exists w = (Ret path, w))
  /\ (Forall (fun q => dir_exists q = false) (possible_paths home cwd) ->
      let made := path_join cwd "downloads" in
      let w' := extend w [Mkdir made] in
      setup_download_path E home cwd dir_exists w
      = (match fs_mkdir E w' made with
         | Ret _ => Ret made
         | Raise e => Raise e
         end, w')).
Proof.
  unfold setup_download_path. split.
  - intros before after path -> Hpath Hbefore.
    replace (find dir_exists (before ++ path :: after)) with (Some path);
      [reflexivity|].
    induction Hbefore as [|q before Hq _ IH]; cbn [app find].
    + now rewrite Hpath.
    + now rewrite Hq.
  - intros Hnone. cbv zeta.
    replace (find dir_exists (possible_paths home cwd)) with (@None string).
    + unfold bind, call, ret, extend.
      destruct (fs_mkdir E _ _) as [[]|e]; reflexivity.
    + induction Hnone as [|q l Hq _ IH]; cbn [find]; [reflexivity|].
      now rewrite Hq.
Qed.

Lemma setup_download_path_first_existing_witness :
  let E := test_env [] (JList []) in
  let termux := String.eqb "/home/user/storage/downloads" in
  setup_download_path E "/home/user" "/work" termux empty_world
  = (Ret "/home/user/storage/downloads", empty_world).
Proof.
  cbv zeta.
  apply (proj1 (setup_download_path_first_existing (test_env [] (JList []))
                  "/home/user" "/work"
                  (String.eqb "/home/user/storage/downloads") empty_world)
           ["/home/user/Downloads"; "/home/user/downloads"] ["/work/downloads"]).
  - reflexivity.
  - reflexivity.
  - repeat constructor.
Defined.

(** ** White space in a valid URL *)

Lemma rep_loop_consumes (P : ascii -> bool) (step : matcher) :
  (forall pos s g k r,
      step pos s g k = Some r ->
      exists p' pre s' g',
        s = pre ++ s' /\ Str.forallb P pre = true /\ k p' s' g' = Some r) ->
  forall fuel lo hi pos s g k r,
    rep_loop step fuel lo hi pos s g k = Some r ->
    exists p' pre s' g',
      s = pre ++ s' /\ Str.forallb P pre = true /\ k p' s' g' = Some r.
Proof.
  intros Hstep.
  assert (Hstop : forall lo pos s g (k : cont) r,
             (if lo =? 0 then k pos s g else None) = Some r ->
             exists p' pre s' g',
               s = pre ++ s' /\ Str.forallb P pre = true
               /\ k p' s' g' = Some r).
  { intros lo pos s g k r H. destruct (lo =? 0); [|discriminate].
    exists pos, EmptyString, s, g. auto. }
  induction fuel as [|fuel IH]; intros lo hi pos s g k r H;
    cbn [rep_loop] in H; [exact (Hstop _ _ _ _ _ _ H)|].
  match type of H with
  | match ?m with _ => _ end = _ => destruct m as [r'|] eqn:Hm
  end; [|exact (Hstop _ _ _ _ _ _ H)].
  injection H as ->.
  assert (Hmore : step pos s g
                    (fun pos' s' g' =>
                       if pos' =? pos then None
                       else rep_loop step fuel (pred lo) (option_map pred hi)
                              pos' s' g' k) = Some r).
  { destruct hi as [[|h]|]; [discriminate|exact Hm|exact Hm]. }
  apply Hstep in Hmore as (p1 & pre1 & s1 & g1 & -> & HP1 & Hk).
  destruct (p1 =? pos); [discriminate|].
  apply IH in Hk as (p2 & pre2 & s2 & g2 & -> & HP2 & Hk).
  exists p2, (pre1 ++ pre2), s2, g2. split; [|split; [|exact Hk]].
  - clear. induction pre1 as [|c pre1 IHp]; cbn; [reflexivity|].
    now rewrite IHp.
  - clear - HP1 HP2. induction pre1 as [|c pre1 IHp]; cbn in *; [exact HP2|].
    apply andb_true_iff in HP1 as [-> HP1]. exact (IHp HP1).
Qed.

(** A match of [r] consumes a prefix of the subject made of characters
    that satisfy [P], and succeeds through its continuation. *)
Lemma exec_consumes (ic : bool) (P : ascii -> bool) (a : regex) :
  consumes_only ic P a ->
  forall pos s g k r,
    exec ic a pos s g k = Some r ->
    exists p' pre s' g',
      s = pre ++ s' /\ Str.forallb P pre = true /\ k p' s' g' = Some r.
Proof.
  induction a as [|c|items|a IHa b IHb|a IHa b IHb|a IHa lo hi|n a IHa| |];
    intros Hc pos s g k r H; cbn [exec] in H; cbn [consumes_only] in Hc.
  - exists pos, EmptyString, s, g. auto.
  - destruct s as [|x s]; [discriminate|].
    destruct (chr_eq ic c x) eqn:Hx; [|discriminate].
    exists (S pos), (String x EmptyString), s, g. cbn.
    rewrite (Hc x Hx). auto.
  - destruct s as [|x s]; [discriminate|].
    destruct (set_match ic items x) eqn:Hx; [|discriminate].
    exists (S pos), (String x EmptyString), s, g. cbn.
    rewrite (Hc x Hx). auto.
  - destruct Hc as [Ha Hb].
    apply (IHa Ha) in H as (p1 & pre1 & s1 & g1 & -> & HP1 & H).
    apply (IHb Hb) in H as (p2 & pre2 & s2 & g2 & -> & HP2 & H).
    exists p2, (pre1 ++ pre2), s2, g2. split; [|split; [|exact H]].
    + clear. induction pre1 as [|c pre1 IHp]; cbn; [reflexivity|].
      now rewrite IHp.
    + clear - HP1 HP2.
      induction pre1 as [|c pre1 IHp]; cbn in *; [exact HP2|].
      apply andb_true_iff in HP1 as [-> HP1]. exact (IHp HP1).
  - destruct Hc as [Ha Hb].
    destruct (exec ic a pos s g k) as [r'|] eqn:Hm.
    + injection H as ->. exact (IHa Ha _ _ _ _ _ Hm).
    + exact (IHb Hb _ _ _ _ _ H).
  - exact (rep_loop_consumes P (exec ic a) (IHa Hc) _ _ _ _ _ _ _ _ H).
  - apply (IHa Hc) in H as (p1 & pre1 & s1 & g1 & -> & HP1 & H). eauto 8.
  - destruct (pos =? 0); [|discriminate].
    exists pos, EmptyString, s, g. auto.
  - exists pos, EmptyString, s, g. split; [reflexivity|]. split; [reflexivity|].
    destruct s as [|c [|c' s]]; [exact H| |discriminate].
    destruct (Ascii.eqb c "010"); [exact H|discriminate].
Qed.

Lemma no_space_prepend (pre s : string) :
  Str.forallb not_space pre = true ->
  no_space_but_final_newline s ->
  no_space_but_final_newline (pre ++ s).
Proof.
  intros Hpre (body & Hs & Hbody). exists (pre ++ body). split.
  - destruct Hs as [->| ->]; [left; reflexivity|right].
    clear. induction pre as [|c pre IH]; cbn; [reflexivity|]. now rewrite IH.
  - clear - Hpre Hbody. induction pre as [|c pre IH]; cbn in *; [exact Hbody|].
    apply andb_true_iff in Hpre as [-> Hpre]. exact (IH Hpre).
Qed.

(** A match of a sequence that ends with [$] takes the whole subject,
    but for one final line feed. *)
Lemma exec_to_eol (ic : bool) (a : regex) :
  consumes_only ic not_space a ->
  ends_with_eol a = true ->
  forall pos s g k r,
    exec ic a pos s g k = Some r -> no_space_but_final_newline s.
Proof.
  induction a as [|c|items|a IHa b IHb|a IHa b IHb|a IHa lo hi|n a IHa| |];
    intros Hc He pos s g k r H; try discriminate He.
  - cbn [ends_with_eol] in He. destruct Hc as [Ha Hb]. cbn [exec] in H.
    apply (exec_consumes ic not_space a Ha) in H
      as (p1 & pre1 & s1 & g1 & -> & HP1 & H).
    apply no_space_prepend; [exact HP1|].
    exact (IHb Hb He _ _ _ _ _ H).
  - cbn [exec] in H. destruct s as [|c [|c' s]]; [| |discriminate].
    + exists EmptyString. split; [left|]; reflexivity.
    + destruct (Ascii.eqb_spec c "010"); [subst c|discriminate].
      exists EmptyString. split; [right|]; reflexivity.
Qed.

Lemma url_pattern_consumes : consumes_only true not_space url_pattern.
Proof.
  cbn. repeat split; intros x; chr_case x.
Qed.

(** X16. A valid URL contains no white space, but for one line feed at
    its very end, which the [$] of the pattern lets through: the URL
    [http://localhost] followed by a line feed is valid. *)
Theorem is_valid_url_no_whitespace :
  (forall url : string,
      is_valid_url url = true -> no_space_but_final_newline url)
  /\ is_valid_url ("http://localhost" ++ String "010" EmptyString) = true.
Proof.
  split; [|vm_compute; reflexivity].
  intros url H. unfold is_valid_url, match_ in H.
  destruct (exec true url_pattern 0 url [] accept) as [res|] eqn:Hm;
    [|discriminate].
  exact (exec_to_eol true url_pattern url_pattern_consumes eq_refl
           _ _ _ _ _ Hm).
Qed.

Lemma is_valid_url_no_whitespace_witness :
  is_valid_url url_youtube = true /\ no_space_but_final_newline url_youtube.
Proof.
  split; [vm_compute; reflexivity|].
  apply (proj1 is_valid_url_no_whitespace url_youtube).
  vm_compute; reflexivity.
Defined.

(** ** The scheme of a valid URL, for strings of any code points *)

Section SchemeUnicode.

Variable U : Unicode.

Lemma uexec_bol (r : regex) (s : ustring) (k : ucont) :
  uexec U true (Seq Bol r) 0 s k = uexec U true r 0 s k.
Proof. reflexivity. Qed.

Lemma uexec_chr (ic : bool) (c : ascii) (r : regex) (pos : nat) (s : ustring)
    (k : ucont) :
  uexec U ic (Seq (Chr c) r) pos s k = true ->
  exists x s', s = x :: s' /\ uchr_match U ic (point c) x = true
               /\ uexec U ic r (S pos) s' k = true.
Proof.
  cbn [uexec]. destruct s as [|x s']; [discriminate|].
  destruct (uchr_match U ic (point c) x) eqn:Hc; [|discriminate]. eauto.
Qed.

Lemma urep_loop_done (step : umatcher) (fuel pos : nat) (s : ustring)
    (k : ucont) :
  urep_loop step fuel 0 (Some 0) pos s k = k pos s.
Proof. destruct fuel; cbn; [reflexivity|]. reflexivity. Qed.

Lemma uexec_opt_chr (ic : bool) (c : ascii) (r : regex) (pos : nat)
    (s : ustring) (k : ucont) :
  uexec U ic (Seq (opt (Chr c)) r) pos s k = true ->
  (exists x s', s = x :: s' /\ uchr_match U ic (point c) x = true
                /\ uexec U ic r (S pos) s' k = true)
  \/ uexec U ic r pos s k = true.
Proof.
  unfold opt. cbn [uexec urep_loop pred option_map].
  change (0 =? 0) with true. cbv iota.
  destruct s as [|x s']; [auto|].
  destruct (uchr_match U ic (point c) x) eqn:Hc; [|auto].
  rewrite succ_eqb_false, urep_loop_done.
  destruct (uexec U ic r (S pos) s' k) eqn:Hr; [|auto].
  intros _. left. eauto.
Qed.

Hypothesis tables : scheme_tables U.

Lemma letter_match (c : ascii) (x : N) :
  In (point c) [0x68; 0x74; 0x70]%N ->
  uchr_match U true (point c) x = true ->
  x = point c \/ x = (point c - 32)%N.
Proof.
  destruct tables as (Hlow & Hpre & _).
  intros Hc. unfold uchr_match. cbn [andb].
  assert (Hc' : In (point c) [0x68; 0x74; 0x70; 0x73]%N)
    by (cbn in *; tauto).
  destruct (unicode_iscased U (point c)).
  - cbv zeta. rewrite (Hlow _ Hc').
    replace (fixes (point c)) with (@nil N)
      by (cbn in Hc; destruct Hc as [<-|[<-|[<-|[]]]]; reflexivity).
    cbn [existsb]. rewrite orb_false_r. intros H.
    apply N.eqb_eq in H. exact (Hpre _ _ Hc' H).
  - intros H. apply N.eqb_eq in H. now left.
Qed.

Lemma s_match (x : N) :
  uchr_match U true (point "s") x = true ->
  x = 0x73%N \/ x = 0x53%N \/ x = LONG_S.
Proof.
  destruct tables as (Hlow & Hpre & Hlong & _).
  unfold uchr_match. cbn [andb].
  assert (Hs : In 0x73%N [0x68; 0x74; 0x70; 0x73]%N) by (cbn; tauto).
  change (point "s") with 0x73%N.
  destruct (unicode_iscased U 0x73%N).
  - cbv zeta. rewrite (Hlow _ Hs).
    change (fixes 0x73%N) with [LONG_S]. cbn [existsb].
    rewrite orb_false_r. intros H. apply orb_true_iff in H as [H|H];
      apply N.eqb_eq in H.
    + destruct (Hpre _ _ Hs H) as [->| ->]; auto.
    + right. right. exact (Hlong _ H).
  - intros H. apply N.eqb_eq in H. now left.
Qed.

Lemma plain_match (c : ascii) (x : N) :
  In (point c) [0x3a; 0x2f]%N ->
  uchr_match U true (point c) x = true -> x = point c.
Proof.
  destruct tables as (_ & _ & _ & Hcolon & Hslash).
  intros Hc. unfold uchr_match.
  replace (unicode_iscased U (point c)) with false
    by (cbn in Hc; destruct Hc as [<-|[<-|[]]]; symmetry; assumption).
  cbn [andb]. intros H. now apply N.eqb_eq in H.
Qed.

Lemma either_case_intro (c : ascii) (x : N) :
  point (Str.upper_ascii c) = (point c - 32)%N ->
  x = point c \/ x = (point c - 32)%N -> either_case c x = true.
Proof.
  intros Hu [->| ->]; unfold either_case.
  - now rewrite N.eqb_refl.
  - rewrite Hu, N.eqb_refl. apply orb_true_r.
Qed.

(** What the head of [url_pattern] demands of the subject. *)
Lemma scheme_of_umatch (r : regex) (s : ustring) (k : ucont) :
  uexec U true
    (Seq Bol
      (Seq (Chr "h") (Seq (Chr "t") (Seq (Chr "t") (Seq (Chr "p")
      (Seq (opt (Chr "s"))
      (Seq (Chr ":") (Seq (Chr "/") (Seq (Chr "/") r)))))))))
    0 s k = true ->
  scheme_prefix true s = true.
Proof.
  intros H. rewrite uexec_bol in H.
  apply uexec_chr in H as (x1 & s1 & -> & H1 & H).
  apply uexec_chr in H as (x2 & s2 & -> & H2 & H).
  apply uexec_chr in H as (x3 & s3 & -> & H3 & H).
  apply uexec_chr in H as (x4 & s4 & -> & H4 & H).
  apply letter_match in H1; [|cbn; tauto].
  apply letter_match in H2; [|cbn; tauto].
  apply letter_match in H3; [|cbn; tauto].
  apply letter_match in H4; [|cbn; tauto].
  apply (either_case_intro "h") in H1; [|reflexivity].
  apply (either_case_intro "t") in H2; [|reflexivity].
  apply (either_case_intro "t") in H3; [|reflexivity].
  apply (either_case_intro "p") in H4; [|reflexivity].
  cbn [scheme_prefix]. rewrite H1, H2, H3, H4. cbn [andb].
  assert (Hrest : forall pos s',
             uexec U true
               (Seq (Chr ":") (Seq (Chr "/") (Seq (Chr "/") r))) pos s' k
             = true ->
             begins_with "://" s' = true).
  { intros pos s' H'.
    apply uexec_chr in H' as (x6 & s6 & -> & H6 & H').
    apply uexec_chr in H' as (x7 & s7 & -> & H7 & H').
    apply uexec_chr in H' as (x8 & s8 & -> & H8 & H').
    apply plain_match in H6; [|cbn; tauto].
    apply plain_match in H7; [|cbn; tauto].
    apply plain_match in H8; [|cbn; tauto].
    subst. reflexivity. }
  apply uexec_opt_chr in H as [(x5 & s5 & -> & H5 & H)|H].
  - apply Hrest in H. rewrite H. apply s_match in H5.
    assert (Hs : (either_case "s" x5 || (x5 =? LONG_S)%N)%bool = true)
      by (destruct H5 as [->|[->| ->]]; reflexivity).
    rewrite Hs. apply orb_true_r.
  - apply Hrest in H. now rewrite H.
Qed.

End SchemeUnicode.

Lemma in_filter_lower (t : list (N * N)) (x y : N) :
  find (fun p => N.eqb (fst p) x) t = Some (x, y) ->
  In x (map fst (filter (fun p => N.eqb (snd p) y) t)).
Proof.
  intros H. apply find_some in H as [Hin _].
  apply in_map_iff. exists (x, y). split; [reflexivity|].
  apply filter_In. split; [exact Hin|]. apply N.eqb_refl.
Qed.

Lemma cpython_tolower_inv (x y : N) :
  cpython_tolower x = y ->
  x = y \/ In x (map fst (filter (fun p => N.eqb (snd p) y) LOWER_BELOW_0180)).
Proof.
  unfold cpython_tolower.
  destruct (find (fun p => N.eqb (fst p) x) LOWER_BELOW_0180)
    as [[a b]|] eqn:Hf; [|auto].
  intros <-. right.
  assert (a = x).
  { apply find_some in Hf as [_ H]. now apply N.eqb_eq in H. }
  subst a. exact (in_filter_lower _ _ _ Hf).
Qed.

Lemma cpython_scheme_tables : scheme_tables cpython_tables.
Proof.
  split; [|split; [|split; [|split]]]; try reflexivity.
  - intros c Hc. cbn in Hc.
    destruct Hc as [<-|[<-|[<-|[<-|[]]]]]; reflexivity.
  - intros c x Hc Hx. cbn [unicode_tolower cpython_tables] in Hx.
    apply cpython_tolower_inv in Hx as [->|Hx]; [now left|]. right.
    cbn in Hc.
    destruct Hc as [<-|[<-|[<-|[<-|[]]]]]; vm_compute in Hx;
      destruct Hx as [<-|[]]; reflexivity.
  - intros x Hx. cbn [unicode_tolower cpython_tables] in Hx.
    apply cpython_tolower_inv in Hx as [->|Hx]; [reflexivity|].
    vm_compute in Hx. contradiction.
Qed.





(** ** Strings of code points below 256 *)

Lemma length_points (s : string) : length (points s) = String.length s.
Proof. induction s as [|c s IH]; cbn; [reflexivity|now rewrite IH]. Qed.

Lemma rep_loop_same (U : Unicode) (step : matcher) (ustep : umatcher) :
  (forall pos s g k k',
      (forall pos' s' g', is_some (k pos' s' g') = k' pos' (points s')) ->
      is_some (step pos s g k) = ustep pos (points s) k') ->
  forall fuel lo hi pos s g k k',
    (forall pos' s' g', is_some (k pos' s' g') = k' pos' (points s')) ->
    is_some (rep_loop step fuel lo hi pos s g k)
    = urep_loop ustep fuel lo hi pos (points s) k'.
Proof.
  intros Hstep. induction fuel as [|fuel IH]; intros lo hi pos s g k k' Hk;
    cbn [rep_loop urep_loop].
  - destruct (lo =? 0); [apply Hk|reflexivity].
  - assert (Hstop : is_some (if lo =? 0 then k pos s g else None)
                    = (if lo =? 0 then k' pos (points s) else false))
      by (destruct (lo =? 0); [apply Hk|reflexivity]).
    assert (Hmore : forall h,
               is_some (step pos s g
                          (fun pos' s' g' =>
                             if pos' =? pos then None
                             else rep_loop step fuel (pred lo) h pos' s' g' k))
               = ustep pos (points s)
                   (fun pos' s' =>
                      if pos' =? pos then false
                      else urep_loop ustep fuel (pred lo) h pos' s' k')).
    { intros h. apply Hstep. intros pos' s' g'.
      destruct (pos' =? pos); [reflexivity|]. now apply IH. }
    destruct hi as [[|h]|]; cbn [option_map];
      try rewrite <- Hmore; try rewrite <- Hstop;
      repeat match goal with
             | |- context [match ?x with Some _ => _ | None => _ end] =>
                 destruct x
             end; reflexivity.
Qed.

Lemma exec_same (U : Unicode) (ic : bool) (r : regex) :
  same_items U ic r ->
  forall pos s g k k',
    (forall pos' s' g', is_some (k pos' s' g') = k' pos' (points s')) ->
    is_some (exec ic r pos s g k) = uexec U ic r pos (points s) k'.
Proof.
  induction r as [|c|items|a IHa b IHb|a IHa b IHb|a IHa lo hi|n a IHa| |];
    intros Hr pos s g k k' Hk; cbn [exec uexec]; cbn [same_items] in Hr.
  - apply Hk.
  - destruct s as [|x s]; [reflexivity|]. cbn [points]. rewrite <- Hr.
    destruct (chr_eq ic c x); [apply Hk|reflexivity].
  - destruct s as [|x s]; [reflexivity|]. cbn [points]. rewrite <- Hr.
    destruct (set_match ic items x); [apply Hk|reflexivity].
  - destruct Hr as [Ha Hb]. apply (IHa Ha). intros pos' s' g'.
    now apply (IHb Hb).
  - destruct Hr as [Ha Hb].
    rewrite <- (IHa Ha pos s g k k' Hk), <- (IHb Hb pos s g k k' Hk).
    destruct (exec ic a pos s g k); reflexivity.
  - rewrite length_points.
    apply (rep_loop_same U (exec ic a) (uexec U ic a)); [|exact Hk].
    intros pos0 s0 g0 k0 k0' Hk0. now apply (IHa Hr).
  - apply (IHa Hr). intros pos' s' g'. apply Hk.
  - destruct (pos =? 0); [apply Hk|reflexivity].
  - destruct s as [|c [|c' s]]; cbn [points]; [apply Hk| |reflexivity].
    replace (N.eqb (point c) 10) with (Ascii.eqb c "010")
      by (destruct c as [[] [] [] [] [] [] [] []]; reflexivity).
    destruct (Ascii.eqb c "010"); [apply Hk|reflexivity].
Qed.

Lemma url_pattern_same_items : same_items cpython_tables true url_pattern.
Proof.
  cbn [same_items url_pattern url_host url_domain url_ip url_port url_tail
         cat plus opt digit alnum alnum_dash lit].
  repeat split; intros x;
    destruct x as [[] [] [] [] [] [] [] []]; vm_compute; reflexivity.
Qed.

(** The validation of a string of code points below 256 is the
    validation of its code points with the tables of CPython: what is
    proved of [is_valid_url] holds of such strings. *)
Lemma is_valid_url_points (s : string) :
  is_valid_url s = is_valid_url_unicode cpython_tables (points s).
Proof.
  unfold is_valid_url, match_, is_valid_url_unicode, umatch.
  apply (exec_same cpython_tables true url_pattern url_pattern_same_items).
  reflexivity.
Qed.
